(** * Flashclose: the retry decorator and the cleanup run of [run.py]

    A shallow embedding of [run.py]: the [retry_async] decorator, the
    [BitgetExchange] methods it wraps and the [main] coroutine, run against
    an arbitrary exchange client.  The client (ccxt) is opaque: every one of
    its methods is a function on an abstract world that returns a value or
    raises an instance of [Exception].  Everything the program does that an
    observer can see (a call of a client method, a sleep, a printed line)
    is appended to a trace. *)

From Stdlib Require Import ZArith List String Ascii Bool Lia QArith.
Import ListNotations.
Open Scope string_scope.
Open Scope Z_scope.
Set Warnings "-register-all".

(** ** Python values *)

(** The values the raw endpoints answer with (parsed JSON) and the values
    that flow from them into request parameters: [None], a [bool], an
    [int], a [float], a [str], a [list], a [dict].  A dict is an
    association list looked up from the left. *)
Inductive json : Type :=
| JNull
| JBool (b : bool)
| JInt (n : Z)
| JFloat (q : Q)
| JStr (s : string)
| JList (l : list json)
| JDict (d : list (string * json)).

Definition dict := list (string * json).

(** A position as ccxt's unified [fetch_positions] returns it: the keys
    [symbol], [side] and [contracts] are always present, [contracts] may be
    [None]. *)
Record position : Type := {
  symbol : string;
  side : string;
  contracts : option Q
}.

(** An exception, that is an instance of [Exception]: whether it is an
    instance of [ccxt.RateLimitExceeded], and its [str(e)].  These are the
    failures of the model: the client and the program's own operations
    answer or raise an [Exception].  What is raised outside that class
    ([asyncio.CancelledError], [KeyboardInterrupt], [SystemExit]), which no
    handler of the program catches, is not modelled. *)
Record exn : Type := {
  rate_limit_exceeded : bool;
  str : string
}.

Definition Exception (msg : string) : exn :=
  {| rate_limit_exceeded := false; str := msg |}.

Definition RateLimitExceeded (msg : string) : exn :=
  {| rate_limit_exceeded := true; str := msg |}.

Inductive result (A : Type) : Type :=
| Ok (v : A)
| Raise (e : exn).
Arguments Ok {A} v.
Arguments Raise {A} e.

(** ** Strings *)

Definition quote : string := String (ascii_of_nat 34) EmptyString.

(** The prefix [{"code":"429"] tested by [retry_async]. *)
Definition CODE_429 : string :=
  "{" ++ quote ++ "code" ++ quote ++ ":" ++ quote ++ "429" ++ quote.

Definition startswith (s p : string) : bool := String.prefix p s.

(** [sub in s] for two strings. *)
Definition str_contains (sub s : string) : bool :=
  match String.index 0 sub s with
  | Some _ => true
  | None => false
  end.

(** [s.split(':')[0]] *)
Fixpoint split_colon_0 (s : string) : string :=
  match s with
  | EmptyString => EmptyString
  | String c r => if Ascii.eqb c ":"%char then EmptyString
                  else String c (split_colon_0 r)
  end.

(** [s.replace('/', '')] *)
Fixpoint replace_slash (s : string) : string :=
  match s with
  | EmptyString => EmptyString
  | String c r => if Ascii.eqb c "/"%char then replace_slash r
                  else String c (replace_slash r)
  end.

(** ** Python operations on values; each raises where Python does *)

(** [type(v).__name__], as the error texts name it. *)
Definition type_name (v : json) : string :=
  match v with
  | JNull => "NoneType"
  | JBool _ => "bool"
  | JInt _ => "int"
  | JFloat _ => "float"
  | JStr _ => "str"
  | JList _ => "list"
  | JDict _ => "dict"
  end.

Definition TypeError (msg : string) : exn := Exception msg.
Definition AttributeError (msg : string) : exn := Exception msg.
Definition KeyError (key : string) : exn := Exception ("'" ++ key ++ "'").

Definition eq_str (v : json) (s : string) : bool :=
  match v with
  | JStr t => String.eqb t s
  | _ => false
  end.

Fixpoint lookup (key : string) (d : dict) : option json :=
  match d with
  | [] => None
  | (k, v) :: r => if String.eqb k key then Some v else lookup key r
  end.

(** Truth value of an object. *)
Definition truthy (v : json) : bool :=
  match v with
  | JNull => false
  | JBool b => b
  | JInt n => negb (n =? 0)
  | JFloat q => negb (Qeq_bool q 0)
  | JStr s => negb (String.eqb s "")
  | JList l => match l with [] => false | _ => true end
  | JDict d => match d with [] => false | _ => true end
  end.

(** [key in v] for a string [key]. *)
Definition py_in (key : string) (v : json) : result bool :=
  match v with
  | JDict d => Ok (match lookup key d with Some _ => true | None => false end)
  | JList l => Ok (existsb (fun x => eq_str x key) l)
  | JStr s => Ok (str_contains key s)
  | _ => Raise (TypeError ("argument of type '" ++ type_name v ++ "' is not iterable"))
  end.

(** [v[key]] for a string [key]. *)
Definition py_getitem (v : json) (key : string) : result json :=
  match v with
  | JDict d => match lookup key d with
               | Some x => Ok x
               | None => Raise (KeyError key)
               end
  | JList _ => Raise (TypeError "list indices must be integers or slices, not str")
  | JStr _ => Raise (TypeError "string indices must be integers")
  | _ => Raise (TypeError ("'" ++ type_name v ++ "' object is not subscriptable"))
  end.

(** [v.get(key, default)] *)
Definition py_get (v : json) (key : string) (default : json) : result json :=
  match v with
  | JDict d => Ok (match lookup key d with Some x => x | None => default end)
  | _ => Raise (AttributeError ("'" ++ type_name v ++ "' object has no attribute 'get'"))
  end.

(** The items a [for] loop or a comprehension draws from [v]. *)
Definition py_iter (v : json) : result (list json) :=
  match v with
  | JList l => Ok l
  | JDict d => Ok (map (fun kv => JStr (fst kv)) d)
  | JStr s => Ok (map (fun c => JStr (String c EmptyString)) (list_ascii_of_string s))
  | _ => Raise (TypeError ("'" ++ type_name v ++ "' object is not iterable"))
  end.

(** [len(v)] *)
Definition py_len (v : json) : result nat :=
  match v with
  | JList l => Ok (List.length l)
  | JDict d => Ok (List.length d)
  | JStr s => Ok (String.length s)
  | _ => Raise (TypeError ("object of type '" ++ type_name v ++ "' has no len()"))
  end.

(** ** The observable trace *)

(** The calls the program makes on the ccxt client [self._exchange]. *)
Inductive request : Type :=
| close_req
| load_markets_req
| fetch_positions_req (params : dict)
| close_position_req (symbol : string) (side : string)
| orders_plan_pending_req (params : dict)
| orders_pending_req (params : dict)
| cancel_plan_order_req (params : dict)
| cancel_order_req (params : dict).

(** One constructor per [print] statement of the source, carrying the
    values it interpolates. *)
Inductive message : Type :=
| MsgRateLimitHit (attempt max_retries delay : Z)
| MsgUnexpectedFormat
| MsgErrorFetchingLimit (err : string)
| MsgStarting
| MsgFetchingPositions
| MsgNoPositions
| MsgFoundPositions (n : nat)
| MsgClosingPosition (p : position)
| MsgClosed (side symbol : string) (contracts : option Q)
| MsgErrorClosing (symbol err : string) (p : position)
| MsgFetchingTrigger
| MsgNoTrigger
| MsgFoundTrigger (n : nat)
| MsgCanceledTrigger (order_id symbol : json)
| MsgErrorCancelTrigger (order_id : json) (err : string)
| MsgFetchingTpsl
| MsgNoTpsl
| MsgFoundTpsl (n : nat)
| MsgCanceledTpsl (order_id symbol : json)
| MsgErrorCancelTpsl (order_id : json) (err : string)
| MsgFetchingLimit
| MsgNoLimit
| MsgFoundLimit (n : nat)
| MsgCanceledLimit (order_id symbol : json)
| MsgErrorCancelLimit (order_id : json) (err : string)
| MsgFinalVerification
| MsgPositionsStillOpen (n : nat)
| MsgPositionLine (symbol side : string) (contracts : option Q)
| MsgAllPositionsClosed
| MsgOrdersStillOpen (n : nat)
| MsgTriggerCount (n : nat)
| MsgTpslCount (n : nat)
| MsgLimitCount (n : nat)
| MsgAllOrdersCanceled
| MsgError (err : string)
| MsgCompleted.

Inductive event : Type :=
| ECall (r : request)
| ESleep (delay : Z)
| EPrint (m : message).

(** ** The effect monad: world, trace and exceptions *)

Section Monad.

(** The state of whatever is behind the client: the exchange, the network,
    the client's own session. *)
Context {W : Type}.

Record state : Type := {
  world : W;
  trace : list event
}.

Definition M (A : Type) : Type := state -> result A * state.

Definition ret {A} (v : A) : M A := fun s => (Ok v, s).

Definition raise {A} (e : exn) : M A := fun s => (Raise e, s).

Definition bind {A B} (m : M A) (k : A -> M B) : M B :=
  fun s => match m s with
           | (Ok v, s1) => k v s1
           | (Raise e, s1) => (Raise e, s1)
           end.

(** [try: m  except Exception as e: h e].  Every exception of the model is
    an [Exception], so the handler takes whatever [m] raises. *)
Definition try_except {A} (m : M A) (h : exn -> M A) : M A :=
  fun s => match m s with
           | (Ok v, s1) => (Ok v, s1)
           | (Raise e, s1) => h e s1
           end.

Definition lift {A} (r : result A) : M A :=
  match r with
  | Ok v => ret v
  | Raise e => raise e
  end.

Definition emit (ev : event) : M unit :=
  fun s => (Ok tt, {| world := world s; trace := trace s ++ [ev] |}).

Definition print (m : message) : M unit := emit (EPrint m).

(** [await asyncio.sleep(delay)] *)
Definition sleep (delay : Z) : M unit := emit (ESleep delay).

(** [await self._exchange.<method>(...)]: the call is recorded, then the
    client acts on the world and answers or raises. *)
Definition call {A} (r : request) (op : W -> result A * W) : M A :=
  fun s => let (v, w) := op (world s) in
           (v, {| world := w; trace := trace s ++ [ECall r] |}).

End Monad.

Arguments state W : clear implicits.
Arguments M W A : clear implicits.

Notation "x <- m ;; k" := (bind m (fun x => k))
  (at level 61, m at next level, right associativity).
Notation "m ;; k" := (bind m (fun _ => k))
  (at level 61, right associativity).

(** [for x in xs: body x] *)
Fixpoint for_each {W A} (xs : list A) (body : A -> M W unit) : M W unit :=
  match xs with
  | [] => ret tt
  | x :: r => body x ;; for_each r body
  end.

(** ** [retry_async] *)

(** [range(n)] *)
Definition range (n : Z) : list Z := map Z.of_nat (seq 0 (Z.to_nat n)).

Definition is_rate_limit (e : exn) : bool :=
  rate_limit_exceeded e || startswith (str e) CODE_429.

Definition operation_failed (e : exn) : exn :=
  Exception ("BitgetExchange operation failed: " ++ str e).

Section Retry.

Context {W A : Type}.

(** The module globals [MAX_RETRIES] and [BASE_DELAY], kept as parameters
    of the decorator. *)
Variables (max_retries base_delay : Z).
Variable func : M W A.

(** The [for attempt in range(MAX_RETRIES)] loop of [wrapper], over the
    attempts still to come.  When the loop runs out the coroutine falls off
    its end and returns [None]. *)
Fixpoint wrapper_loop (attempts : list Z) : M W (option A) :=
  match attempts with
  | [] => ret None
  | attempt :: rest =>
      try_except
        (v <- func ;; ret (Some v))
        (fun e =>
           if is_rate_limit e && (attempt <? max_retries - 1) then
             let delay := base_delay * 2 ^ attempt in
             print (MsgRateLimitHit (attempt + 1) max_retries delay) ;;
             sleep delay ;;
             wrapper_loop rest
           else raise (operation_failed e))
  end.

Definition retry_async : M W (option A) := wrapper_loop (range max_retries).

End Retry.

Definition MAX_RETRIES : Z := 5.
Definition BASE_DELAY : Z := 1.

(** ** The ccxt client *)

(** The methods of [ccxt.bitget] that the program calls.  [fetch_positions]
    and [close_position] belong to ccxt's unified interface, the four
    [private_mix_*] methods are raw endpoints and answer with parsed JSON. *)
Record ccxt_bitget (W : Type) : Type := {
  ccxt_close : W -> result unit * W;
  ccxt_load_markets : W -> result json * W;
  ccxt_fetch_positions : dict -> W -> result (list position) * W;
  ccxt_close_position : string -> string -> W -> result unit * W;
  private_mix_get_v2_mix_order_orders_plan_pending : dict -> W -> result json * W;
  private_mix_get_v2_mix_order_orders_pending : dict -> W -> result json * W;
  private_mix_post_v2_mix_order_cancel_plan_order : dict -> W -> result json * W;
  private_mix_post_v2_mix_order_cancel_order : dict -> W -> result json * W
}.
Arguments ccxt_close {W} _ _.
Arguments ccxt_load_markets {W} _ _.
Arguments ccxt_fetch_positions {W} _ _ _.
Arguments ccxt_close_position {W} _ _ _ _.
Arguments private_mix_get_v2_mix_order_orders_plan_pending {W} _ _ _.
Arguments private_mix_get_v2_mix_order_orders_pending {W} _ _ _.
Arguments private_mix_post_v2_mix_order_cancel_plan_order {W} _ _ _.
Arguments private_mix_post_v2_mix_order_cancel_order {W} _ _ _.

(** [d[key] = v] *)
Fixpoint dict_set (d : dict) (key : string) (v : json) : dict :=
  match d with
  | [] => [(key, v)]
  | (k, x) :: r => if String.eqb k key then (k, v) :: r
                   else (k, x) :: dict_set r key v
  end.

(** [d.update(u)] *)
Definition dict_update (d u : dict) : dict :=
  fold_left (fun acc kv => dict_set acc (fst kv) (snd kv)) u d.

(** The result of a decorated method whose body returns a Python object:
    the value the wrapper returns, [None] included. *)
Definition or_None (o : option json) : json :=
  match o with
  | Some v => v
  | None => JNull
  end.

(** ** [BitgetExchange] *)

Record BitgetExchange (W : Type) : Type := {
  product_type : string;
  margin_coin : string;
  _exchange : ccxt_bitget W
}.
Arguments product_type {W} _.
Arguments margin_coin {W} _.
Arguments _exchange {W} _.

Section Exchange.

Context {W : Type}.

(** The constructor [ccxt.bitget(api_setup)]. *)
Variable ccxt_new : dict -> ccxt_bitget W.

(** [__init__].  The attribute [markets], which [load_markets] assigns and
    nothing reads, is not kept. *)
Definition BitgetExchange_init (api_setup : dict) (product_type : string)
  : BitgetExchange W :=
  {| product_type := product_type;
     margin_coin := if String.eqb product_type "USDT-FUTURES" then "USDT" else "USDC";
     _exchange := ccxt_new (dict_update api_setup
                    [("options", JDict [("defaultType", JStr "future")]);
                     ("enableRateLimit", JBool true);
                     ("rateLimit", JInt 100)]) |}.

Variable self : BitgetExchange W.

Definition close : M W (option unit) :=
  retry_async MAX_RETRIES BASE_DELAY
    (call close_req (ccxt_close (_exchange self))).

Definition load_markets : M W (option unit) :=
  retry_async MAX_RETRIES BASE_DELAY
    (markets <- call load_markets_req (ccxt_load_markets (_exchange self)) ;;
     ret tt).

Definition is_open (pos : position) : bool :=
  match contracts pos with
  | Some c => negb (Qle_bool c 0)
  | None => false
  end.

Definition fetch_open_positions : M W (option (list position)) :=
  retry_async MAX_RETRIES BASE_DELAY
    (let params := [("productType", JStr (product_type self))] in
     positions <- call (fetch_positions_req params)
                       (ccxt_fetch_positions (_exchange self) params) ;;
     let open_positions := filter is_open positions in
     ret open_positions).

Definition flash_close_position (symbol side : string) : M W (option unit) :=
  retry_async MAX_RETRIES BASE_DELAY
    (try_except
       (call (close_position_req symbol side)
             (ccxt_close_position (_exchange self) symbol side))
       (fun e => raise e)).

Definition _format_symbol (symbol : json) : result json :=
  match py_in "/" symbol with
  | Raise e => Raise e
  | Ok true =>
      match symbol with
      | JStr s => Ok (JStr (replace_slash (split_colon_0 s)))
      | _ => Raise (AttributeError ("'" ++ type_name symbol
                                    ++ "' object has no attribute 'split'"))
      end
  | Ok false => Ok symbol
  end.

(** The [params] of the three fetches: the two fixed entries, then
    [symbol] when one is given. *)
Definition fetch_params (fixed : dict) (symbol : json) : result dict :=
  if truthy symbol then
    match _format_symbol symbol with
    | Ok fs => Ok (dict_set fixed "symbol" fs)
    | Raise e => Raise e
    end
  else Ok fixed.

(** The tail shared, line for line, by [fetch_open_trigger_orders] and
    [fetch_open_tpsl_orders]: pick [response["data"]["entrustedList"]]. *)
Definition entrusted_list_of (response : json) : M W json :=
  has_data <- lift (py_in "data" response) ;;
  if has_data : bool then
    data <- lift (py_getitem response "data") ;;
    has_list <- lift (py_in "entrustedList" data) ;;
    if has_list : bool then
      data <- lift (py_getitem response "data") ;;
      lift (py_getitem data "entrustedList")
    else ret (JList [])
  else ret (JList []).

Definition fetch_open_trigger_orders (symbol : json) : M W json :=
  orders <- retry_async MAX_RETRIES BASE_DELAY
    (params <- lift (fetch_params
                       [("productType", JStr (product_type self));
                        ("planType", JStr "normal_plan")] symbol) ;;
     response <- call (orders_plan_pending_req params)
       (private_mix_get_v2_mix_order_orders_plan_pending (_exchange self) params) ;;
     entrusted_list_of response) ;;
  ret (or_None orders).

Definition fetch_open_tpsl_orders (symbol : json) : M W json :=
  orders <- retry_async MAX_RETRIES BASE_DELAY
    (params <- lift (fetch_params
                       [("productType", JStr (product_type self));
                        ("planType", JStr "profit_loss")] symbol) ;;
     response <- call (orders_plan_pending_req params)
       (private_mix_get_v2_mix_order_orders_plan_pending (_exchange self) params) ;;
     entrusted_list_of response) ;;
  ret (or_None orders).

(** [[order for order in items if order.get("orderType") == "limit"]] *)
Fixpoint limit_only (items : list json) : result (list json) :=
  match items with
  | [] => Ok []
  | order :: rest =>
      match py_get order "orderType" JNull with
      | Raise e => Raise e
      | Ok t =>
          match limit_only rest with
          | Raise e => Raise e
          | Ok kept => Ok (if eq_str t "limit" then order :: kept else kept)
          end
      end
  end.

(** The [try] block of [fetch_open_limit_orders] with its handler. *)
Definition limit_orders_try (params : dict) : M W json :=
  try_except
    (response <- call (orders_pending_req params)
       (private_mix_get_v2_mix_order_orders_pending (_exchange self) params) ;;
     no_data <- (if negb (truthy response) then ret true
                 else (has_data <- lift (py_in "data" response) ;;
                       ret (negb has_data))) ;;
     if no_data : bool then
       print MsgUnexpectedFormat ;;
       ret (JList [])
     else
       data <- lift (py_get response "data" (JDict [])) ;;
       entrusted_list <- lift (py_get data "entrustedList" (JList [])) ;;
       match entrusted_list with
       | JNull => ret (JList [])
       | _ =>
           items <- lift (py_iter entrusted_list) ;;
           kept <- lift (limit_only items) ;;
           ret (JList kept)
       end)
    (fun e =>
       print (MsgErrorFetchingLimit (str e)) ;;
       ret (JList [])).

Definition fetch_open_limit_orders (symbol : json) : M W json :=
  orders <- retry_async MAX_RETRIES BASE_DELAY
    (params <- lift (fetch_params
                       [("productType", JStr (product_type self));
                        ("status", JStr "live")] symbol) ;;
     limit_orders_try params) ;;
  ret (or_None orders).

Definition cancel_params (fs order_id : json) : dict :=
  [("productType", JStr (product_type self));
   ("marginCoin", JStr (margin_coin self));
   ("symbol", fs);
   ("orderId", order_id)].

Definition cancel_trigger_order (symbol order_id : json) : M W (option unit) :=
  retry_async MAX_RETRIES BASE_DELAY
    (fs <- lift (_format_symbol symbol) ;;
     let params := cancel_params fs order_id in
     call (cancel_plan_order_req params)
       (private_mix_post_v2_mix_order_cancel_plan_order (_exchange self) params) ;;
     ret tt).

Definition cancel_limit_order (symbol order_id : json) : M W (option unit) :=
  retry_async MAX_RETRIES BASE_DELAY
    (fs <- lift (_format_symbol symbol) ;;
     let params := cancel_params fs order_id in
     call (cancel_order_req params)
       (private_mix_post_v2_mix_order_cancel_order (_exchange self) params) ;;
     ret tt).

(** [__aenter__] and [__aexit__] *)
Definition aenter : M W (BitgetExchange W) :=
  load_markets ;; ret self.

Definition aexit : M W bool :=
  close ;; ret false.

End Exchange.

(** ** [async with] *)

(** [async with mgr as x: body x], for a manager given by its [__aenter__]
    and [__aexit__].  When [__aenter__] raises, neither the body nor
    [__aexit__] runs.  Otherwise [__aexit__] runs once, after the body; an
    exception of the body is raised again unless [__aexit__] returns true,
    and is replaced by the one [__aexit__] raises when it raises. *)
Definition async_with {W X} (enter : M W X) (exit : M W bool)
    (body : X -> M W unit) : M W unit :=
  x <- enter ;;
  fun s =>
    match body x s with
    | (Ok v, s1) => (exit ;; ret v) s1
    | (Raise e, s1) =>
        match exit s1 with
        | (Ok suppress, s2) => if suppress : bool then (Ok tt, s2) else (Raise e, s2)
        | (Raise e', s2) => (Raise e', s2)
        end
    end.

(** ** [get_bitget_api_credentials] *)

(** [ACCOUNTS] is imported from the module [secret], which is not part of
    the program; it is a parameter. *)
Definition get_bitget_api_credentials {W} (ACCOUNTS : json) : M W dict :=
  try_except
    (let key_name := "bitget1" in
     account <- lift (py_get ACCOUNTS key_name (JDict [])) ;;
     invalid <-
       (if negb (truthy account) then ret true
        else
          public_api <- lift (py_get account "public_api" JNull) ;;
          if negb (truthy public_api) then ret true
          else
            secret_api <- lift (py_get account "secret_api" JNull) ;;
            ret (negb (truthy secret_api))) ;;
     if invalid : bool then
       raise (Exception ("Invalid API credentials for " ++ key_name ++ " in secret.py"))
     else
       public_api <- lift (py_getitem account "public_api") ;;
       secret_api <- lift (py_getitem account "secret_api") ;;
       password <- lift (py_getitem account "password") ;;
       ret [("apiKey", public_api); ("secret", secret_api); ("password", password)])
    (fun e => raise (Exception ("Failed to load API credentials: " ++ str e))).

(** ** [main] *)

(** What [main] does with the result of [fetch_open_positions], a list or
    the [None] of a wrapper that fell off its loop. *)
Definition truthy_positions (positions : option (list position)) : bool :=
  match positions with
  | Some (_ :: _) => true
  | _ => false
  end.

Definition len_positions (positions : option (list position)) : result nat :=
  match positions with
  | Some l => Ok (List.length l)
  | None => Raise (TypeError "object of type 'NoneType' has no len()")
  end.

Definition iter_positions (positions : option (list position))
  : result (list position) :=
  match positions with
  | Some l => Ok l
  | None => Raise (TypeError "'NoneType' object is not iterable")
  end.

Section Main.

Context {W : Type}.
Variable exchange : BitgetExchange W.

Definition close_one_position (position : position) : M W unit :=
  print (MsgClosingPosition position) ;;
  let symbol := symbol position in
  let side := side position in
  let contracts := contracts position in
  try_except
    (flash_close_position exchange symbol side ;;
     print (MsgClosed side symbol contracts))
    (fun e => print (MsgErrorClosing symbol (str e) position)).

(** Step 1: fetch and close all open positions. *)
Definition step1_close_positions : M W unit :=
  print MsgFetchingPositions ;;
  positions <- fetch_open_positions exchange ;;
  if negb (truthy_positions positions) then
    print MsgNoPositions
  else
    n <- lift (len_positions positions) ;;
    print (MsgFoundPositions n) ;;
    items <- lift (iter_positions positions) ;;
    for_each items close_one_position.

Definition cancel_one_trigger_order (order : json) : M W unit :=
  symbol <- lift (py_getitem order "symbol") ;;
  order_id <- lift (py_getitem order "orderId") ;;
  try_except
    (cancel_trigger_order exchange symbol order_id ;;
     print (MsgCanceledTrigger order_id symbol))
    (fun e => print (MsgErrorCancelTrigger order_id (str e))).

(** Step 2: cancel all trigger orders. *)
Definition step2_cancel_trigger_orders : M W unit :=
  print MsgFetchingTrigger ;;
  trigger_orders <- fetch_open_trigger_orders exchange JNull ;;
  if negb (truthy trigger_orders) then
    print MsgNoTrigger
  else
    n <- lift (py_len trigger_orders) ;;
    print (MsgFoundTrigger n) ;;
    items <- lift (py_iter trigger_orders) ;;
    for_each items cancel_one_trigger_order.

Definition cancel_one_tpsl_order (order : json) : M W unit :=
  symbol <- lift (py_getitem order "symbol") ;;
  order_id <- lift (py_getitem order "orderId") ;;
  try_except
    (cancel_trigger_order exchange symbol order_id ;;
     print (MsgCanceledTpsl order_id symbol))
    (fun e => print (MsgErrorCancelTpsl order_id (str e))).

(** Step 3: cancel all TP/SL orders. *)
Definition step3_cancel_tpsl_orders : M W unit :=
  print MsgFetchingTpsl ;;
  tpsl_orders <- fetch_open_tpsl_orders exchange JNull ;;
  if negb (truthy tpsl_orders) then
    print MsgNoTpsl
  else
    n <- lift (py_len tpsl_orders) ;;
    print (MsgFoundTpsl n) ;;
    items <- lift (py_iter tpsl_orders) ;;
    for_each items cancel_one_tpsl_order.

Definition cancel_one_limit_order (order : json) : M W unit :=
  symbol <- lift (py_getitem order "symbol") ;;
  order_id <- lift (py_getitem order "orderId") ;;
  try_except
    (cancel_limit_order exchange symbol order_id ;;
     print (MsgCanceledLimit order_id symbol))
    (fun e => print (MsgErrorCancelLimit order_id (str e))).

(** Step 4: cancel all limit orders. *)
Definition step4_cancel_limit_orders : M W unit :=
  print MsgFetchingLimit ;;
  limit_orders <- fetch_open_limit_orders exchange JNull ;;
  if negb (truthy limit_orders) then
    print MsgNoLimit
  else
    n <- lift (py_len limit_orders) ;;
    print (MsgFoundLimit n) ;;
    items <- lift (py_iter limit_orders) ;;
    for_each items cancel_one_limit_order.

Definition report_positions (positions : option (list position)) : M W unit :=
  if truthy_positions positions then
    n <- lift (len_positions positions) ;;
    print (MsgPositionsStillOpen n) ;;
    items <- lift (iter_positions positions) ;;
    for_each items
      (fun position =>
         print (MsgPositionLine (symbol position) (side position)
                                (contracts position)))
  else
    print MsgAllPositionsClosed.

Definition report_orders (trigger_orders tpsl_orders limit_orders : json)
  : M W unit :=
  if truthy trigger_orders || truthy tpsl_orders || truthy limit_orders then
    a <- lift (py_len trigger_orders) ;;
    b <- lift (py_len tpsl_orders) ;;
    c <- lift (py_len limit_orders) ;;
    print (MsgOrdersStillOpen (a + b + c)) ;;
    a <- lift (py_len trigger_orders) ;;
    print (MsgTriggerCount a) ;;
    b <- lift (py_len tpsl_orders) ;;
    print (MsgTpslCount b) ;;
    c <- lift (py_len limit_orders) ;;
    print (MsgLimitCount c)
  else
    print MsgAllOrdersCanceled.

(** Final verification. *)
Definition final_verification : M W unit :=
  print MsgFinalVerification ;;
  positions <- fetch_open_positions exchange ;;
  trigger_orders <- fetch_open_trigger_orders exchange JNull ;;
  tpsl_orders <- fetch_open_tpsl_orders exchange JNull ;;
  limit_orders <- fetch_open_limit_orders exchange JNull ;;
  report_positions positions ;;
  report_orders trigger_orders tpsl_orders limit_orders.

(** The block under [async with]. *)
Definition main_body : M W unit :=
  step1_close_positions ;;
  step2_cancel_trigger_orders ;;
  step3_cancel_tpsl_orders ;;
  step4_cancel_limit_orders ;;
  final_verification.

End Main.

Definition main {W} (ccxt_new : dict -> ccxt_bitget W) (ACCOUNTS : json)
  : M W unit :=
  let product_type := "USDT-FUTURES" in
  print MsgStarting ;;
  try_except
    (api_setup <- get_bitget_api_credentials ACCOUNTS ;;
     let mgr := BitgetExchange_init ccxt_new api_setup product_type in
     async_with (aenter mgr) (aexit mgr) main_body)
    (fun e => print (MsgError (str e))) ;;
  print MsgCompleted.

(** ** Reading a trace *)

(** The client calls of a trace, in order. *)
Definition calls (t : list event) : list request :=
  flat_map (fun ev => match ev with ECall r => [r] | _ => [] end) t.

(** The delays slept, in order. *)
Definition sleeps (t : list event) : list Z :=
  flat_map (fun ev => match ev with ESleep d => [d] | _ => [] end) t.

(** The lines printed, in order. *)
Definition prints (t : list event) : list message :=
  flat_map (fun ev => match ev with EPrint m => [m] | _ => [] end) t.

Definition sum (l : list Z) : Z := fold_right Z.add 0 l.

(** ** Scripted clients, for concrete runs *)

(** A client over the world [nat], the number of calls answered so far,
    each of whose methods is given by a function of that number. *)
Definition step {A} (f : nat -> result A) : nat -> result A * nat :=
  fun w => (f w, S w).

Definition rate_limited {A} : nat -> result A :=
  fun _ => Raise (RateLimitExceeded "429 Too Many Requests").

(** The payload Bitget answers with when it throttles a request. *)
Definition too_many_requests : exn :=
  Exception (CODE_429 ++ "," ++ quote ++ "msg" ++ quote ++ ":" ++ quote
             ++ "Too Many Requests" ++ quote ++ "}").

(** Throttled on the first two calls, answering from the third on. *)
Definition limited_twice : nat -> result unit :=
  fun n => if (n <? 2)%nat then Raise too_many_requests else Ok tt.

Definition invalid_symbol {A} : nat -> result A :=
  fun _ => Raise (Exception "bitget does not have market symbol XYZ").

Definition start : state nat := {| world := 0%nat; trace := [] |}.

(** ** Remote operations that are rate limited *)

(** [op] raises a rate-limit error [k] times in a row from the world [w],
    then returns [v] and leaves the world [w']. *)
Fixpoint rate_limited_then_ok {W A} (op : W -> result A * W) (k : nat)
    (w : W) (v : A) (w' : W) : Prop :=
  match k with
  | O => op w = (Ok v, w')
  | S k' => exists e w1, op w = (Raise e, w1) /\ is_rate_limit e = true /\
                         rate_limited_then_ok op k' w1 v w'
  end.

(** [op] raises a rate-limit error whenever it is called. *)
Definition always_rate_limit {W A} (op : W -> result A * W) : Prop :=
  forall w, exists e w', op w = (Raise e, w') /\ is_rate_limit e = true.

(** The delays [D * 2^j, ..., D * 2^(j+n-1)]. *)
Definition backoff_delays (D : Z) (j n : nat) : list Z :=
  map (fun i => D * 2 ^ i) (map Z.of_nat (seq j n)).

(** What the wrapper adds to the trace when [n] attempts numbered from [j]
    are rate limited and one more attempt follows: each failed attempt is
    followed by a printed line and a sleep. *)
Fixpoint retry_trace (N D : Z) (r : request) (j n : nat) : list event :=
  match n with
  | O => [ECall r]
  | S n' =>
      ECall r
      :: EPrint (MsgRateLimitHit (Z.of_nat j + 1) N (D * 2 ^ Z.of_nat j))
      :: ESleep (D * 2 ^ Z.of_nat j)
      :: retry_trace N D r (S j) n'
  end.

(** Whatever state it starts in, [m] only appends to the trace, and every
    event it appends satisfies [P]. *)
Definition emits {W A} (P : event -> Prop) (m : M W A) : Prop :=
  forall s, exists t, trace (snd (m s)) = (trace s ++ t)%list /\ Forall P t.

(** Events other than a call of the client's [close]. *)
Definition not_close (ev : event) : Prop := ev <> ECall close_req.

(** Events other than the line that opens the final verification. *)
Definition before_verification (ev : event) : Prop :=
  ev <> EPrint MsgFinalVerification.

(** The content of [secret.ACCOUNTS] in the concrete runs. *)
Definition valid_accounts : json :=
  JDict [("bitget1", JDict [("public_api", JStr "key");
                            ("secret_api", JStr "secret");
                            ("password", JStr "pass")])].

(** A client built from one script per method. *)
Definition scripted
    (close : nat -> result unit)
    (load_markets : nat -> result json)
    (fetch_positions : nat -> result (list position))
    (close_position : string -> string -> nat -> result unit)
    (plan_pending : dict -> nat -> result json)
    (pending : nat -> result json)
    (cancel_plan_order : dict -> nat -> result json)
    (cancel_order : dict -> nat -> result json)
  : dict -> ccxt_bitget nat :=
  fun _ =>
    {| ccxt_close := step close;
       ccxt_load_markets := step load_markets;
       ccxt_fetch_positions := fun _ => step fetch_positions;
       ccxt_close_position := fun symbol side => step (close_position symbol side);
       private_mix_get_v2_mix_order_orders_plan_pending := fun params => step (plan_pending params);
       private_mix_get_v2_mix_order_orders_pending := fun _ => step pending;
       private_mix_post_v2_mix_order_cancel_plan_order := fun params => step (cancel_plan_order params);
       private_mix_post_v2_mix_order_cancel_order := fun params => step (cancel_order params) |}.

Definition answer {A} (v : A) : nat -> result A := fun _ => Ok v.

(** The answer of a pending-orders endpoint that lists [orders]. *)
Definition entrusted (orders : list json) : json :=
  JDict [("code", JStr "00000");
         ("data", JDict [("entrustedList", JList orders)])].

(** An account with nothing open, behind a client that always answers. *)
Definition flat_account : dict -> ccxt_bitget nat :=
  scripted (answer tt) (answer (JDict [])) (answer [])
    (fun _ _ => answer tt) (fun _ => answer (entrusted []))
    (answer (entrusted [])) (fun _ => answer JNull) (fun _ => answer JNull).

(** The same, but loading the market metadata fails. *)
Definition markets_down : dict -> ccxt_bitget nat :=
  scripted (answer tt) (fun _ => Raise (Exception "bitget GET markets: connection reset"))
    (answer [])
    (fun _ _ => answer tt) (fun _ => answer (entrusted []))
    (answer (entrusted [])) (fun _ => answer JNull) (fun _ => answer JNull).

(** The state after one more printed line. *)
Definition printed {W} (m : message) (s : state W) : state W :=
  {| world := world s; trace := trace s ++ [EPrint m] |}.

(** What [main] prints once the session is released: the error report when
    the block or the release raised, then the closing line. *)
Definition main_tail (body : result unit) (release : result (option unit))
  : list event :=
  match release, body with
  | Raise e', _ => [EPrint (MsgError (str e')); EPrint MsgCompleted]
  | Ok _, Raise e => [EPrint (MsgError (str e)); EPrint MsgCompleted]
  | Ok _, Ok _ => [EPrint MsgCompleted]
  end.

(** A stage-level failure: from the state [s2] in which the block under
    [async with] starts, the fetch of the positions, of the trigger orders
    or of the TP/SL orders raises [e] and leaves the state [sb]; the steps
    before it have completed. *)
Inductive stage_fetch_fails {W} (exchange : BitgetExchange W)
    (s2 : state W) (e : exn) (sb : state W) : Prop :=
| positions_fetch_fails :
    fetch_open_positions exchange (printed MsgFetchingPositions s2) = (Raise e, sb) ->
    stage_fetch_fails exchange s2 e sb
| trigger_fetch_fails (sA : state W) :
    step1_close_positions exchange s2 = (Ok tt, sA) ->
    fetch_open_trigger_orders exchange JNull (printed MsgFetchingTrigger sA) = (Raise e, sb) ->
    stage_fetch_fails exchange s2 e sb
| tpsl_fetch_fails (sA sB : state W) :
    step1_close_positions exchange s2 = (Ok tt, sA) ->
    step2_cancel_trigger_orders exchange sA = (Ok tt, sB) ->
    fetch_open_tpsl_orders exchange JNull (printed MsgFetchingTpsl sB) = (Raise e, sb) ->
    stage_fetch_fails exchange s2 e sb.

(** The account of [flat_account], but fetching the positions fails. *)
Definition positions_down : dict -> ccxt_bitget nat :=
  scripted (answer tt) (answer (JDict []))
    (fun _ => Raise (Exception "bitget GET positions: 40037 apikey does not exist"))
    (fun _ _ => answer tt) (fun _ => answer (entrusted []))
    (answer (entrusted [])) (fun _ => answer JNull) (fun _ => answer JNull).

(** Events that are not a client call, or are a query of the pending plan
    orders whose [planType] is [v]. *)
Definition plan_type_is (v : string) (ev : event) : Prop :=
  match ev with
  | ECall (orders_plan_pending_req params) => lookup "planType" params = Some (JStr v)
  | ECall _ => False
  | _ => True
  end.

(** The session behind the [BitgetExchange] that [main] builds. *)
Definition usdt_futures (ccxt_new : dict -> ccxt_bitget nat) : BitgetExchange nat :=
  BitgetExchange_init ccxt_new
    [("apiKey", JStr "key"); ("secret", JStr "secret"); ("password", JStr "pass")]
    "USDT-FUTURES".

(** An order whose [orderType] is ["limit"]. *)
Definition is_limit_order (order : json) : Prop :=
  py_get order "orderType" JNull = Ok (JStr "limit").

(** The account of [flat_account], whose pending-orders endpoints throttle
    every request. *)
Definition orders_throttled : dict -> ccxt_bitget nat :=
  scripted (answer tt) (answer (JDict [])) (answer [])
    (fun _ _ => answer tt) (fun _ _ => Raise too_many_requests)
    (fun _ => Raise too_many_requests)
    (fun _ => answer JNull) (fun _ => answer JNull).

(** Events that are not a client call, or are a call of the plan-order
    cancel endpoint, the one behind [cancel_trigger_order]. *)
Definition cancels_by_plan (ev : event) : Prop :=
  match ev with
  | ECall (cancel_plan_order_req _) => True
  | ECall _ => False
  | _ => True
  end.

(** A TP/SL order as the endpoint lists it. *)
Definition tpsl_order : json :=
  JDict [("symbol", JStr "BTCUSDT"); ("orderId", JStr "TPSL-1");
         ("planType", JStr "profit_plan")].

(** The line that reports the result [r] of closing [p]. *)
Definition close_outcome (p : position) (r : result (option unit)) : message :=
  match r with
  | Ok _ => MsgClosed (side p) (symbol p) (contracts p)
  | Raise e => MsgErrorClosing (symbol p) (str e) p
  end.

(** The turn of the position [p] in the closing loop, from the state [s] to
    the state [s']: the opening line is printed, the decorated close of [p]
    runs, its first event being the client's call for the symbol and side
    of [p], and the last line printed reports the result [r] of that very
    close: closed when it returned, the error's text when it raised.  When
    the client answers the first call, or raises there an error that is not
    a rate limit, that call is the only one, and the line says closed in
    the first case and carries the wrapped error of the client in the
    second. *)
Definition close_turn {W} (exchange : BitgetExchange W) (p : position)
    (s s' : state W) : Prop :=
  exists r s1 u,
    flash_close_position exchange (symbol p) (side p)
      (printed (MsgClosingPosition p) s) = (r, s1)
    /\ trace s1 = (trace s ++ EPrint (MsgClosingPosition p)
                  :: ECall (close_position_req (symbol p) (side p)) :: u)%list
    /\ s' = printed (close_outcome p r) s1
    /\ match ccxt_close_position (_exchange exchange) (symbol p) (side p)
               (world s) with
       | (Ok _, w') => r = Ok (Some tt) /\ u = [] /\ world s1 = w'
       | (Raise e, w') =>
           is_rate_limit e = false ->
           r = Raise (operation_failed e) /\ u = [] /\ world s1 = w'
       end.

(** The turns of the positions [ps], one after the other, from [s] to
    [s']. *)
Fixpoint closing_turns {W} (exchange : BitgetExchange W) (ps : list position)
    (s s' : state W) : Prop :=
  match ps with
  | [] => s' = s
  | p :: ps' => exists s1, close_turn exchange p s s1
                           /\ closing_turns exchange ps' s1 s'
  end.

(** The lines of the final report that list the positions still open. *)
Definition position_lines (ps : list position) : list event :=
  map (fun p => EPrint (MsgPositionLine (symbol p) (side p) (contracts p))) ps.

(** Closing [p] fails, whenever it is tried, with an error that is not a
    rate-limit error. *)
Definition close_always_fails {W} (exchange : BitgetExchange W) (p : position)
  : Prop :=
  forall w, exists e w',
    ccxt_close_position (_exchange exchange) (symbol p) (side p) w = (Raise e, w')
    /\ is_rate_limit e = false.

Definition btc_long : position :=
  {| symbol := "BTC/USDT:USDT"; side := "long"; contracts := Some 2%Q |}.

Definition eth_short : position :=
  {| symbol := "ETH/USDT:USDT"; side := "short"; contracts := Some (3 # 2)%Q |}.

Definition sol_long : position :=
  {| symbol := "SOL/USDT:USDT"; side := "long"; contracts := Some 10%Q |}.

(** Three open positions and no order.  Closing the second position always
    fails; later fetches find it still open, alone. *)
Definition eth_stuck : dict -> ccxt_bitget nat :=
  scripted (answer tt) (answer (JDict []))
    (fun n => Ok (if (n <? 1)%nat then [btc_long; eth_short; sol_long]
                  else [eth_short]))
    (fun symbol _ =>
       if String.eqb symbol "ETH/USDT:USDT"
       then fun _ => Raise (Exception "bitget 22002 No position to close")
       else answer tt)
    (fun _ => answer (entrusted []))
    (answer (entrusted [])) (fun _ => answer JNull) (fun _ => answer JNull).

(** A contract size above zero. *)
Definition positive_contracts (p : position) : Prop :=
  exists c, contracts p = Some c /\ (0 < c)%Q.

(** An account whose positions endpoint lists an open position, a closed
    one and one without a size. *)
Definition mixed_positions : dict -> ccxt_bitget nat :=
  scripted (answer tt) (answer (JDict []))
    (answer [btc_long;
             {| symbol := "ETH/USDT:USDT"; side := "short"; contracts := Some 0%Q |};
             {| symbol := "SOL/USDT:USDT"; side := "long"; contracts := None |}])
    (fun _ _ => answer tt) (fun _ => answer (entrusted []))
    (answer (entrusted [])) (fun _ => answer JNull) (fun _ => answer JNull).

(** Events that are not a client call, or are a call of [load_markets]. *)
Definition only_load_markets (ev : event) : Prop :=
  match ev with
  | ECall load_markets_req => True
  | ECall _ => False
  | _ => True
  end.

(** The shape the bodies of the three cancel loops share: the method that
    cancels, the line printed when it returns and the line printed when it
    raises. *)
Definition cancel_item {W} (cancel : json -> json -> M W (option unit))
    (done : json -> json -> message) (failed : json -> string -> message)
    (order : json) : M W unit :=
  symbol <- lift (py_getitem order "symbol") ;;
  order_id <- lift (py_getitem order "orderId") ;;
  try_except
    (cancel symbol order_id ;; print (done order_id symbol))
    (fun e => print (failed order_id (str e))).

(** The order id of a line that reports the outcome of a cancel. *)
Definition outcome_id (m : message) : list json :=
  match m with
  | MsgCanceledTrigger order_id _ | MsgErrorCancelTrigger order_id _
  | MsgCanceledTpsl order_id _ | MsgErrorCancelTpsl order_id _
  | MsgCanceledLimit order_id _ | MsgErrorCancelLimit order_id _ => [order_id]
  | _ => []
  end.

(** The order ids of the outcome lines of a trace, in order. *)
Definition outcome_ids (t : list event) : list json :=
  flat_map outcome_id (prints t).

Definition no_outcome (ev : event) : Prop :=
  match ev with
  | EPrint m => outcome_id m = []
  | _ => True
  end.

(** An order that has the two keys the loops read. *)
Definition has_symbol_and_id (order : json) : Prop :=
  exists symbol order_id,
    py_getitem order "symbol" = Ok symbol
    /\ py_getitem order "orderId" = Ok order_id.

(** An order misses one of the two keys: reading it raises [e]. *)
Definition key_lookup_fails (order : json) (e : exn) : Prop :=
  py_getitem order "symbol" = Raise e
  \/ (exists symbol, py_getitem order "symbol" = Ok symbol
                     /\ py_getitem order "orderId" = Raise e).

(** Events that are not a client call, or are a call of the order cancel
    endpoint, the one behind [cancel_limit_order]. *)
Definition cancels_by_order (ev : event) : Prop :=
  match ev with
  | ECall (cancel_order_req _) => True
  | ECall _ => False
  | _ => True
  end.

Definition limit_order : json :=
  JDict [("symbol", JStr "ETHUSDT"); ("orderId", JStr "L1");
         ("orderType", JStr "limit")].

(** Events that are not a client call, or are one of the three queries. *)
Definition only_fetches (ev : event) : Prop :=
  match ev with
  | ECall (fetch_positions_req _) | ECall (orders_plan_pending_req _)
  | ECall (orders_pending_req _) => True
  | ECall _ => False
  | _ => True
  end.

(** Events that are not a client call, or are the query of the positions
    or the close of a position. *)
Definition position_stage (ev : event) : Prop :=
  match ev with
  | ECall (fetch_positions_req _) | ECall (close_position_req _ _) => True
  | ECall _ => False
  | _ => True
  end.

(** Events other than the close of a position. *)
Definition no_position_close (ev : event) : Prop :=
  match ev with
  | ECall (close_position_req _ _) => False
  | _ => True
  end.

(** An order whose symbol came back as [null]. *)
Definition null_symbol_order : json :=
  JDict [("symbol", JNull); ("orderId", JStr "T9")].

(** Events that are not a client call, or are one of the two calls of the
    TP/SL stage: the query of the pending plan orders of type
    ["profit_loss"], and the plan-order cancel behind
    [cancel_trigger_order]. *)
Definition tpsl_stage (ev : event) : Prop :=
  match ev with
  | ECall (orders_plan_pending_req params) =>
      lookup "planType" params = Some (JStr "profit_loss")
  | ECall (cancel_plan_order_req _) => True
  | ECall _ => False
  | _ => True
  end.

(** [params] are the parameters of the cancel of [order]: the product type
    and the margin coin of the session, the symbol of the order as
    [_format_symbol] writes it, and the id of the order. *)
Definition cancel_params_of {W} (exchange : BitgetExchange W) (order : json)
    (params : dict) : Prop :=
  exists symbol order_id fs,
    py_getitem order "symbol" = Ok symbol
    /\ py_getitem order "orderId" = Ok order_id
    /\ _format_symbol symbol = Ok fs
    /\ params = cancel_params exchange fs order_id.

(** The account of [flat_account] with one TP/SL order pending. *)
Definition one_tpsl_order : dict -> ccxt_bitget nat :=
  scripted (answer tt) (answer (JDict [])) (answer [])
    (fun _ _ => answer tt)
    (fun params =>
       answer (match lookup "planType" params with
               | Some plan_type =>
                   if eq_str plan_type "profit_loss" then entrusted [tpsl_order]
                   else entrusted []
               | None => entrusted []
               end))
    (answer (entrusted [])) (fun _ => answer JNull) (fun _ => answer JNull).

(** The turn of [order] in a cancel loop, from [s] to [s']: the order has
    a symbol and an id, the cancel method runs on them, and the one line
    printed after it reports the result of that very cancel, the line for
    a cancel that returned or the line with the error's text. *)
Definition cancel_turn {W} (cancel : json -> json -> M W (option unit))
    (done : json -> json -> message) (failed : json -> string -> message)
    (order : json) (s s' : state W) : Prop :=
  exists symbol order_id r s1,
    py_getitem order "symbol" = Ok symbol
    /\ py_getitem order "orderId" = Ok order_id
    /\ cancel symbol order_id s = (r, s1)
    /\ s' = printed (match r with
                     | Ok _ => done order_id symbol
                     | Raise e => failed order_id (str e)
                     end) s1.

(** The turns of the orders [items], one after the other, from [s] to
    [s']. *)
Fixpoint cancel_turns {W} (cancel : json -> json -> M W (option unit))
    (done : json -> json -> message) (failed : json -> string -> message)
    (items : list json) (s s' : state W) : Prop :=
  match items with
  | [] => s' = s
  | order :: rest =>
      exists s1, cancel_turn cancel done failed order s s1
                 /\ cancel_turns cancel done failed rest s1 s'
  end.

(** * Properties *)

Open Scope list_scope.

(** ** Traces *)

Lemma calls_app (t u : list event) : calls (t ++ u) = calls t ++ calls u.
Proof. apply flat_map_app. Qed.

Lemma sleeps_app (t u : list event) : sleeps (t ++ u) = sleeps t ++ sleeps u.
Proof. apply flat_map_app. Qed.

Lemma prints_app (t u : list event) : prints (t ++ u) = prints t ++ prints u.
Proof. apply flat_map_app. Qed.

Lemma range_pos (n : Z) :
  1 <= n -> range n = 0 :: map Z.of_nat (seq 1 (Z.to_nat n - 1)).
Proof.
  intros Hn. unfold range.
  replace (Z.to_nat n) with (S (Z.to_nat n - 1)) at 1 by lia.
  reflexivity.
Qed.

Lemma operation_failed_not_rate_limit (e : exn) :
  is_rate_limit (operation_failed e) = false.
Proof. reflexivity. Qed.

(** ** The retry decorator *)

Section RetryFacts.

Context {W A : Type}.
Variables (N D : Z).

(** One attempt that raises a rate-limit error before the last attempt:
    the wrapper prints, sleeps and goes on with the remaining attempts. *)
Lemma wrapper_loop_backoff (func : M W A) attempt rest s e s1 :
  func s = (Raise e, s1) ->
  is_rate_limit e = true ->
  attempt < N - 1 ->
  wrapper_loop N D func (attempt :: rest) s =
  wrapper_loop N D func rest
    {| world := world s1;
       trace := trace s1 ++ [EPrint (MsgRateLimitHit (attempt + 1) N (D * 2 ^ attempt));
                             ESleep (D * 2 ^ attempt)] |}.
Proof.
  intros Hf He Hlt. simpl. unfold try_except, bind at 1. rewrite Hf, He.
  apply Z.ltb_lt in Hlt. rewrite Hlt. simpl.
  unfold bind, print, sleep, emit. simpl.
  rewrite <- app_assoc. reflexivity.
Qed.

(** One attempt that raises anything else, or a rate-limit error on the
    last attempt: the wrapper raises the wrapped error at once. *)
Lemma wrapper_loop_fatal (func : M W A) attempt rest s e s1 :
  func s = (Raise e, s1) ->
  is_rate_limit e = false \/ N - 1 <= attempt ->
  wrapper_loop N D func (attempt :: rest) s = (Raise (operation_failed e), s1).
Proof.
  intros Hf Hc. simpl. unfold try_except, bind at 1. rewrite Hf.
  destruct Hc as [He | Hge].
  - rewrite He. reflexivity.
  - apply Z.ltb_ge in Hge. rewrite Hge, andb_false_r. reflexivity.
Qed.

Lemma wrapper_loop_success (func : M W A) attempt rest s v s1 :
  func s = (Ok v, s1) ->
  wrapper_loop N D func (attempt :: rest) s = (Ok (Some v), s1).
Proof.
  intros Hf. simpl. unfold try_except, bind. rewrite Hf. reflexivity.
Qed.

End RetryFacts.

Section RetryRuns.

Context {W A : Type}.
Variables (N D : Z).
Variable r : request.
Variable op : W -> result A * W.

Lemma call_eq (w : W) (t0 : list event) :
  call r op {| world := w; trace := t0 |} =
  (fst (op w), {| world := snd (op w); trace := t0 ++ [ECall r] |}).
Proof. unfold call. simpl. destruct (op w). reflexivity. Qed.

Lemma calls_retry_trace (n j : nat) :
  calls (retry_trace N D r j n) = repeat r (S n).
Proof.
  revert j. induction n as [|n IH]; intros j; [reflexivity|].
  simpl retry_trace. cbn [calls flat_map app].
  fold (calls (retry_trace N D r (S j) n)). rewrite IH. reflexivity.
Qed.

Lemma sleeps_retry_trace (n j : nat) :
  sleeps (retry_trace N D r j n) = backoff_delays D j n.
Proof.
  revert j. induction n as [|n IH]; intros j; [reflexivity|].
  simpl retry_trace. cbn [sleeps flat_map app].
  fold (sleeps (retry_trace N D r (S j) n)). rewrite IH. reflexivity.
Qed.

Lemma wrapper_loop_always_limited :
  always_rate_limit op ->
  forall n j w t0,
    Z.of_nat (j + n) = N - 1 ->
    exists e w',
      wrapper_loop N D (call r op) (map Z.of_nat (seq j (S n)))
        {| world := w; trace := t0 |}
      = (Raise (operation_failed e),
         {| world := w'; trace := t0 ++ retry_trace N D r j n |})
      /\ is_rate_limit e = true.
Proof.
  intros Hop. induction n as [|n IH]; intros j w t0 Hj.
  - destruct (Hop w) as (e & w1 & Hw & He).
    exists e, w1. split; [|exact He].
    apply wrapper_loop_fatal.
    + rewrite call_eq, Hw. reflexivity.
    + right. lia.
  - destruct (Hop w) as (e & w1 & Hw & He).
    change (map Z.of_nat (seq j (S (S n))))
      with (Z.of_nat j :: map Z.of_nat (seq (S j) (S n))).
    erewrite wrapper_loop_backoff;
      [| rewrite call_eq, Hw; reflexivity | exact He | lia].
    simpl world. simpl trace.
    destruct (IH (S j) w1
                ((t0 ++ [ECall r]) ++
                 [EPrint (MsgRateLimitHit (Z.of_nat j + 1) N (D * 2 ^ Z.of_nat j));
                  ESleep (D * 2 ^ Z.of_nat j)]))
      as (e' & w' & Hrun & He'); [lia|].
    exists e', w'. split; [|exact He'].
    rewrite Hrun. simpl retry_trace. repeat rewrite <- app_assoc. reflexivity.
Qed.

Lemma wrapper_loop_limited_then_ok :
  forall k j n w v w' t0,
    (k < n)%nat ->
    Z.of_nat (j + k) < N ->
    rate_limited_then_ok op k w v w' ->
    wrapper_loop N D (call r op) (map Z.of_nat (seq j n))
      {| world := w; trace := t0 |}
    = (Ok (Some v), {| world := w'; trace := t0 ++ retry_trace N D r j k |}).
Proof.
  induction k as [|k IH]; intros j n w v w' t0 Hn Hj Hk;
    destruct n as [|n]; try lia; simpl in Hk.
  - change (map Z.of_nat (seq j (S n)))
      with (Z.of_nat j :: map Z.of_nat (seq (S j) n)).
    apply wrapper_loop_success. rewrite call_eq, Hk. reflexivity.
  - destruct Hk as (e & w1 & Hw & He & Hk).
    change (map Z.of_nat (seq j (S n)))
      with (Z.of_nat j :: map Z.of_nat (seq (S j) n)).
    erewrite wrapper_loop_backoff;
      [| rewrite call_eq, Hw; reflexivity | exact He | lia].
    simpl world. simpl trace.
    rewrite (IH (S j) n w1 v w'); [|lia|lia|exact Hk].
    simpl retry_trace. repeat rewrite <- app_assoc. reflexivity.
Qed.

End RetryRuns.

Lemma sum_backoff_delays (D : Z) (k j : nat) :
  sum (backoff_delays D j k) = D * 2 ^ Z.of_nat j * (2 ^ Z.of_nat k - 1).
Proof.
  revert j. induction k as [|k IH]; intros j.
  - simpl. lia.
  - unfold backoff_delays in *. simpl seq. simpl map. simpl sum.
    rewrite IH.
    replace (Z.of_nat (S j)) with (Z.of_nat j + 1) by lia.
    replace (Z.of_nat (S k)) with (Z.of_nat k + 1) by lia.
    rewrite !Z.pow_add_r by lia. lia.
Qed.

(** ** Claims on the retry decorator *)

Section RetryClaims.

Context {W A : Type}.

(** C1, as amended: for every max-attempt value [N >= 1] and base delay [D],
    a remote operation that raises a rate-limit error on every attempt is
    attempted exactly [N] times, the wrapper sleeps [D*2^0, ..., D*2^(N-2)]
    between the attempts (one sleep after each attempt but the last), and
    then raises the wrapped "operation failed" error. *)
Theorem retry_always_rate_limited (N D : Z) (r : request)
    (op : W -> result A * W) (w : W) (t0 : list event) :
  1 <= N ->
  always_rate_limit op ->
  exists e w',
    let t := retry_trace N D r 0 (Z.to_nat N - 1) in
    retry_async N D (call r op) {| world := w; trace := t0 |}
    = (Raise (operation_failed e), {| world := w'; trace := t0 ++ t |})
    /\ is_rate_limit e = true
    /\ calls t = repeat r (Z.to_nat N)
    /\ sleeps t = map (fun i => D * 2 ^ i) (range (N - 1)).
Proof.
  intros HN Hop.
  destruct (wrapper_loop_always_limited N D r op Hop (Z.to_nat N - 1) 0 w t0)
    as (e & w' & Hrun & He); [lia|].
  exists e, w'. cbv zeta. split; [|split; [exact He|split]].
  - unfold retry_async, range.
    replace (seq 0 (Z.to_nat N)) with (seq 0 (S (Z.to_nat N - 1)))
      by (f_equal; lia).
    exact Hrun.
  - rewrite calls_retry_trace. f_equal. lia.
  - rewrite sleeps_retry_trace. unfold backoff_delays, range.
    do 3 f_equal. lia.
Qed.

(** C8: a wrapped operation whose first attempt raises an error that is not
    a rate-limit error is not retried: the wrapper raises at once the one
    "operation failed" exception, whose text carries the original error's
    description, and the state it leaves is the state right after that
    first attempt, so that nothing was slept and the operation was not
    invoked again. *)
Theorem retry_other_error_not_retried (N D : Z) (func : M W A)
    (s s1 : state W) (e : exn) :
  1 <= N ->
  func s = (Raise e, s1) ->
  is_rate_limit e = false ->
  retry_async N D func s = (Raise (operation_failed e), s1)
  /\ operation_failed e
     = Exception ("BitgetExchange operation failed: " ++ str e)%string.
Proof.
  intros HN Hf He. split; [|reflexivity].
  unfold retry_async. rewrite range_pos by exact HN.
  apply wrapper_loop_fatal; [exact Hf | left; exact He].
Qed.

(** C9: for every [k < N], a remote operation that raises a rate-limit
    error on attempts 1..k and succeeds on attempt k+1 makes the wrapper
    return the operation's value without an error, after k+1 attempts and
    sleeps that add up to exactly [D * (2^k - 1)]. *)
Theorem retry_succeeds_after_k (N D : Z) (r : request)
    (op : W -> result A * W) (k : nat) (w w' : W) (v : A) (t0 : list event) :
  Z.of_nat k < N ->
  rate_limited_then_ok op k w v w' ->
  let t := retry_trace N D r 0 k in
  retry_async N D (call r op) {| world := w; trace := t0 |}
  = (Ok (Some v), {| world := w'; trace := t0 ++ t |})
  /\ calls t = repeat r (S k)
  /\ sleeps t = map (fun i => D * 2 ^ i) (range (Z.of_nat k))
  /\ sum (sleeps t) = D * (2 ^ Z.of_nat k - 1).
Proof.
  intros Hk Hop t. subst t. split; [|split; [|split]].
  - unfold retry_async, range.
    apply wrapper_loop_limited_then_ok; [lia | lia | exact Hop].
  - apply calls_retry_trace.
  - rewrite sleeps_retry_trace. unfold backoff_delays, range.
    rewrite Nat2Z.id. reflexivity.
  - rewrite sleeps_retry_trace, sum_backoff_delays. simpl (2 ^ Z.of_nat 0). lia.
Qed.

End RetryClaims.

Lemma retry_always_rate_limited_witness :
  1 <= 5 /\ always_rate_limit (step (@rate_limited unit)) /\
  exists e w',
    let t := retry_trace 5 1 close_req 0 (Z.to_nat 5 - 1) in
    retry_async 5 1 (call close_req (step (@rate_limited unit))) start
    = (Raise (operation_failed e), {| world := w'; trace := [] ++ t |})
    /\ is_rate_limit e = true
    /\ calls t = repeat close_req (Z.to_nat 5)
    /\ sleeps t = map (fun i => 1 * 2 ^ i) (range (5 - 1)).
Proof.
  assert (H : always_rate_limit (step (@rate_limited unit))).
  { intros w. exists (RateLimitExceeded "429 Too Many Requests"), (S w).
    split; reflexivity. }
  split; [lia|]. split; [exact H|].
  apply (retry_always_rate_limited 5 1 close_req (step (@rate_limited unit))
           0%nat []);
    [lia | exact H].
Defined.

(** C1 as stated fails at the max-attempt value 0: the loop has no
    iteration, the operation is never attempted and the wrapper returns
    [None] instead of raising. *)
Lemma retry_zero_attempts_counterexample :
  always_rate_limit (step (@rate_limited unit)) /\
  retry_async 0 1 (call close_req (step (@rate_limited unit))) start
  = (Ok None, start) /\
  ~ (exists e s',
       retry_async 0 1 (call close_req (step (@rate_limited unit))) start
       = (Raise e, s')).
Proof.
  split; [|split].
  - intros w. exists (RateLimitExceeded "429 Too Many Requests"), (S w).
    split; reflexivity.
  - reflexivity.
  - intros (e & s' & H). discriminate H.
Qed.

Lemma retry_other_error_not_retried_witness :
  1 <= 5 /\
  call close_req (step (@invalid_symbol unit)) start
  = (Raise (Exception "bitget does not have market symbol XYZ"),
     {| world := 1%nat; trace := [ECall close_req] |}) /\
  retry_async 5 1 (call close_req (step (@invalid_symbol unit))) start
  = (Raise (operation_failed (Exception "bitget does not have market symbol XYZ")),
     {| world := 1%nat; trace := [ECall close_req] |}).
Proof.
  split; [lia|]. split; [reflexivity|].
  apply (retry_other_error_not_retried 5 1
           (call close_req (step (@invalid_symbol unit))) start
           {| world := 1%nat; trace := [ECall close_req] |}
           (Exception "bitget does not have market symbol XYZ"));
    [lia | reflexivity | reflexivity].
Defined.

Lemma retry_succeeds_after_k_witness :
  Z.of_nat 2 < 5 /\
  rate_limited_then_ok (step limited_twice) 2 0%nat tt 3%nat /\
  retry_async 5 1 (call load_markets_req (step limited_twice)) start
  = (Ok (Some tt),
     {| world := 3%nat;
        trace := [ECall load_markets_req; EPrint (MsgRateLimitHit 1 5 1); ESleep 1;
                  ECall load_markets_req; EPrint (MsgRateLimitHit 2 5 2); ESleep 2;
                  ECall load_markets_req] |}) /\
  sum (sleeps (retry_trace 5 1 load_markets_req 0 2)) = 1 * (2 ^ Z.of_nat 2 - 1).
Proof.
  assert (H : rate_limited_then_ok (step limited_twice) 2 0%nat tt 3%nat).
  { exists too_many_requests, 1%nat. split; [reflexivity|]. split; [reflexivity|].
    exists too_many_requests, 2%nat. split; [reflexivity|]. split; reflexivity. }
  split; [lia|]. split; [exact H|].
  destruct (retry_succeeds_after_k 5 1 load_markets_req (step limited_twice)
              2 0%nat 3%nat tt [] ltac:(lia) H) as (Hrun & _ & _ & Hsum).
  split; [exact Hrun | exact Hsum].
Defined.

(** ** What a computation may append to the trace *)

Section Emits.

Context {W : Type}.
Variable P : event -> Prop.

Lemma emits_ret {A} (v : A) : emits P (@ret W A v).
Proof. intros s. exists []. rewrite app_nil_r. split; [reflexivity|constructor]. Qed.

Lemma emits_raise {A} (e : exn) : emits P (@raise W A e).
Proof. intros s. exists []. rewrite app_nil_r. split; [reflexivity|constructor]. Qed.

Lemma emits_lift {A} (r : result A) : emits P (@lift W A r).
Proof. destruct r; [apply emits_ret | apply emits_raise]. Qed.

Lemma emits_emit (ev : event) : P ev -> emits P (@emit W ev).
Proof. intros H s. exists [ev]. split; [reflexivity|]. repeat constructor. exact H. Qed.

Lemma emits_call {A} (r : request) (op : W -> result A * W) :
  P (ECall r) -> emits P (call r op).
Proof.
  intros H s. exists [ECall r]. unfold call. destruct (op (world s)).
  split; [reflexivity|]. repeat constructor. exact H.
Qed.

Lemma emits_bind {A B} (m : M W A) (k : A -> M W B) :
  emits P m -> (forall x, emits P (k x)) -> emits P (bind m k).
Proof.
  intros Hm Hk s. unfold bind. destruct (Hm s) as (t & Ht & HP).
  destruct (m s) as [[v|e] s1]; simpl in Ht.
  - destruct (Hk v s1) as (u & Hu & HQ). exists (t ++ u).
    rewrite Hu, Ht, app_assoc. split; [reflexivity|]. apply Forall_app; auto.
  - exists t. auto.
Qed.

Lemma emits_bind_lift {A B} (r : result A) (k : A -> M W B) :
  (forall v, r = Ok v -> emits P (k v)) -> emits P (bind (lift r) k).
Proof.
  intros Hk. destruct r as [v|e].
  - exact (Hk v eq_refl).
  - apply emits_raise.
Qed.

Lemma emits_try_except {A} (m : M W A) (h : exn -> M W A) :
  emits P m -> (forall e, emits P (h e)) -> emits P (try_except m h).
Proof.
  intros Hm Hh s. unfold try_except. destruct (Hm s) as (t & Ht & HP).
  destruct (m s) as [[v|e] s1]; simpl in Ht.
  - exists t. auto.
  - destruct (Hh e s1) as (u & Hu & HQ). exists (t ++ u).
    rewrite Hu, Ht, app_assoc. split; [reflexivity|]. apply Forall_app; auto.
Qed.

Lemma emits_for_each {A} (xs : list A) (body : A -> M W unit) :
  (forall x, emits P (body x)) -> emits P (for_each xs body).
Proof.
  intros Hb. induction xs as [|x xs IH]; simpl.
  - apply emits_ret.
  - apply emits_bind; [apply Hb | intros _; exact IH].
Qed.

Lemma emits_wrapper_loop {A} (N D : Z) (func : M W A) (attempts : list Z) :
  emits P func ->
  (forall a n d, P (EPrint (MsgRateLimitHit a n d))) ->
  (forall d, P (ESleep d)) ->
  emits P (wrapper_loop N D func attempts).
Proof.
  intros Hf Hp Hs. induction attempts as [|a rest IH]; simpl.
  - apply emits_ret.
  - apply emits_try_except.
    + apply emits_bind; [exact Hf | intros v; apply emits_ret].
    + intros e. destruct (is_rate_limit e && (a <? N - 1)).
      * apply emits_bind; [apply emits_emit, Hp | intros _].
        apply emits_bind; [apply emits_emit, Hs | intros _]. exact IH.
      * apply emits_raise.
Qed.

Lemma emits_retry_async {A} (N D : Z) (func : M W A) :
  emits P func ->
  (forall a n d, P (EPrint (MsgRateLimitHit a n d))) ->
  (forall d, P (ESleep d)) ->
  emits P (retry_async N D func).
Proof. apply emits_wrapper_loop. Qed.

Lemma emits_async_with {X} (enter : M W X) (exit : M W bool)
    (body : X -> M W unit) :
  emits P enter -> emits P exit -> (forall x, emits P (body x)) ->
  emits P (async_with enter exit body).
Proof.
  intros He Hx Hb. unfold async_with. apply emits_bind; [exact He|].
  intros x s. destruct (Hb x s) as (t & Ht & HP).
  destruct (body x s) as [[v|e] s1]; simpl in Ht.
  - destruct (emits_bind exit (fun _ => ret v) Hx (fun _ => emits_ret v) s1)
      as (u & Hu & HQ).
    exists (t ++ u). rewrite Hu, Ht, app_assoc. split; [reflexivity|].
    apply Forall_app; auto.
  - destruct (Hx s1) as (u & Hu & HQ).
    exists (t ++ u).
    destruct (exit s1) as [[[|]|e'] s2]; simpl in Hu |- *;
      rewrite Hu, Ht, app_assoc; (split; [reflexivity|]); apply Forall_app; auto.
Qed.

End Emits.

Lemma emits_weaken {W A} (P Q : event -> Prop) (m : M W A) :
  (forall ev, P ev -> Q ev) -> emits P m -> emits Q m.
Proof.
  intros HPQ Hm s. destruct (Hm s) as (t & Ht & HP). exists t.
  split; [exact Ht|]. eapply Forall_impl; eauto.
Qed.

(** Peels one construct off a goal [emits P m]. *)
Ltac emits_step :=
  lazymatch goal with
  | |- emits _ (bind _ _) => apply emits_bind; [|intros ?]
  | |- emits _ (ret _) => apply emits_ret
  | |- emits _ (raise _) => apply emits_raise
  | |- emits _ (lift _) => apply emits_lift
  | |- emits _ (print _) => apply emits_emit
  | |- emits _ (sleep _) => apply emits_emit
  | |- emits _ (emit _) => apply emits_emit
  | |- emits _ (call _ _) => apply emits_call
  | |- emits _ (try_except _ _) => apply emits_try_except; [|intros ?]
  | |- emits _ (for_each _ _) => apply emits_for_each; intros ?
  | |- emits _ (retry_async _ _ _) => apply emits_retry_async; [|intros ? ? ?|intros ?]
  | |- emits _ (async_with _ _ _) => apply emits_async_with; [| |intros ?]
  | |- emits _ (let x := _ in _) => cbv zeta
  | |- emits _ (if ?b then _ else _) => destruct b
  | |- emits _ (match ?x with _ => _ end) => destruct x
  end.

(** Unfolds the methods and the steps of the program. *)
Ltac unfold_program :=
  progress unfold close, load_markets, fetch_open_positions,
    flash_close_position, fetch_open_trigger_orders, fetch_open_tpsl_orders,
    fetch_open_limit_orders, limit_orders_try, entrusted_list_of,
    cancel_trigger_order,
    cancel_limit_order, aenter, aexit, get_bitget_api_credentials,
    close_one_position, step1_close_positions, cancel_one_trigger_order,
    step2_cancel_trigger_orders, cancel_one_tpsl_order,
    step3_cancel_tpsl_orders, cancel_one_limit_order,
    step4_cancel_limit_orders, report_positions, report_orders,
    final_verification, main_body.

(** Proves [emits P m] for a piece [m] of the program, leaving the
    conditions on [P] to [side]. *)
Ltac emits_program side :=
  repeat first [emits_step | unfold_program]; side.

(** ** The calls each part of the program can make *)

Section Parts.

Context {W : Type}.
Variable self : BitgetExchange W.

Lemma main_body_not_close : emits not_close (main_body self).
Proof. emits_program ltac:(unfold not_close; discriminate). Qed.

Lemma load_markets_not_close : emits not_close (load_markets self).
Proof. emits_program ltac:(unfold not_close; discriminate). Qed.

Lemma credentials_silent (ACCOUNTS : json) :
  emits (fun _ => False) (@get_bitget_api_credentials W ACCOUNTS).
Proof. emits_program fail. Qed.

End Parts.

Lemma not_close_calls (t : list event) :
  Forall not_close t -> ~ In close_req (calls t).
Proof.
  induction 1 as [|ev t Hev _ IH]; simpl; [tauto|].
  intros Hin. apply in_app_or in Hin. destruct Hin as [Hin|Hin]; [|tauto].
  destruct ev; simpl in Hin; try tauto.
  destruct Hin as [Hin|[]]. apply Hev. congruence.
Qed.

(** One run of the wrapper around a single client call makes that call at
    least once and at most once per attempt, and exactly once when the
    first attempt does not raise a rate-limit error. *)
Lemma wrapper_loop_calls {W A} (N D : Z) (r : request)
    (op : W -> result A * W) (attempts : list Z) (s : state W) :
  attempts <> [] ->
  exists t n,
    trace (snd (wrapper_loop N D (call r op) attempts s)) = trace s ++ t
    /\ calls t = repeat r n
    /\ (1 <= n <= List.length attempts)%nat
    /\ (match fst (op (world s)) with
        | Ok _ => True
        | Raise e => is_rate_limit e = false
        end -> n = 1%nat).
Proof.
  revert s. induction attempts as [|a rest IH]; intros s Hne; [congruence|].
  destruct s as [w t0]. cbn [world].
  pose proof (call_eq r op w t0) as Hcall.
  destruct (op w) as [[v|e] w1]; cbn [fst snd] in *.
  - rewrite (wrapper_loop_success N D _ a rest _ _ _ Hcall).
    exists [ECall r], 1%nat.
    split; [reflexivity|]. split; [reflexivity|]. split; [simpl; lia|reflexivity].
  - destruct (is_rate_limit e) eqn:He; [destruct (Z.lt_ge_cases a (N - 1)) as [Hlt|Hge]|].
    + rewrite (wrapper_loop_backoff N D _ a rest _ _ _ Hcall He Hlt).
      cbn [world trace].
      destruct rest as [|a' rest'].
      * exists [ECall r; EPrint (MsgRateLimitHit (a + 1) N (D * 2 ^ a));
                ESleep (D * 2 ^ a)], 1%nat.
        split; [simpl; repeat rewrite <- app_assoc; reflexivity|].
        split; [reflexivity|]. split; [simpl; lia|reflexivity].
      * match goal with |- context [wrapper_loop N D _ _ ?s1] =>
          destruct (IH s1) as (t & n & Ht & Hcalls & Hn & _); [congruence|]
        end.
        exists ([ECall r; EPrint (MsgRateLimitHit (a + 1) N (D * 2 ^ a));
                 ESleep (D * 2 ^ a)] ++ t), (S n).
        rewrite Ht. cbn [trace List.length] in *.
        repeat rewrite <- app_assoc. split; [reflexivity|].
        split; [rewrite calls_app, Hcalls; reflexivity|].
        split; [lia|]. intros Hf. congruence.
    + rewrite (wrapper_loop_fatal N D _ a rest _ _ _ Hcall (or_intror Hge)).
      exists [ECall r], 1%nat.
      split; [reflexivity|]. split; [reflexivity|]. split; [simpl; lia|reflexivity].
    + rewrite (wrapper_loop_fatal N D _ a rest _ _ _ Hcall (or_introl He)).
      exists [ECall r], 1%nat.
      split; [reflexivity|]. split; [reflexivity|]. split; [simpl; lia|reflexivity].
Qed.

(** ** The session *)

Lemma print_eq {W} (m : message) (s : state W) :
  print m s = (Ok tt, printed m s).
Proof. reflexivity. Qed.

(** The run of [main] once the session is acquired: the block, then one
    invocation of [close] in the state the block left, then the tail. *)
Lemma main_run {W} (ccxt_new : dict -> ccxt_bitget W) (ACCOUNTS : json)
    (s0 s2 : state W) (api_setup : dict) (o : option unit) :
  let mgr := BitgetExchange_init ccxt_new api_setup "USDT-FUTURES" in
  get_bitget_api_credentials ACCOUNTS (printed MsgStarting s0)
  = (Ok api_setup, printed MsgStarting s0) ->
  load_markets mgr (printed MsgStarting s0) = (Ok o, s2) ->
  let sb := snd (main_body mgr s2) in
  trace (snd (main ccxt_new ACCOUNTS s0))
  = trace (snd (close mgr sb))
    ++ main_tail (fst (main_body mgr s2)) (fst (close mgr sb)).
Proof.
  intros mgr Hcred Hload sb.
  unfold main. cbv zeta. unfold bind at 1. rewrite print_eq.
  unfold bind at 1, try_except at 1, bind at 1.
  rewrite Hcred. fold mgr. unfold async_with, bind at 1.
  unfold aenter, bind at 1. rewrite Hload. unfold ret at 1.
  subst sb. destruct (main_body mgr s2) as [[[]|e] sb]; cbn [fst snd].
  - unfold bind at 1, aexit, bind at 1.
    destruct (close mgr sb) as [[o'|e'] sc]; cbn [fst snd main_tail]; [reflexivity|].
    rewrite print_eq, print_eq. unfold printed. cbn [trace].
    rewrite <- app_assoc. reflexivity.
  - unfold aexit, bind at 1.
    destruct (close mgr sb) as [[o'|e'] sc]; cbn [fst snd main_tail].
    + unfold ret at 1. rewrite print_eq, print_eq. unfold printed. cbn [trace].
      rewrite <- app_assoc. reflexivity.
    + rewrite print_eq, print_eq. unfold printed. cbn [trace].
      rewrite <- app_assoc. reflexivity.
Qed.

Lemma calls_main_tail (body : result unit) (release : result (option unit)) :
  calls (main_tail body release) = [].
Proof. destruct release as [?|?], body as [?|?]; reflexivity. Qed.

(** C3, as amended: in every run in which the session was acquired (the
    credentials were read and [__aenter__] loaded the market metadata), the
    wrapped [close] is invoked exactly once, in the state in which the
    block under [async with] ended, whether that block returned or raised:
    no call of the client's [close] is made before, the invocation makes
    between one and [MAX_RETRIES] such calls (one unless the first is rate
    limited), and no client call follows it.  When loading the market
    metadata raises, [close] is not called at all. *)
Theorem session_closed_once {W} (ccxt_new : dict -> ccxt_bitget W)
    (ACCOUNTS : json) (s0 : state W) (api_setup : dict) :
  let s1 := printed MsgStarting s0 in
  let mgr := BitgetExchange_init ccxt_new api_setup "USDT-FUTURES" in
  get_bitget_api_credentials ACCOUNTS s1 = (Ok api_setup, s1) ->
  (forall o s2,
     load_markets mgr s1 = (Ok o, s2) ->
     let sb := snd (main_body mgr s2) in
     exists tbefore tclose tend n,
       trace sb = trace s0 ++ tbefore
       /\ ~ In close_req (calls tbefore)
       /\ trace (snd (close mgr sb)) = trace sb ++ tclose
       /\ calls tclose = repeat close_req n
       /\ (1 <= n <= 5)%nat
       /\ (match fst (ccxt_close (_exchange mgr) (world sb)) with
           | Ok _ => True
           | Raise e => is_rate_limit e = false
           end -> n = 1%nat)
       /\ trace (snd (main ccxt_new ACCOUNTS s0)) = trace (snd (close mgr sb)) ++ tend
       /\ calls tend = [])
  /\ (forall e s2,
       load_markets mgr s1 = (Raise e, s2) ->
       exists t,
         trace (snd (main ccxt_new ACCOUNTS s0)) = trace s0 ++ t
         /\ ~ In close_req (calls t)).
Proof.
  intros s1 mgr Hcred. split.
  - intros o s2 Hload sb.
    destruct (load_markets_not_close mgr s1) as (tl & Htl & Hl).
    rewrite Hload in Htl. cbn [snd] in Htl.
    destruct (main_body_not_close mgr s2) as (tb & Htb & Hb). fold sb in Htb.
    destruct (wrapper_loop_calls MAX_RETRIES BASE_DELAY close_req
                (ccxt_close (_exchange mgr)) (range MAX_RETRIES) sb)
      as (tc & n & Htc & Hcalls & Hn & Hone); [discriminate|].
    change (wrapper_loop MAX_RETRIES BASE_DELAY
              (call close_req (ccxt_close (_exchange mgr))) (range MAX_RETRIES))
      with (close mgr) in Htc.
    exists ([EPrint MsgStarting] ++ tl ++ tb), tc,
      (main_tail (fst (main_body mgr s2)) (fst (close mgr sb))), n.
    split; [rewrite Htb, Htl; subst s1; cbn [trace printed];
            repeat rewrite <- app_assoc; reflexivity|].
    split.
    { apply not_close_calls. apply Forall_app. split;
        [repeat constructor; discriminate | apply Forall_app; auto]. }
    split; [exact Htc|]. split; [exact Hcalls|].
    split; [exact Hn|]. split; [exact Hone|].
    split; [exact (main_run ccxt_new ACCOUNTS s0 s2 api_setup o Hcred Hload)
           | apply calls_main_tail].
  - intros e s2 Hload.
    destruct (load_markets_not_close mgr s1) as (tl & Htl & Hl).
    rewrite Hload in Htl. cbn [snd] in Htl.
    exists ([EPrint MsgStarting] ++ tl ++ [EPrint (MsgError (str e)); EPrint MsgCompleted]).
    split.
    + unfold main. cbv zeta. unfold bind at 1. rewrite print_eq. fold s1.
      unfold bind at 1, try_except at 1, bind at 1.
      rewrite Hcred. fold mgr. unfold async_with, bind at 1.
      unfold aenter, bind at 1. rewrite Hload.
      rewrite print_eq, print_eq. unfold printed. cbn [snd trace].
      rewrite Htl. subst s1. cbn [trace printed].
      repeat rewrite <- app_assoc. reflexivity.
    + apply not_close_calls. apply Forall_app. split;
        [repeat constructor; discriminate|]. apply Forall_app. split; [exact Hl|].
      repeat constructor; discriminate.
Qed.

Lemma session_closed_once_witness :
  let s1 := printed MsgStarting start in
  let api := [("apiKey", JStr "key"); ("secret", JStr "secret");
              ("password", JStr "pass")] in
  get_bitget_api_credentials valid_accounts s1 = (Ok api, s1) /\
  exists tbefore tclose tend,
    trace (snd (main flat_account valid_accounts start))
    = tbefore ++ tclose ++ tend
    /\ ~ In close_req (calls tbefore)
    /\ calls tclose = [close_req]
    /\ calls tend = [].
Proof.
  intros s1 api.
  assert (Hcred : get_bitget_api_credentials valid_accounts s1 = (Ok api, s1))
    by reflexivity.
  split; [exact Hcred|].
  destruct (session_closed_once flat_account valid_accounts start api Hcred)
    as [H _].
  destruct (H (Some tt)
              {| world := 1%nat;
                 trace := [EPrint MsgStarting; ECall load_markets_req] |}
              eq_refl)
    as (tb & tc & te & n & H1 & H2 & H3 & H4 & H5 & H6 & H7 & H8).
  exists tb, tc, te. rewrite H7, H3, H1.
  split; [rewrite <- app_assoc; reflexivity|].
  split; [exact H2|]. split; [|exact H8].
  rewrite H4, H6; [reflexivity | vm_compute; exact I].
Defined.

(** C3 as stated fails when loading the market metadata raises: the run
    has entered the session acquisition, and ends without any call of the
    client's [close]. *)
Lemma close_skipped_counterexample :
  calls (trace (snd (main markets_down valid_accounts start))) = [load_markets_req]
  /\ ~ In close_req (calls (trace (snd (main markets_down valid_accounts start)))).
Proof.
  assert (H : calls (trace (snd (main markets_down valid_accounts start)))
              = [load_markets_req]) by (vm_compute; reflexivity).
  split; [exact H|]. rewrite H. intros [Hin|[]]. discriminate Hin.
Qed.

(** ** Stage-level failures *)

Lemma before_verification_prints (t : list event) :
  Forall before_verification t -> ~ In MsgFinalVerification (prints t).
Proof.
  induction 1 as [|ev t Hev _ IH]; simpl; [tauto|].
  intros Hin. apply in_app_or in Hin. destruct Hin as [Hin|Hin]; [|tauto].
  destruct ev; simpl in Hin; try tauto.
  destruct Hin as [Hin|[]]. apply Hev. congruence.
Qed.

Section StageFailure.

Context {W : Type}.
Variable exchange : BitgetExchange W.

Lemma load_markets_before_verification :
  emits before_verification (load_markets exchange).
Proof. emits_program ltac:(unfold before_verification; discriminate). Qed.

Lemma close_before_verification :
  emits before_verification (close exchange).
Proof. emits_program ltac:(unfold before_verification; discriminate). Qed.

Lemma step1_before_verification :
  emits before_verification (step1_close_positions exchange).
Proof. emits_program ltac:(unfold before_verification; discriminate). Qed.

Lemma step2_before_verification :
  emits before_verification (step2_cancel_trigger_orders exchange).
Proof. emits_program ltac:(unfold before_verification; discriminate). Qed.

Lemma fetch_positions_before_verification :
  emits before_verification (fetch_open_positions exchange).
Proof. emits_program ltac:(unfold before_verification; discriminate). Qed.

Lemma fetch_trigger_before_verification :
  emits before_verification (fetch_open_trigger_orders exchange JNull).
Proof. emits_program ltac:(unfold before_verification; discriminate). Qed.

Lemma fetch_tpsl_before_verification :
  emits before_verification (fetch_open_tpsl_orders exchange JNull).
Proof. emits_program ltac:(unfold before_verification; discriminate). Qed.

(** A failing stage fetch makes the block under [async with] raise the
    same error from the same state. *)
Lemma stage_fetch_fails_body (s2 sb : state W) (e : exn) :
  stage_fetch_fails exchange s2 e sb ->
  main_body exchange s2 = (Raise e, sb).
Proof.
  intros [H | sA H1 H | sA sB H1 H2 H]; unfold main_body.
  - unfold bind at 1. unfold step1_close_positions, bind at 1.
    rewrite print_eq. unfold bind at 1. rewrite H. reflexivity.
  - unfold bind at 1. rewrite H1. unfold bind at 1.
    unfold step2_cancel_trigger_orders, bind at 1.
    rewrite print_eq. unfold bind at 1. rewrite H. reflexivity.
  - unfold bind at 1. rewrite H1. unfold bind at 1. rewrite H2.
    unfold bind at 1. unfold step3_cancel_tpsl_orders, bind at 1.
    rewrite print_eq. unfold bind at 1. rewrite H. reflexivity.
Qed.

Lemma stage_fetch_fails_trace (s2 sb : state W) (e : exn) :
  stage_fetch_fails exchange s2 e sb ->
  exists t, trace sb = trace s2 ++ t /\ Forall before_verification t.
Proof.
  intros [H | sA H1 H | sA sB H1 H2 H].
  - destruct (fetch_positions_before_verification (printed MsgFetchingPositions s2))
      as (t & Ht & HP).
    rewrite H in Ht. cbn [snd printed trace] in Ht.
    exists ([EPrint MsgFetchingPositions] ++ t). rewrite Ht, <- app_assoc.
    split; [reflexivity|]. apply Forall_app. split; [|exact HP].
    repeat constructor. discriminate.
  - destruct (step1_before_verification s2) as (t1 & Ht1 & HP1).
    rewrite H1 in Ht1. cbn [snd] in Ht1.
    destruct (fetch_trigger_before_verification (printed MsgFetchingTrigger sA))
      as (t & Ht & HP).
    rewrite H in Ht. cbn [snd printed trace] in Ht.
    exists (t1 ++ [EPrint MsgFetchingTrigger] ++ t).
    rewrite Ht, Ht1. repeat rewrite <- app_assoc.
    split; [reflexivity|]. apply Forall_app. split; [exact HP1|].
    apply Forall_app. split; [|exact HP]. repeat constructor. discriminate.
  - destruct (step1_before_verification s2) as (t1 & Ht1 & HP1).
    rewrite H1 in Ht1. cbn [snd] in Ht1.
    destruct (step2_before_verification sA) as (t2 & Ht2 & HP2).
    rewrite H2 in Ht2. cbn [snd] in Ht2.
    destruct (fetch_tpsl_before_verification (printed MsgFetchingTpsl sB))
      as (t & Ht & HP).
    rewrite H in Ht. cbn [snd printed trace] in Ht.
    exists (t1 ++ t2 ++ [EPrint MsgFetchingTpsl] ++ t).
    rewrite Ht, Ht2, Ht1. repeat rewrite <- app_assoc.
    split; [reflexivity|]. apply Forall_app. split; [exact HP1|].
    apply Forall_app. split; [exact HP2|].
    apply Forall_app. split; [|exact HP]. repeat constructor. discriminate.
Qed.

End StageFailure.

(** C10, as amended: whenever the fetch of the positions, of the trigger
    orders or of the TP/SL orders fails and the failure surfaces to the top
    level of the run, the session is released (one invocation of [close]
    right after the failure) and the run ends with an error report; no
    later step runs and the final verification pass is not attempted. *)
Theorem stage_failure_reported {W} (ccxt_new : dict -> ccxt_bitget W)
    (ACCOUNTS : json) (s0 s2 sb : state W) (api_setup : dict)
    (o : option unit) (e : exn) :
  let s1 := printed MsgStarting s0 in
  let mgr := BitgetExchange_init ccxt_new api_setup "USDT-FUTURES" in
  get_bitget_api_credentials ACCOUNTS s1 = (Ok api_setup, s1) ->
  load_markets mgr s1 = (Ok o, s2) ->
  stage_fetch_fails mgr s2 e sb ->
  exists tbefore tclose n e',
    trace sb = trace s0 ++ tbefore
    /\ trace (snd (close mgr sb)) = trace sb ++ tclose
    /\ calls tclose = repeat close_req n /\ (1 <= n)%nat
    /\ trace (snd (main ccxt_new ACCOUNTS s0))
       = trace s0 ++ tbefore ++ tclose
         ++ [EPrint (MsgError (str e')); EPrint MsgCompleted]
    /\ (e' = e \/ fst (close mgr sb) = Raise e')
    /\ ~ In MsgFinalVerification
         (prints (tbefore ++ tclose
                  ++ [EPrint (MsgError (str e')); EPrint MsgCompleted])).
Proof.
  intros s1 mgr Hcred Hload Hfail.
  pose proof (main_run ccxt_new ACCOUNTS s0 s2 api_setup o Hcred Hload) as Hmain.
  cbv zeta in Hmain. fold mgr in Hmain.
  rewrite (stage_fetch_fails_body mgr s2 sb e Hfail) in Hmain. cbn [fst snd] in Hmain.
  destruct (load_markets_before_verification mgr s1) as (tl & Htl & Hl).
  rewrite Hload in Htl. cbn [snd] in Htl.
  destruct (stage_fetch_fails_trace mgr s2 sb e Hfail) as (tb & Htb & Hb).
  destruct (close_before_verification mgr sb) as (tc' & Htc' & Hc').
  destruct (wrapper_loop_calls MAX_RETRIES BASE_DELAY close_req
              (ccxt_close (_exchange mgr)) (range MAX_RETRIES) sb)
    as (tc & n & Htc & Hcalls & Hn & _); [discriminate|].
  change (wrapper_loop MAX_RETRIES BASE_DELAY
            (call close_req (ccxt_close (_exchange mgr))) (range MAX_RETRIES))
    with (close mgr) in Htc.
  assert (tc' = tc) by (rewrite Htc in Htc'; eapply app_inv_head; eauto).
  subst tc'.
  assert (Htail : exists e',
             main_tail (Raise e) (fst (close mgr sb))
             = [EPrint (MsgError (str e')); EPrint MsgCompleted]
             /\ (e' = e \/ fst (close mgr sb) = Raise e')).
  { destruct (fst (close mgr sb)) as [o'|e'].
    - exists e. split; [reflexivity | left; reflexivity].
    - exists e'. split; [reflexivity | right; reflexivity]. }
  destruct Htail as (e' & Htail & He').
  exists ([EPrint MsgStarting] ++ tl ++ tb), tc, n, e'.
  split; [rewrite Htb, Htl; subst s1; cbn [trace printed];
          repeat rewrite <- app_assoc; reflexivity|].
  split; [exact Htc|]. split; [exact Hcalls|]. split; [lia|].
  split.
  { rewrite Hmain, Htail, Htc, Htb, Htl. subst s1. cbn [trace printed].
    repeat rewrite <- app_assoc. reflexivity. }
  split; [exact He'|].
  apply before_verification_prints.
  repeat (apply Forall_app; split); auto;
    repeat constructor; discriminate.
Qed.

Lemma stage_failure_reported_witness :
  let s1 := printed MsgStarting start in
  let api := [("apiKey", JStr "key"); ("secret", JStr "secret");
              ("password", JStr "pass")] in
  let mgr := BitgetExchange_init positions_down api "USDT-FUTURES" in
  let s2 := {| world := 1%nat;
               trace := [EPrint MsgStarting; ECall load_markets_req] |} in
  let e := operation_failed
             (Exception "bitget GET positions: 40037 apikey does not exist") in
  let sb := {| world := 2%nat;
               trace := [EPrint MsgStarting; ECall load_markets_req;
                         EPrint MsgFetchingPositions;
                         ECall (fetch_positions_req
                                  [("productType", JStr "USDT-FUTURES")])] |} in
  get_bitget_api_credentials valid_accounts s1 = (Ok api, s1) /\
  load_markets mgr s1 = (Ok (Some tt), s2) /\
  stage_fetch_fails mgr s2 e sb /\
  exists t, trace (snd (main positions_down valid_accounts start)) = t
            /\ ~ In MsgFinalVerification (prints t).
Proof.
  intros s1 api mgr s2 e sb.
  assert (Hcred : get_bitget_api_credentials valid_accounts s1 = (Ok api, s1))
    by reflexivity.
  assert (Hload : load_markets mgr s1 = (Ok (Some tt), s2)) by reflexivity.
  assert (Hfail : stage_fetch_fails mgr s2 e sb)
    by (apply positions_fetch_fails; reflexivity).
  split; [exact Hcred|]. split; [exact Hload|]. split; [exact Hfail|].
  destruct (stage_failure_reported positions_down valid_accounts start s2 sb
              api (Some tt) e Hcred Hload Hfail)
    as (tb & tc & n & e' & _ & _ & _ & _ & Hmain & _ & Hno).
  eexists. split; [reflexivity|]. rewrite Hmain. exact Hno.
Defined.

(** C10 as stated fails when the fetch of the positions fails: the run
    reports the error and releases the session, but makes no further fetch
    and prints nothing of the final verification. *)
Lemma verification_skipped_counterexample :
  trace (snd (main positions_down valid_accounts start))
  = [EPrint MsgStarting;
     ECall load_markets_req;
     EPrint MsgFetchingPositions;
     ECall (fetch_positions_req [("productType", JStr "USDT-FUTURES")]);
     ECall close_req;
     EPrint (MsgError "BitgetExchange operation failed: bitget GET positions: 40037 apikey does not exist");
     EPrint MsgCompleted]
  /\ ~ In MsgFinalVerification
       (prints (trace (snd (main positions_down valid_accounts start)))).
Proof.
  assert (H : trace (snd (main positions_down valid_accounts start))
              = [EPrint MsgStarting;
                 ECall load_markets_req;
                 EPrint MsgFetchingPositions;
                 ECall (fetch_positions_req [("productType", JStr "USDT-FUTURES")]);
                 ECall close_req;
                 EPrint (MsgError "BitgetExchange operation failed: bitget GET positions: 40037 apikey does not exist");
                 EPrint MsgCompleted]) by (vm_compute; reflexivity).
  split; [exact H|]. rewrite H. simpl.
  intros [Hin|[Hin|[Hin|[Hin|[]]]]]; discriminate Hin.
Qed.

(** ** The queries of the pending orders *)

Lemma lookup_dict_set_other (d : dict) (k k' : string) (v : json) :
  String.eqb k' k = false -> lookup k (dict_set d k' v) = lookup k d.
Proof.
  intros Hk. induction d as [|[k0 x] d IH]; simpl.
  - rewrite Hk. reflexivity.
  - destruct (String.eqb k0 k') eqn:E; simpl.
    + apply String.eqb_eq in E. subst k0. rewrite Hk. reflexivity.
    + destruct (String.eqb k0 k); [reflexivity | exact IH].
Qed.

Lemma fetch_params_lookup (fixed params : dict) (symbol : json) (k : string) :
  fetch_params fixed symbol = Ok params ->
  String.eqb "symbol" k = false ->
  lookup k params = lookup k fixed.
Proof.
  unfold fetch_params. intros H Hk. destruct (truthy symbol).
  - destruct (_format_symbol symbol) as [fs|e]; [|discriminate].
    injection H as <-. apply lookup_dict_set_other. exact Hk.
  - injection H as <-. reflexivity.
Qed.

(** The first thing a wrapped operation appends to the trace is the first
    thing its first attempt appends. *)
Lemma retry_async_first_event {W A} (N D : Z) (func : M W A) (ev : event) :
  1 <= N ->
  emits (fun _ => True) func ->
  forall s,
    (exists t, trace (snd (func s)) = trace s ++ ev :: t) ->
    exists t, trace (snd (retry_async N D func s)) = trace s ++ ev :: t.
Proof.
  intros HN Hf s (t & Ht). unfold retry_async. rewrite range_pos by exact HN.
  cbn [wrapper_loop]. unfold try_except, bind at 1.
  destruct (func s) as [[v|e] s1]; cbn [snd] in *.
  - exists t. exact Ht.
  - destruct (is_rate_limit e && (0 <? N - 1)).
    + match goal with |- context [wrapper_loop N D func ?l] =>
        destruct (emits_wrapper_loop (fun _ => True) N D func l Hf
                    (fun _ _ _ => I) (fun _ => I)
                    {| world := world s1;
                       trace := (trace s1 ++ [EPrint (MsgRateLimitHit (0 + 1) N (D * 2 ^ 0))])
                                ++ [ESleep (D * 2 ^ 0)] |})
          as (u & Hu & _)
      end.
      cbn [trace] in Hu.
      exists (t ++ [EPrint (MsgRateLimitHit (0 + 1) N (D * 2 ^ 0))]
                ++ [ESleep (D * 2 ^ 0)] ++ u).
      unfold bind, print, sleep, emit. cbn [world trace].
      rewrite Hu, Ht. repeat rewrite <- app_assoc. reflexivity.
    + exists t. exact Ht.
Qed.

Lemma call_bind_first_event {W A B} (r : request) (op : W -> result A * W)
    (k : A -> M W B) (s : state W) :
  (forall v, emits (fun _ => True) (k v)) ->
  exists t, trace (snd (bind (call r op) k s)) = trace s ++ ECall r :: t.
Proof.
  intros Hk. unfold bind, call. destruct (op (world s)) as [[v|e] w].
  - match goal with |- context [k v ?s1] => destruct (Hk v s1) as (u & Hu & _) end.
    exists u. rewrite Hu. cbn [trace]. rewrite <- app_assoc. reflexivity.
  - exists []. reflexivity.
Qed.

Section PendingOrders.

Context {W : Type}.
Variable self : BitgetExchange W.

Lemma entrusted_list_of_silent (P : event -> Prop) (response : json) :
  emits P (@entrusted_list_of W response).
Proof. emits_program fail. Qed.

(** C4, as amended: every query that the trigger-order fetch sends to the
    pending-plan-orders endpoint carries [planType = "normal_plan"]; the
    fetch makes no other client call, and called as [main] calls it
    (without a symbol) it starts with that query, with the parameters
    [productType] and [planType] alone. *)
Theorem trigger_fetch_plan_type (symbol : json) :
  emits (plan_type_is "normal_plan") (fetch_open_trigger_orders self symbol)
  /\ forall s, exists t,
       trace (snd (fetch_open_trigger_orders self JNull s))
       = trace s
         ++ ECall (orders_plan_pending_req
                     [("productType", JStr (product_type self));
                      ("planType", JStr "normal_plan")]) :: t.
Proof.
  split.
  - unfold fetch_open_trigger_orders.
    apply emits_bind; [|intros o; apply emits_ret].
    apply emits_retry_async; [|intros; exact I|intros; exact I].
    apply emits_bind_lift. intros params Hp.
    apply emits_bind; [|intros response; apply entrusted_list_of_silent].
    apply emits_call. cbn [plan_type_is].
    rewrite (fetch_params_lookup _ _ _ "planType" Hp); reflexivity.
  - intros s. unfold fetch_open_trigger_orders.
    cbn [fetch_params truthy lift].
    match goal with |- context [retry_async ?N ?D ?f] =>
      destruct (retry_async_first_event N D f
                  (ECall (orders_plan_pending_req
                            [("productType", JStr (product_type self));
                             ("planType", JStr "normal_plan")]))
                  ltac:(unfold MAX_RETRIES; lia)
                  ltac:(emits_program ltac:(exact I)) s) as (t & Ht)
    end.
    + apply call_bind_first_event. intros v. apply entrusted_list_of_silent.
    + exists t. unfold bind at 1.
      match goal with |- context [retry_async ?N ?D ?f s] =>
        destruct (retry_async N D f s) as [[o|e] s1]
      end; exact Ht.
Qed.

End PendingOrders.

(** ** The limit-order fetch *)

Lemma limit_only_limit (items kept : list json) :
  limit_only items = Ok kept -> Forall is_limit_order kept.
Proof.
  revert kept. induction items as [|order rest IH]; simpl; intros kept H.
  - injection H as <-. constructor.
  - destruct (py_get order "orderType" JNull) as [t|e] eqn:Ht; [|discriminate].
    destruct (limit_only rest) as [kept'|e]; [|discriminate].
    injection H as <-. specialize (IH kept' eq_refl).
    destruct (eq_str t "limit") eqn:Heq; [|exact IH].
    constructor; [|exact IH]. unfold is_limit_order. rewrite Ht.
    destruct t; try discriminate. simpl in Heq.
    apply String.eqb_eq in Heq. subst. reflexivity.
Qed.

(** Closes one path through the [try] block. *)
Ltac limit_leaf :=
  eexists; eexists;
  split; [repeat rewrite <- app_assoc; cbn [app]; reflexivity|];
  split; [reflexivity|];
  split; [reflexivity|];
  split; [first [constructor | eapply limit_only_limit; eassumption]|];
  intros Hne;
  first [congruence
        | eexists _, _, _, _; repeat (split; [eassumption || reflexivity|]);
          eassumption].

Section LimitOrders.

Context {W : Type}.
Variable self : BitgetExchange W.

(** The [try] block never raises.  It makes one query, appends at most one
    printed line, and returns a list; the list is empty unless the answer
    is a dict whose ["data"] is a dict whose ["entrustedList"] can be
    iterated and holds only dicts, and then it is the sublist of the orders
    whose [orderType] is ["limit"]. *)
Lemma limit_orders_try_total (params : dict) (s : state W) :
  exists kept m,
    limit_orders_try self params s
    = (Ok (JList kept),
       {| world := snd (private_mix_get_v2_mix_order_orders_pending
                          (_exchange self) params (world s));
          trace := trace s ++ ECall (orders_pending_req params) :: m |})
    /\ calls m = [] /\ sleeps m = []
    /\ Forall is_limit_order kept
    /\ (kept <> [] ->
        exists response data entrusted_list items,
          fst (private_mix_get_v2_mix_order_orders_pending
                 (_exchange self) params (world s)) = Ok response
          /\ truthy response = true
          /\ py_in "data" response = Ok true
          /\ py_get response "data" (JDict []) = Ok data
          /\ py_get data "entrustedList" (JList []) = Ok entrusted_list
          /\ py_iter entrusted_list = Ok items
          /\ limit_only items = Ok kept).
Proof.
  unfold limit_orders_try, try_except, bind, call, lift, ret, raise, print, emit.
  destruct (private_mix_get_v2_mix_order_orders_pending
              (_exchange self) params (world s)) as [[response|e] w'];
    cbn [fst snd world trace]; [|limit_leaf].
  destruct (truthy response) eqn:Htruthy; cbn [negb fst snd world trace];
    [|limit_leaf].
  destruct (py_in "data" response) as [[|]|e] eqn:Hin;
    cbn [negb fst snd world trace]; try limit_leaf.
  destruct (py_get response "data" (JDict [])) as [data|e] eqn:Hdata;
    cbn [fst snd world trace]; try limit_leaf.
  destruct (py_get data "entrustedList" (JList [])) as [elist|e] eqn:Hlist;
    cbn [fst snd world trace]; try limit_leaf.
  destruct (py_iter elist) as [items|e] eqn:Hitems;
    [destruct (limit_only items) as [kept|e] eqn:Hkept|];
    destruct elist; cbn [fst snd world trace]; limit_leaf.
Qed.

End LimitOrders.

Lemma retry_async_success {W A} (N D : Z) (func : M W A) (s s1 : state W) (v : A) :
  1 <= N ->
  func s = (Ok v, s1) ->
  retry_async N D func s = (Ok (Some v), s1).
Proof.
  intros HN Hf. unfold retry_async. rewrite range_pos by exact HN.
  apply wrapper_loop_success. exact Hf.
Qed.

Section LimitFetchClaims.

Context {W : Type}.
Variable self : BitgetExchange W.

(** C6: whatever the pending-orders endpoint answers or raises, the
    limit-order fetch returns a list and does not raise; the list is empty
    when the answer lacks the ["data"] field, and more generally unless the
    answer is a dict whose ["data"] is a dict whose ["entrustedList"] can be
    iterated and holds only dicts; and every order of the list has
    [orderType == "limit"]. *)
Theorem limit_fetch_never_raises (symbol : json) (params : dict) (s : state W) :
  fetch_params [("productType", JStr (product_type self));
                ("status", JStr "live")] symbol = Ok params ->
  let answer := private_mix_get_v2_mix_order_orders_pending
                  (_exchange self) params (world s) in
  exists kept m,
    fetch_open_limit_orders self symbol s
    = (Ok (JList kept),
       {| world := snd answer;
          trace := trace s ++ ECall (orders_pending_req params) :: m |})
    /\ calls m = [] /\ sleeps m = []
    /\ Forall is_limit_order kept
    /\ (forall response,
          fst answer = Ok response ->
          py_in "data" response <> Ok true -> kept = [])
    /\ (kept <> [] ->
        exists response data entrusted_list items,
          fst answer = Ok response
          /\ truthy response = true
          /\ py_in "data" response = Ok true
          /\ py_get response "data" (JDict []) = Ok data
          /\ py_get data "entrustedList" (JList []) = Ok entrusted_list
          /\ py_iter entrusted_list = Ok items
          /\ limit_only items = Ok kept).
Proof.
  intros Hp answer.
  destruct (limit_orders_try_total self params s)
    as (kept & m & Hrun & Hc & Hs & Hlimit & Hshape).
  exists kept, m.
  split.
  { unfold fetch_open_limit_orders. unfold bind at 1.
    erewrite retry_async_success;
      [reflexivity | unfold MAX_RETRIES; lia |].
    rewrite Hp. exact Hrun. }
  split; [exact Hc|]. split; [exact Hs|]. split; [exact Hlimit|].
  split; [|exact Hshape].
  intros response Hresp Hno.
  destruct kept as [|order kept]; [reflexivity|]. exfalso.
  destruct Hshape as (r & d & l & i & H1 & _ & H3 & _); [discriminate|].
  subst answer. rewrite Hresp in H1. injection H1 as <-. contradiction.
Qed.

(** C5 fails for the limit-order fetch.  When the pending-orders endpoint
    raises a rate-limit error, the handler inside the method catches it:
    the fetch makes that one call, prints the error, sleeps nothing, does
    not try again and returns the empty list. *)
Theorem limit_fetch_swallows_rate_limit (s : state W) (e : exn) (w' : W) :
  let params := [("productType", JStr (product_type self));
                 ("status", JStr "live")] in
  private_mix_get_v2_mix_order_orders_pending (_exchange self) params (world s)
  = (Raise e, w') ->
  is_rate_limit e = true ->
  fetch_open_limit_orders self JNull s
  = (Ok (JList []),
     {| world := w';
        trace := trace s ++ [ECall (orders_pending_req params);
                             EPrint (MsgErrorFetchingLimit (str e))] |}).
Proof.
  intros params Hraise _.
  unfold fetch_open_limit_orders. unfold bind at 1.
  rewrite (retry_async_success MAX_RETRIES BASE_DELAY _ s
             {| world := w';
                trace := trace s ++ [ECall (orders_pending_req params);
                                     EPrint (MsgErrorFetchingLimit (str e))] |}
             (JList []));
    [reflexivity | unfold MAX_RETRIES; lia |].
  cbn [fetch_params truthy lift]. unfold bind at 1, ret at 1.
  unfold limit_orders_try, try_except, bind at 1, call. fold params.
  rewrite Hraise. unfold bind, print, emit, ret. cbn [world trace].
  rewrite <- app_assoc. reflexivity.
Qed.

End LimitFetchClaims.

Lemma limit_fetch_never_raises_witness :
  let self := usdt_futures
                (scripted (answer tt) (answer (JDict [])) (answer [])
                   (fun _ _ => answer tt) (fun _ => answer (entrusted []))
                   (answer (JDict [("code", JStr "40014")]))
                   (fun _ => answer JNull) (fun _ => answer JNull)) in
  let params := [("productType", JStr "USDT-FUTURES"); ("status", JStr "live")] in
  fetch_params params JNull = Ok params /\
  exists kept m,
    fetch_open_limit_orders self JNull start
    = (Ok (JList kept),
       {| world := 1%nat; trace := [] ++ ECall (orders_pending_req params) :: m |})
    /\ kept = [].
Proof.
  intros self params. split; [reflexivity|].
  destruct (limit_fetch_never_raises self JNull params start eq_refl)
    as (kept & m & Hrun & _ & _ & _ & Hno & _).
  exists kept, m. split; [exact Hrun|].
  apply (Hno (JDict [("code", JStr "40014")])); [reflexivity | discriminate].
Defined.

Lemma limit_fetch_swallows_rate_limit_witness :
  let self := usdt_futures orders_throttled in
  let params := [("productType", JStr "USDT-FUTURES"); ("status", JStr "live")] in
  private_mix_get_v2_mix_order_orders_pending (_exchange self) params 0%nat
  = (Raise too_many_requests, 1%nat) /\
  is_rate_limit too_many_requests = true /\
  fetch_open_limit_orders self JNull start
  = (Ok (JList []),
     {| world := 1%nat;
        trace := [ECall (orders_pending_req params);
                  EPrint (MsgErrorFetchingLimit (str too_many_requests))] |}).
Proof.
  intros self params. split; [reflexivity|]. split; [reflexivity|].
  exact (limit_fetch_swallows_rate_limit self start too_many_requests 1%nat
           eq_refl eq_refl).
Defined.

(** Under the same throttling the trigger-order fetch, wrapped by the same
    decorator, backs off and retries up to [MAX_RETRIES] attempts. *)
Example trigger_fetch_retries_when_throttled :
  sleeps (trace (snd (fetch_open_trigger_orders (usdt_futures orders_throttled)
                        JNull start)))
  = [1; 2; 4; 8]
  /\ List.length (calls (trace (snd (fetch_open_trigger_orders
                                       (usdt_futures orders_throttled)
                                       JNull start)))) = 5%nat.
Proof. split; vm_compute; reflexivity. Qed.

(** C4 as stated fails: the query of the trigger-order fetch carries
    [planType = "normal_plan"], not ["normal"]. *)
Lemma trigger_plan_type_counterexample :
  calls (trace (snd (fetch_open_trigger_orders (usdt_futures flat_account)
                       JNull start)))
  = [orders_plan_pending_req [("productType", JStr "USDT-FUTURES");
                              ("planType", JStr "normal_plan")]]
  /\ lookup "planType" [("productType", JStr "USDT-FUTURES");
                        ("planType", JStr "normal_plan")]
     <> Some (JStr "normal").
Proof. split; [vm_compute; reflexivity | discriminate]. Qed.

(** ** Cancelling TP/SL orders *)

Lemma bind_first_event {W A B} (m : M W A) (k : A -> M W B) (ev : event)
    (s : state W) :
  (exists t, trace (snd (m s)) = trace s ++ ev :: t) ->
  (forall v, emits (fun _ => True) (k v)) ->
  exists t, trace (snd (bind m k s)) = trace s ++ ev :: t.
Proof.
  intros (t & Ht) Hk. unfold bind. destruct (m s) as [[v|e] s1]; cbn [snd] in *.
  - destruct (Hk v s1) as (u & Hu & _). exists (t ++ u).
    rewrite Hu, Ht, <- app_assoc. reflexivity.
  - exists t. exact Ht.
Qed.

Lemma try_except_first_event {W A} (m : M W A) (h : exn -> M W A) (ev : event)
    (s : state W) :
  (exists t, trace (snd (m s)) = trace s ++ ev :: t) ->
  (forall e, emits (fun _ => True) (h e)) ->
  exists t, trace (snd (try_except m h s)) = trace s ++ ev :: t.
Proof.
  intros (t & Ht) Hh. unfold try_except.
  destruct (m s) as [[v|e] s1]; cbn [snd] in *.
  - exists t. exact Ht.
  - destruct (Hh e s1) as (u & Hu & _). exists (t ++ u).
    rewrite Hu, Ht, <- app_assoc. reflexivity.
Qed.

Section TpslCancel.

Context {W : Type}.
Variable exchange : BitgetExchange W.

(** With a symbol that formats to [fs], [cancel_trigger_order] starts with
    a call of the plan-order cancel endpoint for that symbol and order. *)
Lemma cancel_trigger_order_first_call (symbol order_id fs : json) (s : state W) :
  _format_symbol symbol = Ok fs ->
  exists t,
    trace (snd (cancel_trigger_order exchange symbol order_id s))
    = trace s ++ ECall (cancel_plan_order_req (cancel_params exchange fs order_id)) :: t.
Proof.
  intros Hfs. unfold cancel_trigger_order. rewrite Hfs. cbn [lift].
  apply retry_async_first_event.
  - unfold MAX_RETRIES. lia.
  - emits_program ltac:(exact I).
  - apply call_bind_first_event. intros v. apply emits_ret.
Qed.

(** The two loops treat an order alike up to the lines they print. *)
Lemma tpsl_like_trigger (order : json) (s : state W) :
  world (snd (cancel_one_tpsl_order exchange order s))
  = world (snd (cancel_one_trigger_order exchange order s))
  /\ calls (trace (snd (cancel_one_tpsl_order exchange order s)))
     = calls (trace (snd (cancel_one_trigger_order exchange order s))).
Proof.
  unfold cancel_one_tpsl_order, cancel_one_trigger_order, bind, try_except, lift.
  destruct (py_getitem order "symbol") as [symbol|e]; unfold ret at 1 3, raise;
    [|split; reflexivity].
  destruct (py_getitem order "orderId") as [order_id|e]; unfold ret, raise;
    [|split; reflexivity].
  destruct (cancel_trigger_order exchange symbol order_id s) as [[o|e] s3];
    unfold print, emit; cbn [snd world trace]; rewrite !calls_app;
    split; reflexivity.
Qed.

Lemma tpsl_fetch_emits (symbol : json) :
  emits (plan_type_is "profit_loss") (fetch_open_tpsl_orders exchange symbol).
Proof.
  unfold fetch_open_tpsl_orders.
  apply emits_bind; [|intros o; apply emits_ret].
  apply emits_retry_async; [|intros; exact I|intros; exact I].
  apply emits_bind_lift. intros params Hp.
  apply emits_bind; [|intros response; apply entrusted_list_of_silent].
  apply emits_call. cbn [plan_type_is].
  rewrite (fetch_params_lookup _ _ _ "planType" Hp); reflexivity.
Qed.

Lemma step3_tpsl_stage :
  emits tpsl_stage (step3_cancel_tpsl_orders exchange).
Proof.
  unfold step3_cancel_tpsl_orders.
  apply emits_bind; [apply emits_emit; exact I | intros _].
  apply emits_bind.
  - eapply emits_weaken; [|apply tpsl_fetch_emits].
    intros [[]| |]; cbn; tauto.
  - intros orders. emits_program ltac:(exact I).
Qed.

Lemma length_list_ascii (x : string) :
  List.length (list_ascii_of_string x) = String.length x.
Proof. induction x as [|c x IH]; [reflexivity|]. cbn. rewrite IH. reflexivity. Qed.

Lemma py_iter_len (v : json) (items : list json) :
  py_iter v = Ok items -> py_len v = Ok (List.length items).
Proof.
  destruct v; cbn; intros H; try discriminate; injection H as <-;
    rewrite ?length_map, ?length_list_ascii; reflexivity.
Qed.

(** With the orders the TP/SL fetch returned, step 3 is the loop over
    those very orders. *)
Lemma step3_loops_over_fetched (s s1 : state W) (orders : json)
    (items : list json) :
  fetch_open_tpsl_orders exchange JNull (printed MsgFetchingTpsl s)
  = (Ok orders, s1) ->
  truthy orders = true ->
  py_iter orders = Ok items ->
  step3_cancel_tpsl_orders exchange s
  = for_each items (cancel_one_tpsl_order exchange)
      (printed (MsgFoundTpsl (List.length items)) s1).
Proof.
  intros Hfetch Htruthy Hiter. unfold step3_cancel_tpsl_orders.
  unfold bind at 1. rewrite print_eq. unfold bind at 1. rewrite Hfetch, Htruthy.
  cbn [negb]. rewrite (py_iter_len orders items Hiter), Hiter. cbn [lift].
  unfold bind at 1, ret at 1. unfold bind at 1. rewrite print_eq.
  unfold bind at 1, ret at 1. reflexivity.
Qed.

(** The turn of an order with a symbol and an id: it never raises, starts
    with the plan-order cancel of that order and calls nothing else. *)
Lemma cancel_one_tpsl_order_turn (order : json) (params : dict) (s : state W) :
  cancel_params_of exchange order params ->
  exists s' t,
    cancel_one_tpsl_order exchange order s = (Ok tt, s')
    /\ trace s' = trace s ++ ECall (cancel_plan_order_req params) :: t
    /\ Forall cancels_by_plan t.
Proof.
  intros (symbol & order_id & fs & Hsym & Hid & Hfs & ->).
  assert (Hemits : emits cancels_by_plan (cancel_one_tpsl_order exchange order))
    by (emits_program ltac:(exact I)).
  destruct (Hemits s) as (t & Ht & HP).
  assert (Hfirst : exists u,
             trace (snd (cancel_one_tpsl_order exchange order s))
             = trace s
               ++ ECall (cancel_plan_order_req (cancel_params exchange fs order_id)) :: u).
  { unfold cancel_one_tpsl_order. rewrite Hsym, Hid. cbn [lift].
    unfold bind at 1, ret at 1. unfold bind at 1, ret at 1.
    apply try_except_first_event.
    - apply bind_first_event.
      + apply cancel_trigger_order_first_call. exact Hfs.
      + intros _. apply emits_emit. exact I.
    - intros e. apply emits_emit. exact I. }
  destruct Hfirst as (u & Hu).
  assert (Hok : fst (cancel_one_tpsl_order exchange order s) = Ok tt).
  { unfold cancel_one_tpsl_order. rewrite Hsym, Hid. cbn [lift].
    unfold bind at 1, ret at 1. unfold bind at 1, ret at 1.
    unfold try_except, bind.
    destruct (cancel_trigger_order exchange symbol order_id s) as [[o|e] s1];
      reflexivity. }
  destruct (cancel_one_tpsl_order exchange order s) as [r s'].
  cbn [fst snd] in *. subst r. exists s', u. split; [reflexivity|].
  split; [exact Hu|]. rewrite Hu in Ht. apply app_inv_head in Ht. subst t.
  inversion HP; assumption.
Qed.

(** Over orders that all have a symbol and an id, the loop sends for each
    its own plan-order cancel. *)
Lemma tpsl_loop_cancels_each (items : list json) (ps : list dict) (s : state W) :
  Forall2 (cancel_params_of exchange) items ps ->
  exists s' t,
    for_each items (cancel_one_tpsl_order exchange) s = (Ok tt, s')
    /\ trace s' = trace s ++ t
    /\ Forall cancels_by_plan t
    /\ forall params, In params ps -> In (ECall (cancel_plan_order_req params)) t.
Proof.
  intros Hall. revert s. induction Hall as [|order params items ps Hp _ IH];
    intros s.
  - exists s, []. cbn [for_each]. rewrite app_nil_r.
    split; [reflexivity|]. split; [reflexivity|]. split; [constructor|].
    intros params [].
  - destruct (cancel_one_tpsl_order_turn order params s Hp)
      as (s1 & u & Hrun & Hu & HP).
    destruct (IH s1) as (s' & t & Hrest & Ht & HQ & Hin).
    exists s', (ECall (cancel_plan_order_req params) :: u ++ t).
    cbn [for_each]. unfold bind. rewrite Hrun.
    split; [exact Hrest|].
    split; [rewrite Ht, Hu; repeat (rewrite <- app_assoc; cbn [app]); reflexivity|].
    split.
    + constructor; [exact I|]. apply Forall_app. split; assumption.
    + intros q [<-|Hq]; [left; reflexivity|].
      right. apply in_or_app. right. exact (Hin q Hq).
Qed.

(** In a run whose first two steps completed, what step 3 appends sits in
    the trace of the block right after them. *)
Lemma step3_segment (s sA sB : state W) :
  step1_close_positions exchange s = (Ok tt, sA) ->
  step2_cancel_trigger_orders exchange sA = (Ok tt, sB) ->
  exists t4 trest,
    trace (snd (step3_cancel_tpsl_orders exchange sB)) = trace sB ++ t4
    /\ Forall tpsl_stage t4
    /\ trace (snd (main_body exchange s)) = trace sB ++ t4 ++ trest.
Proof.
  intros H1 H2. destruct (step3_tpsl_stage sB) as (t4 & Ht4 & HP).
  unfold main_body. unfold bind at 1. rewrite H1. unfold bind at 1. rewrite H2.
  unfold bind at 1.
  destruct (step3_cancel_tpsl_orders exchange sB) as [[[]|e] sC]; cbn [snd] in *.
  - assert (Hrest : emits (fun _ => True)
                      (step4_cancel_limit_orders exchange ;;
                       final_verification exchange))
      by (emits_program ltac:(exact I)).
    destruct (Hrest sC) as (trest & Htrest & _).
    exists t4, trest. split; [exact Ht4|]. split; [exact HP|].
    rewrite Htrest, Ht4, app_assoc. reflexivity.
  - exists t4, []. rewrite app_nil_r. auto.
Qed.

End TpslCancel.

(** C7: in the run, every TP/SL order is cancelled through
    [cancel_trigger_order], the operation that cancels trigger orders, and
    never through [cancel_limit_order].  Every client call of the TP/SL
    stage is the TP/SL query or a call of the plan-order cancel endpoint;
    the stage hands the orders its fetch returned to the loop, the loop
    sends for each order that has a symbol and an id the plan-order cancel
    of that symbol and id, and makes, order by order, the calls the
    trigger-order loop makes.  What the stage appends sits in the trace of
    the block of [main], and of [main] itself, right after the two steps
    before it. *)
Theorem tpsl_cancel_by_trigger_cancel {W} :
  (forall exchange : BitgetExchange W,
     emits tpsl_stage (step3_cancel_tpsl_orders exchange))
  /\ (forall (exchange : BitgetExchange W) s s1 orders items,
        fetch_open_tpsl_orders exchange JNull (printed MsgFetchingTpsl s)
        = (Ok orders, s1) ->
        truthy orders = true ->
        py_iter orders = Ok items ->
        step3_cancel_tpsl_orders exchange s
        = for_each items (cancel_one_tpsl_order exchange)
            (printed (MsgFoundTpsl (List.length items)) s1))
  /\ (forall (exchange : BitgetExchange W) items,
        emits cancels_by_plan (for_each items (cancel_one_tpsl_order exchange)))
  /\ (forall (exchange : BitgetExchange W) items ps s,
        Forall2 (cancel_params_of exchange) items ps ->
        exists s' t,
          for_each items (cancel_one_tpsl_order exchange) s = (Ok tt, s')
          /\ trace s' = trace s ++ t
          /\ Forall cancels_by_plan t
          /\ forall params, In params ps ->
                            In (ECall (cancel_plan_order_req params)) t)
  /\ (forall (exchange : BitgetExchange W) order symbol order_id fs s,
        py_getitem order "symbol" = Ok symbol ->
        py_getitem order "orderId" = Ok order_id ->
        _format_symbol symbol = Ok fs ->
        exists t,
          trace (snd (cancel_one_tpsl_order exchange order s))
          = trace s
            ++ ECall (cancel_plan_order_req (cancel_params exchange fs order_id)) :: t)
  /\ (forall (exchange : BitgetExchange W) order s,
        calls (trace (snd (cancel_one_tpsl_order exchange order s)))
        = calls (trace (snd (cancel_one_trigger_order exchange order s))))
  /\ (forall (exchange : BitgetExchange W) s sA sB,
        step1_close_positions exchange s = (Ok tt, sA) ->
        step2_cancel_trigger_orders exchange sA = (Ok tt, sB) ->
        exists t4 trest,
          trace (snd (step3_cancel_tpsl_orders exchange sB)) = trace sB ++ t4
          /\ Forall tpsl_stage t4
          /\ trace (snd (main_body exchange s)) = trace sB ++ t4 ++ trest)
  /\ (forall (ccxt_new : dict -> ccxt_bitget W) ACCOUNTS s0 s2 sA sB api_setup o,
        let s1 := printed MsgStarting s0 in
        let mgr := BitgetExchange_init ccxt_new api_setup "USDT-FUTURES" in
        get_bitget_api_credentials ACCOUNTS s1 = (Ok api_setup, s1) ->
        load_markets mgr s1 = (Ok o, s2) ->
        step1_close_positions mgr s2 = (Ok tt, sA) ->
        step2_cancel_trigger_orders mgr sA = (Ok tt, sB) ->
        exists t4 trest,
          trace (snd (step3_cancel_tpsl_orders mgr sB)) = trace sB ++ t4
          /\ Forall tpsl_stage t4
          /\ trace (snd (main ccxt_new ACCOUNTS s0)) = trace sB ++ t4 ++ trest).
Proof.
  split; [exact step3_tpsl_stage|].
  split; [exact step3_loops_over_fetched|].
  split; [intros exchange items; emits_program ltac:(exact I)|].
  split; [exact tpsl_loop_cancels_each|].
  split.
  { intros exchange order symbol order_id fs s Hsym Hid Hfs.
    destruct (cancel_one_tpsl_order_turn exchange order
                (cancel_params exchange fs order_id) s) as (s' & t & Hrun & Ht & _).
    - exists symbol, order_id, fs. auto.
    - exists t. rewrite Hrun. exact Ht. }
  split; [intros exchange order s; apply tpsl_like_trigger|].
  split; [exact step3_segment|].
  intros ccxt_new ACCOUNTS s0 s2 sA sB api_setup o s1 mgr Hcred Hload H1 H2.
  destruct (step3_segment mgr s2 sA sB H1 H2) as (t4 & trest & Ht4 & HP & Hbody).
  pose proof (main_run ccxt_new ACCOUNTS s0 s2 api_setup o Hcred Hload) as Hmain.
  cbv zeta in Hmain. fold mgr in Hmain.
  assert (Hclose : emits (fun _ => True) (close mgr))
    by (emits_program ltac:(exact I)).
  destruct (Hclose (snd (main_body mgr s2))) as (tc & Htc & _).
  exists t4, (trest ++ tc ++ main_tail (fst (main_body mgr s2))
                               (fst (close mgr (snd (main_body mgr s2))))).
  split; [exact Ht4|]. split; [exact HP|].
  rewrite Hmain, Htc, Hbody. repeat rewrite <- app_assoc. reflexivity.
Qed.

Lemma tpsl_cancel_by_trigger_cancel_witness :
  let exchange := usdt_futures one_tpsl_order in
  let s1 := {| world := 1%nat;
               trace := [EPrint MsgFetchingTpsl;
                         ECall (orders_plan_pending_req
                                  [("productType", JStr "USDT-FUTURES");
                                   ("planType", JStr "profit_loss")])] |} in
  fetch_open_tpsl_orders exchange JNull (printed MsgFetchingTpsl start)
  = (Ok (JList [tpsl_order]), s1) /\
  truthy (JList [tpsl_order]) = true /\
  py_iter (JList [tpsl_order]) = Ok [tpsl_order] /\
  step3_cancel_tpsl_orders exchange start
  = for_each [tpsl_order] (cancel_one_tpsl_order exchange)
      (printed (MsgFoundTpsl 1) s1) /\
  trace (snd (step3_cancel_tpsl_orders exchange start))
  = [EPrint MsgFetchingTpsl;
     ECall (orders_plan_pending_req [("productType", JStr "USDT-FUTURES");
                                     ("planType", JStr "profit_loss")]);
     EPrint (MsgFoundTpsl 1);
     ECall (cancel_plan_order_req [("productType", JStr "USDT-FUTURES");
                                   ("marginCoin", JStr "USDT");
                                   ("symbol", JStr "BTCUSDT");
                                   ("orderId", JStr "TPSL-1")]);
     EPrint (MsgCanceledTpsl (JStr "TPSL-1") (JStr "BTCUSDT"))].
Proof.
  intros exchange s1. split; [reflexivity|]. split; [reflexivity|].
  split; [reflexivity|]. split.
  - exact (proj1 (proj2 tpsl_cancel_by_trigger_cancel) exchange start s1
             (JList [tpsl_order]) [tpsl_order] eq_refl eq_refl eq_refl).
  - vm_compute. reflexivity.
Defined.

(** ** Closing the positions *)

Lemma retry_async_other_error {W A} (N D : Z) (func : M W A)
    (s s1 : state W) (e : exn) :
  1 <= N ->
  func s = (Raise e, s1) ->
  is_rate_limit e = false ->
  retry_async N D func s = (Raise (operation_failed e), s1).
Proof.
  intros HN Hf He. unfold retry_async. rewrite range_pos by exact HN.
  apply wrapper_loop_fatal; [exact Hf | left; exact He].
Qed.

Lemma for_each_print {W A} (f : A -> message) (xs : list A) (s : state W) :
  for_each xs (fun x => print (f x)) s
  = (Ok tt, {| world := world s;
               trace := trace s ++ map (fun x => EPrint (f x)) xs |}).
Proof.
  revert s. induction xs as [|x xs IH]; intros s; simpl.
  - unfold ret. rewrite app_nil_r. destruct s; reflexivity.
  - unfold bind. rewrite print_eq, IH. unfold printed. cbn [world trace].
    rewrite <- app_assoc. reflexivity.
Qed.

Section ClosePositions.

Context {W : Type}.
Variable exchange : BitgetExchange W.

Lemma flash_close_first_call (symbol side : string) (s : state W) :
  exists t,
    trace (snd (flash_close_position exchange symbol side s))
    = trace s ++ ECall (close_position_req symbol side) :: t.
Proof.
  unfold flash_close_position. apply retry_async_first_event.
  - unfold MAX_RETRIES. lia.
  - emits_program ltac:(exact I).
  - apply try_except_first_event; [|intros e; apply emits_raise].
    exists []. unfold call.
    destruct (ccxt_close_position (_exchange exchange) symbol side (world s)).
    reflexivity.
Qed.

(** One turn of the closing loop never raises: it attempts the close and
    prints the line that goes with the result of the close. *)
Lemma close_one_position_turn (p : position) (s : state W) :
  exists s', close_one_position exchange p s = (Ok tt, s')
             /\ close_turn exchange p s s'.
Proof.
  unfold close_one_position, close_turn. unfold bind at 1. rewrite print_eq.
  cbv zeta.
  destruct (flash_close_first_call (symbol p) (side p)
              (printed (MsgClosingPosition p) s)) as (u & Hu).
  assert (Hclient :
    match ccxt_close_position (_exchange exchange) (symbol p) (side p)
            (world s) with
    | (Ok _, w') =>
        flash_close_position exchange (symbol p) (side p)
          (printed (MsgClosingPosition p) s)
        = (Ok (Some tt),
           {| world := w';
              trace := trace (printed (MsgClosingPosition p) s)
                       ++ [ECall (close_position_req (symbol p) (side p))] |})
    | (Raise e, w') =>
        is_rate_limit e = false ->
        flash_close_position exchange (symbol p) (side p)
          (printed (MsgClosingPosition p) s)
        = (Raise (operation_failed e),
           {| world := w';
              trace := trace (printed (MsgClosingPosition p) s)
                       ++ [ECall (close_position_req (symbol p) (side p))] |})
    end).
  { destruct (ccxt_close_position (_exchange exchange) (symbol p) (side p)
                (world s)) as [[[]|e] w'] eqn:Hw.
    - unfold flash_close_position. apply retry_async_success.
      + unfold MAX_RETRIES. lia.
      + unfold try_except, call, printed. cbn [world trace]. rewrite Hw.
        reflexivity.
    - intros He. unfold flash_close_position. apply retry_async_other_error.
      + unfold MAX_RETRIES. lia.
      + unfold try_except, call, printed. cbn [world trace]. rewrite Hw.
        reflexivity.
      + exact He. }
  unfold try_except, bind.
  destruct (flash_close_position exchange (symbol p) (side p)
              (printed (MsgClosingPosition p) s)) as [r s1] eqn:Hrun.
  cbn [snd] in Hu. unfold printed in Hu. cbn [trace] in Hu.
  rewrite <- app_assoc in Hu. cbn [app] in Hu.
  exists (printed (close_outcome p r) s1). split.
  - destruct r as [o|e]; rewrite print_eq; reflexivity.
  - exists r, s1, u. split; [reflexivity|]. split; [exact Hu|].
    split; [reflexivity|].
    destruct (ccxt_close_position (_exchange exchange) (symbol p) (side p)
                (world s)) as [[[]|e] w'].
    + injection Hclient as -> ->. cbn [world trace printed] in Hu.
      rewrite <- app_assoc in Hu. cbn [app] in Hu.
      apply app_inv_head in Hu. injection Hu as <-. auto.
    + intros He. specialize (Hclient He). injection Hclient as -> ->.
      cbn [world trace printed] in Hu.
      rewrite <- app_assoc in Hu. cbn [app] in Hu.
      apply app_inv_head in Hu. injection Hu as <-. auto.
Qed.

(** The turn of a position whose close always fails: one attempt, then the
    error line. *)
Lemma close_one_position_fails (p : position) (s : state W) :
  close_always_fails exchange p ->
  exists e w',
    close_one_position exchange p s
    = (Ok tt,
       {| world := w';
          trace := trace s ++
            [EPrint (MsgClosingPosition p);
             ECall (close_position_req (symbol p) (side p));
             EPrint (MsgErrorClosing (symbol p) (str (operation_failed e)) p)] |})
    /\ is_rate_limit e = false.
Proof.
  intros Hfail. destruct (Hfail (world s)) as (e & w' & Hw & He).
  exists e, w'. split; [|exact He].
  unfold close_one_position. unfold bind at 1. rewrite print_eq. cbv zeta.
  unfold try_except, bind. unfold flash_close_position.
  rewrite (retry_async_other_error MAX_RETRIES BASE_DELAY _
             (printed (MsgClosingPosition p) s)
             {| world := w';
                trace := trace (printed (MsgClosingPosition p) s) ++
                         [ECall (close_position_req (symbol p) (side p))] |} e);
    [| unfold MAX_RETRIES; lia | | exact He].
  - rewrite print_eq. unfold printed. cbn [world trace].
    rewrite <- !app_assoc. reflexivity.
  - unfold try_except, call, printed. cbn [world trace]. rewrite Hw. reflexivity.
Qed.

Lemma report_positions_lines (ps : list position) (s : state W) :
  ps <> [] ->
  report_positions (Some ps) s
  = (Ok tt, {| world := world s;
               trace := trace s ++ EPrint (MsgPositionsStillOpen (List.length ps))
                                   :: position_lines ps |}).
Proof.
  intros Hne. unfold report_positions.
  destruct ps as [|p ps]; [congruence|]. cbn [truthy_positions len_positions
    iter_positions lift]. unfold bind at 1, ret at 1. unfold bind at 1.
  rewrite print_eq. unfold bind at 1, ret at 1.
  rewrite (for_each_print
             (fun p => MsgPositionLine (symbol p) (side p) (contracts p))).
  unfold printed, position_lines. cbn [world trace].
  rewrite <- app_assoc. reflexivity.
Qed.

End ClosePositions.

Section FailedClose.

Context {W : Type}.
Variable exchange : BitgetExchange W.

Lemma step2_appends : emits (fun _ => True) (step2_cancel_trigger_orders exchange).
Proof. emits_program ltac:(exact I). Qed.

Lemma step3_appends : emits (fun _ => True) (step3_cancel_tpsl_orders exchange).
Proof. emits_program ltac:(exact I). Qed.

Lemma step4_appends : emits (fun _ => True) (step4_cancel_limit_orders exchange).
Proof. emits_program ltac:(exact I). Qed.

Lemma fetch_positions_appends : emits (fun _ => True) (fetch_open_positions exchange).
Proof. emits_program ltac:(exact I). Qed.

Lemma fetch_trigger_appends :
  emits (fun _ => True) (fetch_open_trigger_orders exchange JNull).
Proof. emits_program ltac:(exact I). Qed.

Lemma fetch_tpsl_appends :
  emits (fun _ => True) (fetch_open_tpsl_orders exchange JNull).
Proof. emits_program ltac:(exact I). Qed.

Lemma fetch_limit_appends :
  emits (fun _ => True) (fetch_open_limit_orders exchange JNull).
Proof. emits_program ltac:(exact I). Qed.

Lemma report_orders_appends (a b c : json) :
  emits (fun _ => True) (report_orders (W:=W) a b c).
Proof. emits_program ltac:(exact I). Qed.

(** Step 1 over three positions of which the second cannot be closed. *)
Lemma step1_three (p1 p2 p3 : position) (s2 s1 : state W) :
  fetch_open_positions exchange (printed MsgFetchingPositions s2)
  = (Ok (Some [p1; p2; p3]), s1) ->
  close_always_fails exchange p2 ->
  exists sa e2 w2 sc,
    step1_close_positions exchange s2 = (Ok tt, sc)
    /\ close_turn exchange p1 (printed (MsgFoundPositions 3) s1) sa
    /\ ccxt_close_position (_exchange exchange) (symbol p2) (side p2) (world sa)
       = (Raise e2, w2)
    /\ is_rate_limit e2 = false
    /\ close_turn exchange p3
         {| world := w2;
            trace := trace sa ++
              [EPrint (MsgClosingPosition p2);
               ECall (close_position_req (symbol p2) (side p2));
               EPrint (MsgErrorClosing (symbol p2)
                         ("BitgetExchange operation failed: " ++ str e2) p2)] |}
         sc.
Proof.
  intros Hfetch Hfail.
  unfold step1_close_positions. unfold bind at 1. rewrite print_eq.
  unfold bind at 1. rewrite Hfetch.
  cbn [truthy_positions negb len_positions iter_positions lift List.length].
  unfold bind at 1, ret at 1. unfold bind at 1. rewrite print_eq.
  unfold bind at 1, ret at 1. cbn [for_each].
  destruct (close_one_position_turn exchange p1
              (printed (MsgFoundPositions 3) s1)) as (sa & Ha & Hturn1).
  unfold bind at 1. rewrite Ha.
  destruct (Hfail (world sa)) as (e2 & w2 & Hw & He2).
  destruct (close_one_position_turn exchange p2 sa) as (sb & Hb & Hturn2).
  unfold bind at 1. rewrite Hb. unfold bind at 1.
  destruct (close_one_position_turn exchange p3 sb) as (sc & Hc & Hturn3).
  rewrite Hc. unfold ret.
  exists sa, e2, w2, sc. split; [reflexivity|]. split; [exact Hturn1|].
  split; [exact Hw|]. split; [exact He2|].
  destruct Hturn2 as (r & s' & u & Hrun & Ht & -> & Hclient).
  rewrite Hw in Hclient. destruct (Hclient He2) as (-> & -> & Hworld).
  destruct s' as [w' t']. cbn [world trace] in *. subst w' t'.
  unfold printed in Hturn3. cbn [world trace close_outcome operation_failed
    Exception str] in Hturn3.
  rewrite <- app_assoc in Hturn3. exact Hturn3.
Qed.

(** C2: the first fetch returns three open positions and closing the second
    fails with an error that is not a rate-limit error.  Then step 1 runs
    to its end.  The first and the third position each get their turn: the
    close is attempted and the line printed last reports the result of that
    very attempt, closed when it returned and the error when it raised (and
    when the client answers or fails outright on the first call, that call
    is the only one and the line is the one for that answer).  Between
    them the second position gets one attempt and the error line with the
    client's error.  When the run goes on through the order steps to the
    verification and the position re-fetch returns a list that holds the
    second position, the report gives the number of positions still open
    and one line per position returned, the second among them. *)
Theorem failed_close_does_not_block (p1 p2 p3 : position)
    (s2 s1 sB sC sV sP sT sQ sL : state W) (ps : list position)
    (trigger_orders tpsl_orders limit_orders : json) :
  fetch_open_positions exchange (printed MsgFetchingPositions s2)
  = (Ok (Some [p1; p2; p3]), s1) ->
  close_always_fails exchange p2 ->
  step2_cancel_trigger_orders exchange (snd (step1_close_positions exchange s2))
  = (Ok tt, sB) ->
  step3_cancel_tpsl_orders exchange sB = (Ok tt, sC) ->
  step4_cancel_limit_orders exchange sC = (Ok tt, sV) ->
  fetch_open_positions exchange (printed MsgFinalVerification sV)
  = (Ok (Some ps), sP) ->
  In p2 ps ->
  fetch_open_trigger_orders exchange JNull sP = (Ok trigger_orders, sT) ->
  fetch_open_tpsl_orders exchange JNull sT = (Ok tpsl_orders, sQ) ->
  fetch_open_limit_orders exchange JNull sQ = (Ok limit_orders, sL) ->
  exists sa e2 w2 sc tmid tend,
    step1_close_positions exchange s2 = (Ok tt, sc)
    /\ close_turn exchange p1 (printed (MsgFoundPositions 3) s1) sa
    /\ ccxt_close_position (_exchange exchange) (symbol p2) (side p2) (world sa)
       = (Raise e2, w2)
    /\ is_rate_limit e2 = false
    /\ close_turn exchange p3
         {| world := w2;
            trace := trace sa ++
              [EPrint (MsgClosingPosition p2);
               ECall (close_position_req (symbol p2) (side p2));
               EPrint (MsgErrorClosing (symbol p2)
                         ("BitgetExchange operation failed: " ++ str e2) p2)] |}
         sc
    /\ trace (snd (main_body exchange s2))
       = trace sc
         ++ tmid
         ++ EPrint (MsgPositionsStillOpen (List.length ps)) :: position_lines ps
         ++ tend
    /\ In (EPrint MsgFinalVerification) tmid
    /\ In (EPrint (MsgPositionLine (symbol p2) (side p2) (contracts p2)))
          (position_lines ps).
Proof.
  intros Hfetch Hfail H2 H3 H4 Hre Hin Htr Htp Hli.
  destruct (step1_three p1 p2 p3 s2 s1 Hfetch Hfail)
    as (sa & e2 & w2 & sc & H1 & Hturn1 & Hw & He2 & Hturn3).
  rewrite H1 in H2. cbn [snd] in H2.
  destruct (step2_appends sc) as (tB & HtB & _). rewrite H2 in HtB.
  destruct (step3_appends sB) as (tC & HtC & _). rewrite H3 in HtC.
  destruct (step4_appends sC) as (tV & HtV & _). rewrite H4 in HtV.
  destruct (fetch_positions_appends (printed MsgFinalVerification sV))
    as (tP & HtP & _). rewrite Hre in HtP.
  destruct (fetch_trigger_appends sP) as (tT & HtT & _). rewrite Htr in HtT.
  destruct (fetch_tpsl_appends sT) as (tQ & HtQ & _). rewrite Htp in HtQ.
  destruct (fetch_limit_appends sQ) as (tL & HtL & _). rewrite Hli in HtL.
  cbn [snd printed trace] in HtB, HtC, HtV, HtP, HtT, HtQ, HtL.
  destruct (report_orders_appends trigger_orders tpsl_orders limit_orders
              {| world := world sL;
                 trace := trace sL ++ EPrint (MsgPositionsStillOpen (List.length ps))
                                      :: position_lines ps |})
    as (tend & Htend & _).
  cbn [trace] in Htend.
  exists sa, e2, w2, sc,
    (tB ++ tC ++ tV ++ [EPrint MsgFinalVerification] ++ tP ++ tT ++ tQ ++ tL),
    tend.
  split; [exact H1|]. split; [exact Hturn1|]. split; [exact Hw|].
  split; [exact He2|]. split; [exact Hturn3|]. split; [|split].
  - unfold main_body. unfold bind at 1. rewrite H1.
    unfold bind at 1. rewrite H2. unfold bind at 1. rewrite H3.
    unfold bind at 1. rewrite H4.
    unfold final_verification. unfold bind at 1. rewrite print_eq.
    unfold bind at 1. rewrite Hre. unfold bind at 1. rewrite Htr.
    unfold bind at 1. rewrite Htp. unfold bind at 1. rewrite Hli.
    unfold bind at 1. rewrite report_positions_lines
      by (intros ->; destruct Hin).
    rewrite Htend, HtL, HtQ, HtT, HtP, HtV, HtC, HtB.
    repeat (rewrite <- app_assoc; cbn [app]). reflexivity.
  - apply in_or_app. right. apply in_or_app. right. apply in_or_app. right.
    left. reflexivity.
  - unfold position_lines.
    apply (in_map (fun p => EPrint (MsgPositionLine (symbol p) (side p)
                                        (contracts p)))).
    exact Hin.
Qed.

End FailedClose.

Lemma failed_close_does_not_block_witness :
  let exchange := usdt_futures eth_stuck in
  close_always_fails exchange eth_short /\
  trace (snd (step1_close_positions exchange start))
  = [EPrint MsgFetchingPositions;
     ECall (fetch_positions_req [("productType", JStr "USDT-FUTURES")]);
     EPrint (MsgFoundPositions 3);
     EPrint (MsgClosingPosition btc_long);
     ECall (close_position_req "BTC/USDT:USDT" "long");
     EPrint (MsgClosed "long" "BTC/USDT:USDT" (Some 2%Q));
     EPrint (MsgClosingPosition eth_short);
     ECall (close_position_req "ETH/USDT:USDT" "short");
     EPrint (MsgErrorClosing "ETH/USDT:USDT"
               "BitgetExchange operation failed: bitget 22002 No position to close"
               eth_short);
     EPrint (MsgClosingPosition sol_long);
     ECall (close_position_req "SOL/USDT:USDT" "long");
     EPrint (MsgClosed "long" "SOL/USDT:USDT" (Some 10%Q))] /\
  exists sa e2 w2 sc tmid tend,
    step1_close_positions exchange start = (Ok tt, sc)
    /\ close_turn exchange btc_long
         (printed (MsgFoundPositions 3)
            {| world := 1%nat;
               trace := [EPrint MsgFetchingPositions;
                         ECall (fetch_positions_req
                                  [("productType", JStr "USDT-FUTURES")])] |})
         sa
    /\ ccxt_close_position (_exchange exchange) "ETH/USDT:USDT" "short" (world sa)
       = (Raise e2, w2)
    /\ is_rate_limit e2 = false
    /\ close_turn exchange sol_long
         {| world := w2;
            trace := trace sa ++
              [EPrint (MsgClosingPosition eth_short);
               ECall (close_position_req "ETH/USDT:USDT" "short");
               EPrint (MsgErrorClosing "ETH/USDT:USDT"
                         ("BitgetExchange operation failed: " ++ str e2)
                         eth_short)] |}
         sc
    /\ trace (snd (main_body exchange start))
       = trace sc
         ++ tmid
         ++ EPrint (MsgPositionsStillOpen 1) :: position_lines [eth_short]
         ++ tend
    /\ In (EPrint MsgFinalVerification) tmid
    /\ In (EPrint (MsgPositionLine "ETH/USDT:USDT" "short" (Some (3 # 2)%Q)))
          (position_lines [eth_short]).
Proof.
  intros exchange.
  assert (Hfail : close_always_fails exchange eth_short).
  { intros w. exists (Exception "bitget 22002 No position to close"), (S w).
    split; reflexivity. }
  split; [exact Hfail|]. split; [vm_compute; reflexivity|].
  pose (s1 := snd (fetch_open_positions exchange
                     (printed MsgFetchingPositions start))).
  pose (sB := snd (step2_cancel_trigger_orders exchange
                     (snd (step1_close_positions exchange start)))).
  pose (sC := snd (step3_cancel_tpsl_orders exchange sB)).
  pose (sV := snd (step4_cancel_limit_orders exchange sC)).
  pose (sP := snd (fetch_open_positions exchange
                     (printed MsgFinalVerification sV))).
  pose (sT := snd (fetch_open_trigger_orders exchange JNull sP)).
  pose (sQ := snd (fetch_open_tpsl_orders exchange JNull sT)).
  pose (sL := snd (fetch_open_limit_orders exchange JNull sQ)).
  exact (failed_close_does_not_block exchange btc_long eth_short sol_long
           start s1 sB sC sV sP sT sQ sL [eth_short]
           (JList []) (JList []) (JList [])
           eq_refl Hfail eq_refl eq_refl eq_refl eq_refl
           (or_introl eq_refl) eq_refl eq_refl eq_refl).
Defined.

(** * Further properties of the program *)

(** ** The decorator, for any operation *)

Section RetryShape.

Context {W A : Type}.
Variables (N D : Z).

(** Over the attempts [j, ..., N-1] the loop ends on a return of the
    operation or on a wrapped error of the operation: it never runs out. *)
Lemma wrapper_loop_result (func : M W A) (n j : nat) (s : state W) :
  Z.of_nat (j + n) = N ->
  (1 <= n)%nat ->
  match fst (wrapper_loop N D func (map Z.of_nat (seq j n)) s) with
  | Ok None => False
  | Ok (Some v) => exists s0 s1, func s0 = (Ok v, s1)
  | Raise e' => exists e s0 s1, func s0 = (Raise e, s1) /\ e' = operation_failed e
  end.
Proof.
  revert j s. induction n as [|n IH]; intros j s Hj Hn; [lia|].
  change (map Z.of_nat (seq j (S n)))
    with (Z.of_nat j :: map Z.of_nat (seq (S j) n)).
  destruct (func s) as [[v|e] s1] eqn:Hf.
  - rewrite (wrapper_loop_success N D func _ _ s v s1 Hf). cbn [fst]. eauto.
  - destruct (is_rate_limit e) eqn:He;
      [destruct (Z.lt_ge_cases (Z.of_nat j) (N - 1)) as [Hlt|Hge]|].
    + rewrite (wrapper_loop_backoff N D func _ _ s e s1 Hf He Hlt).
      apply IH; lia.
    + rewrite (wrapper_loop_fatal N D func _ _ s e s1 Hf (or_intror Hge)).
      cbn [fst]. eauto.
    + rewrite (wrapper_loop_fatal N D func _ _ s e s1 Hf (or_introl He)).
      cbn [fst]. eauto.
Qed.

(** X1: with at least one attempt configured, a decorated operation whose
    body returns or raises an [Exception] either returns a value its body
    returned or raises the "operation failed" exception built from an
    error its body raised; it never returns [None] in place of a value,
    and the exception it raises is never itself classified as a rate
    limit, so that a caller that retries on rate limits would not retry
    it. *)
Theorem retry_async_result (func : M W A) (s : state W) :
  1 <= N ->
  match fst (retry_async N D func s) with
  | Ok None => False
  | Ok (Some v) => exists s0 s1, func s0 = (Ok v, s1)
  | Raise e' =>
      exists e s0 s1,
        func s0 = (Raise e, s1)
        /\ e' = Exception ("BitgetExchange operation failed: " ++ str e)%string
        /\ is_rate_limit e' = false
  end.
Proof.
  intros HN. unfold retry_async, range.
  pose proof (wrapper_loop_result func (Z.to_nat N) 0 s ltac:(lia) ltac:(lia)) as H.
  destruct (fst (wrapper_loop N D func (map Z.of_nat (seq 0 (Z.to_nat N))) s))
    as [[v|]|e']; try exact H.
  destruct H as (e & s0 & s1 & Hf & ->). exists e, s0, s1.
  split; [exact Hf|]. split; reflexivity.
Qed.

(** Around a single client call, the trace of the loop over the attempts
    [j, ..., N-1] is that of some number [k] of rate-limited attempts, each
    followed by its line and its sleep, and one last attempt. *)
Lemma wrapper_loop_trace (r : request) (op : W -> result A * W)
    (n j : nat) (s : state W) :
  Z.of_nat (j + n) = N ->
  (1 <= n)%nat ->
  exists k,
    (k < n)%nat
    /\ trace (snd (wrapper_loop N D (call r op) (map Z.of_nat (seq j n)) s))
       = trace s ++ retry_trace N D r j k.
Proof.
  revert j s. induction n as [|n IH]; intros j s Hj Hn; [lia|].
  change (map Z.of_nat (seq j (S n)))
    with (Z.of_nat j :: map Z.of_nat (seq (S j) n)).
  destruct s as [w t0]. pose proof (call_eq r op w t0) as Hcall.
  destruct (op w) as [[v|e] w1]; cbn [fst snd] in Hcall.
  - rewrite (wrapper_loop_success N D _ _ _ _ _ _ Hcall).
    exists 0%nat. split; [lia | reflexivity].
  - destruct (is_rate_limit e) eqn:He;
      [destruct (Z.lt_ge_cases (Z.of_nat j) (N - 1)) as [Hlt|Hge]|].
    + rewrite (wrapper_loop_backoff N D _ _ _ _ _ _ Hcall He Hlt).
      cbn [world trace].
      match goal with |- context [wrapper_loop N D _ _ ?s1] =>
        destruct (IH (S j) s1) as (k & Hk & Ht); [lia | lia |]
      end.
      exists (S k). split; [lia|]. rewrite Ht. cbn [trace retry_trace].
      repeat rewrite <- app_assoc. reflexivity.
    + rewrite (wrapper_loop_fatal N D _ _ _ _ _ _ Hcall (or_intror Hge)).
      exists 0%nat. split; [lia | reflexivity].
    + rewrite (wrapper_loop_fatal N D _ _ _ _ _ _ Hcall (or_introl He)).
      exists 0%nat. split; [lia | reflexivity].
Qed.

(** X2: whatever the client does, one invocation of a decorated client
    call makes [k + 1 <= N] calls for some [k], sleeps [D*2^0, ...,
    D*2^(k-1)] in between and nothing else, so that with a base delay
    [D >= 0] it waits [D * (2^k - 1)] in all, at most [D * (2^(N-1) - 1)]
    (15 for the program's 5 attempts and base delay 1). *)
Theorem retry_async_wait_bounded (r : request) (op : W -> result A * W)
    (s : state W) :
  1 <= N ->
  0 <= D ->
  exists k t,
    (k < Z.to_nat N)%nat
    /\ trace (snd (retry_async N D (call r op) s)) = trace s ++ t
    /\ calls t = repeat r (S k)
    /\ sleeps t = map (fun i => D * 2 ^ i) (range (Z.of_nat k))
    /\ sum (sleeps t) = D * (2 ^ Z.of_nat k - 1)
    /\ sum (sleeps t) <= D * (2 ^ (N - 1) - 1).
Proof.
  intros HN HD.
  destruct (wrapper_loop_trace r op (Z.to_nat N) 0 s ltac:(lia) ltac:(lia))
    as (k & Hk & Ht).
  exists k, (retry_trace N D r 0 k).
  assert (Hsum : sum (sleeps (retry_trace N D r 0 k)) = D * (2 ^ Z.of_nat k - 1)).
  { rewrite sleeps_retry_trace, sum_backoff_delays. simpl (2 ^ Z.of_nat 0). lia. }
  split; [exact Hk|]. split; [exact Ht|]. split; [apply calls_retry_trace|].
  split.
  { rewrite sleeps_retry_trace. unfold backoff_delays, range.
    rewrite Nat2Z.id. reflexivity. }
  split; [exact Hsum|]. rewrite Hsum.
  apply Z.mul_le_mono_nonneg_l; [exact HD|].
  assert (2 ^ Z.of_nat k <= 2 ^ (N - 1)) by (apply Z.pow_le_mono_r; lia).
  lia.
Qed.

End RetryShape.

Lemma retry_async_result_witness :
  1 <= 5 /\
  match fst (retry_async 5 1 (call load_markets_req (step limited_twice)) start) with
  | Ok None => False
  | Ok (Some v) =>
      exists s0 s1, call load_markets_req (step limited_twice) s0 = (Ok v, s1)
  | Raise e' =>
      exists e s0 s1,
        call load_markets_req (step limited_twice) s0 = (Raise e, s1)
        /\ e' = Exception ("BitgetExchange operation failed: " ++ str e)%string
        /\ is_rate_limit e' = false
  end.
Proof.
  split; [lia|].
  apply (retry_async_result 5 1 (call load_markets_req (step limited_twice)) start).
  lia.
Defined.

Lemma retry_async_wait_bounded_witness :
  1 <= 5 /\ 0 <= 1 /\
  exists k t,
    (k < Z.to_nat 5)%nat
    /\ trace (snd (retry_async 5 1 (call close_req (step (@rate_limited unit))) start))
       = trace start ++ t
    /\ calls t = repeat close_req (S k)
    /\ sleeps t = map (fun i => 1 * 2 ^ i) (range (Z.of_nat k))
    /\ sum (sleeps t) = 1 * (2 ^ Z.of_nat k - 1)
    /\ sum (sleeps t) <= 1 * (2 ^ (5 - 1) - 1).
Proof.
  split; [lia|]. split; [lia|].
  apply (retry_async_wait_bounded 5 1 close_req (step (@rate_limited unit)) start);
    lia.
Defined.

(** ** [_format_symbol] *)

Lemma str_contains_char_cons (ch c : ascii) (x : string) :
  str_contains (String ch EmptyString) (String c x)
  = (Ascii.eqb ch c || str_contains (String ch EmptyString) x)%bool.
Proof.
  unfold str_contains. cbn [String.index String.prefix].
  destruct (ascii_dec ch c) as [->|Hne].
  - rewrite Ascii.eqb_refl. destruct x; reflexivity.
  - apply Ascii.eqb_neq in Hne. rewrite Hne.
    destruct (String.index 0 (String ch EmptyString) x); reflexivity.
Qed.

Lemma str_contains_char_nil (ch : ascii) :
  str_contains (String ch EmptyString) EmptyString = false.
Proof. reflexivity. Qed.

Lemma replace_slash_no_slash (s : string) :
  str_contains "/" (replace_slash s) = false.
Proof.
  induction s as [|c s IH]; [reflexivity|]. cbn [replace_slash].
  destruct (Ascii.eqb c "/") eqn:Hc; [exact IH|].
  rewrite str_contains_char_cons, IH, Ascii.eqb_sym, Hc. reflexivity.
Qed.

Lemma replace_slash_keeps_no_colon (s : string) :
  str_contains ":" s = false -> str_contains ":" (replace_slash s) = false.
Proof.
  induction s as [|c s IH]; [reflexivity|]. cbn [replace_slash].
  rewrite str_contains_char_cons. intros H.
  apply orb_false_iff in H. destruct H as [Hc Hs].
  destruct (Ascii.eqb c "/"); [exact (IH Hs)|].
  rewrite str_contains_char_cons, Hc, (IH Hs). reflexivity.
Qed.

Lemma split_colon_0_no_colon (s : string) :
  str_contains ":" (split_colon_0 s) = false.
Proof.
  induction s as [|c s IH]; [reflexivity|]. cbn [split_colon_0].
  destruct (Ascii.eqb c ":") eqn:Hc; [reflexivity|].
  rewrite str_contains_char_cons, IH, Ascii.eqb_sym, Hc. reflexivity.
Qed.

Lemma replace_slash_without_slash (s : string) :
  str_contains "/" s = false -> replace_slash s = s.
Proof.
  induction s as [|c s IH]; [reflexivity|]. rewrite str_contains_char_cons.
  intros H. apply orb_false_iff in H. destruct H as [Hc Hs].
  cbn [replace_slash]. rewrite Ascii.eqb_sym, Hc, (IH Hs). reflexivity.
Qed.

(** X3: [_format_symbol] maps every string to a string without ['/'].  A
    symbol that has a ['/'] is cut at its first [':'] and loses its
    slashes, so the result has no [':'] either; a symbol without ['/'] is
    returned as it is, a [':'] in it included; and formatting a formatted
    symbol changes nothing. *)
Theorem format_symbol_string (s : string) :
  exists r,
    _format_symbol (JStr s) = Ok (JStr r)
    /\ str_contains "/" r = false
    /\ (str_contains "/" s = true ->
        r = replace_slash (split_colon_0 s) /\ str_contains ":" r = false)
    /\ (str_contains "/" s = false -> r = s)
    /\ _format_symbol (JStr r) = Ok (JStr r).
Proof.
  unfold _format_symbol. cbn [py_in].
  destruct (str_contains "/" s) eqn:Hs.
  - exists (replace_slash (split_colon_0 s)).
    rewrite replace_slash_no_slash.
    split; [reflexivity|]. split; [reflexivity|].
    split; [intros _; split; [reflexivity|]|split; [discriminate|reflexivity]].
    apply replace_slash_keeps_no_colon, split_colon_0_no_colon.
  - exists s. rewrite Hs.
    split; [reflexivity|]. split; [reflexivity|].
    split; [discriminate|]. split; reflexivity.
Qed.

(** The unified symbol of a perpetual contract and the exchange's own. *)
Example format_symbol_unified :
  _format_symbol (JStr "BTC/USDT:USDT") = Ok (JStr "BTCUSDT")
  /\ _format_symbol (JStr "BTCUSDT") = Ok (JStr "BTCUSDT").
Proof. split; reflexivity. Qed.

(** ** [fetch_open_positions] *)

Lemma is_open_positive (p : position) :
  is_open p = true -> positive_contracts p.
Proof.
  unfold is_open, positive_contracts. destruct (contracts p) as [c|]; [|discriminate].
  intros H. exists c. split; [reflexivity|].
  apply negb_true_iff in H. apply Qnot_le_lt. intros Hle.
  apply Qle_bool_iff in Hle. congruence.
Qed.

(** X4: whenever [fetch_open_positions] returns, it returns a list, and the
    list is what one answer of the client's [fetch_positions], asked with
    the product type alone, leaves once the positions without a size or
    with a size of zero or less are dropped, in the order of the answer:
    every position returned has a size above zero. *)
Theorem fetch_open_positions_open {W} (self : BitgetExchange W)
    (s s' : state W) (o : option (list position)) :
  fetch_open_positions self s = (Ok o, s') ->
  exists l answer w w',
    o = Some l
    /\ ccxt_fetch_positions (_exchange self)
         [("productType", JStr (product_type self))] w = (Ok answer, w')
    /\ l = filter is_open answer
    /\ Forall positive_contracts l.
Proof.
  intros Hrun. unfold fetch_open_positions, retry_async, range in Hrun.
  match type of Hrun with wrapper_loop ?N ?D ?f _ _ = _ =>
    pose proof (wrapper_loop_result N D f (Z.to_nat N) 0 s eq_refl
                  ltac:(unfold MAX_RETRIES; lia)) as H
  end.
  rewrite Hrun in H. cbn [fst] in H. destruct o as [l|]; [|contradiction].
  destruct H as (s0 & s1 & Hf). cbv zeta in Hf. unfold bind, call, ret in Hf.
  destruct (ccxt_fetch_positions (_exchange self)
              [("productType", JStr (product_type self))] (world s0))
    as [[answer|e] w'] eqn:Hanswer; [|discriminate].
  injection Hf as <- _. exists (filter is_open answer), answer, (world s0), w'.
  split; [reflexivity|]. split; [exact Hanswer|]. split; [reflexivity|].
  apply Forall_forall. intros p Hin. apply filter_In in Hin.
  apply is_open_positive. tauto.
Qed.

Lemma fetch_open_positions_open_witness :
  fetch_open_positions (usdt_futures mixed_positions) start
  = (Ok (Some [btc_long]),
     {| world := 1%nat;
        trace := [ECall (fetch_positions_req [("productType", JStr "USDT-FUTURES")])] |})
  /\ Forall positive_contracts [btc_long].
Proof.
  assert (H : fetch_open_positions (usdt_futures mixed_positions) start
              = (Ok (Some [btc_long]),
                 {| world := 1%nat;
                    trace := [ECall (fetch_positions_req
                                       [("productType", JStr "USDT-FUTURES")])] |}))
    by reflexivity.
  split; [exact H|].
  destruct (fetch_open_positions_open _ _ _ _ H) as (l & a & w & w' & Hl & _ & _ & Hall).
  injection Hl as ->. exact Hall.
Defined.

(** ** [get_bitget_api_credentials] *)

(** Closes one path through [get_bitget_api_credentials]. *)
Ltac credentials_leaf :=
  eexists; split; [reflexivity|];
  first [ eexists; reflexivity
        | eexists _, _, _, _; repeat (split; [eassumption || reflexivity|]);
          reflexivity ].

(** X5: [get_bitget_api_credentials] touches neither the client nor the
    output, and it returns the credentials exactly when the accounts hold
    them.  When the account ["bitget1"] is there with a non-empty
    [public_api], a non-empty [secret_api] and a [password], the loader
    returns these three under [apiKey], [secret] and [password]; whenever
    it returns, the account was such an account; and in every other case
    (no such account, an empty or missing key, a missing password, accounts
    that are not a dict) it raises one exception whose text starts with
    "Failed to load API credentials: ". *)
Theorem credentials_result {W} (ACCOUNTS : json) (s : state W) :
  (forall d public_api secret_api password,
     py_get ACCOUNTS "bitget1" (JDict []) = Ok (JDict d) ->
     lookup "public_api" d = Some public_api ->
     truthy public_api = true ->
     lookup "secret_api" d = Some secret_api ->
     truthy secret_api = true ->
     lookup "password" d = Some password ->
     get_bitget_api_credentials ACCOUNTS s
     = (Ok [("apiKey", public_api); ("secret", secret_api);
            ("password", password)], s))
  /\ exists r,
    get_bitget_api_credentials ACCOUNTS s = (r, s)
    /\ match r with
       | Raise e =>
           exists cause,
             e = Exception ("Failed to load API credentials: " ++ cause)%string
       | Ok api_setup =>
           exists account public_api secret_api password,
             py_get ACCOUNTS "bitget1" (JDict []) = Ok account
             /\ py_getitem account "public_api" = Ok public_api
             /\ truthy public_api = true
             /\ py_getitem account "secret_api" = Ok secret_api
             /\ truthy secret_api = true
             /\ py_getitem account "password" = Ok password
             /\ api_setup = [("apiKey", public_api); ("secret", secret_api);
                             ("password", password)]
       end.
Proof.
  split.
  { intros d pa sa pw Hacc Hpa Htpa Hsa Htsa Hpw.
    unfold get_bitget_api_credentials, try_except, bind, lift, ret, raise.
    cbv zeta. rewrite Hacc.
    assert (Hd : truthy (JDict d) = true)
      by (destruct d; [discriminate Hpa | reflexivity]).
    rewrite Hd. cbn [negb py_get py_getitem].
    rewrite Hpa, Htpa. cbn [negb]. rewrite Hsa, Htsa. cbn [negb].
    rewrite Hpw. reflexivity. }
  unfold get_bitget_api_credentials, try_except, bind, lift, ret, raise.
  cbv zeta.
  destruct (py_get ACCOUNTS "bitget1" (JDict [])) as [account|e] eqn:Hacc;
    [|credentials_leaf].
  destruct (truthy account) eqn:Htruthy; cbn [negb]; [|credentials_leaf].
  destruct (py_get account "public_api" JNull) as [pa|e] eqn:Hpa;
    [|credentials_leaf].
  destruct (truthy pa) eqn:Htpa; cbn [negb]; [|credentials_leaf].
  destruct (py_get account "secret_api" JNull) as [sa|e] eqn:Hsa;
    [|credentials_leaf].
  destruct (truthy sa) eqn:Htsa; cbn [negb]; [|credentials_leaf].
  destruct account as [| | | | | |d]; try discriminate.
  cbn [py_get py_getitem] in *.
  destruct (lookup "public_api" d) as [pa'|] eqn:Hlpa;
    [|injection Hpa as <-; discriminate].
  destruct (lookup "secret_api" d) as [sa'|] eqn:Hlsa;
    [|injection Hsa as <-; discriminate].
  injection Hpa as ->. injection Hsa as ->.
  destruct (lookup "password" d) as [pw|] eqn:Hlpw.
  - eexists. split; [reflexivity|].
    exists (JDict d), pa, sa, pw. cbn [py_getitem].
    rewrite Hlpa, Hlsa, Hlpw. auto 10.
  - credentials_leaf.
Qed.

(** The accounts of the concrete runs, and what the loader makes of them. *)
Example credentials_loaded :
  get_bitget_api_credentials valid_accounts start
  = (Ok [("apiKey", JStr "key"); ("secret", JStr "secret");
         ("password", JStr "pass")], start).
Proof. reflexivity. Qed.

(** No account, an account without password: the two texts. *)
Example credentials_missing :
  fst (get_bitget_api_credentials (JDict []) start)
  = Raise (Exception "Failed to load API credentials: Invalid API credentials for bitget1 in secret.py")
  /\ fst (get_bitget_api_credentials
            (JDict [("bitget1", JDict [("public_api", JStr "key");
                                       ("secret_api", JStr "secret")])]) start)
     = Raise (Exception "Failed to load API credentials: 'password'").
Proof. split; reflexivity. Qed.

(** ** The run as a whole *)

Lemma credentials_state {W} (ACCOUNTS : json) (s : state W) :
  snd (get_bitget_api_credentials ACCOUNTS s) = s.
Proof.
  unfold get_bitget_api_credentials, try_except, bind, lift, ret, raise.
  cbv zeta.
  repeat (match goal with
          | |- context [py_get ?a ?b ?c] => destruct (py_get a b c)
          | |- context [py_getitem ?a ?b] => destruct (py_getitem a b)
          | |- context [truthy ?a] => destruct (truthy a)
          end; cbn [negb snd]);
    reflexivity.
Qed.

(** X6: no [Exception] escapes [main].  Whatever the accounts hold, and
    whatever the client answers and whichever [Exception] it raises, the
    run returns, its first line is the opening line and its last line the
    closing one. *)
Theorem no_exception_escapes_main {W} (ccxt_new : dict -> ccxt_bitget W)
    (ACCOUNTS : json) (s : state W) :
  exists s' t,
    main ccxt_new ACCOUNTS s = (Ok tt, s')
    /\ trace s' = trace s ++ EPrint MsgStarting :: t ++ [EPrint MsgCompleted].
Proof.
  unfold main. cbv zeta. unfold bind at 1. rewrite print_eq.
  unfold bind at 1, try_except.
  match goal with |- context [bind (get_bitget_api_credentials ACCOUNTS) ?k] =>
    assert (Hm : emits (fun _ => True)
                   (bind (get_bitget_api_credentials (W:=W) ACCOUNTS) k))
      by (emits_program ltac:(exact I));
    destruct (Hm (printed MsgStarting s)) as (t & Ht & _);
    destruct (bind (get_bitget_api_credentials ACCOUNTS) k (printed MsgStarting s))
      as [[[]|e] s1]
  end; cbn [snd printed trace] in Ht; rewrite !print_eq.
  - eexists; exists t. split; [reflexivity|].
    unfold printed. cbn [trace]. rewrite Ht.
    repeat (rewrite <- app_assoc; cbn [app]). reflexivity.
  - eexists; exists (t ++ [EPrint (MsgError (str e))]). split; [reflexivity|].
    unfold printed. cbn [trace]. rewrite Ht.
    repeat (rewrite <- app_assoc; cbn [app]). reflexivity.
Qed.

(** X7: when the credentials cannot be loaded the run makes no client call
    at all: it prints the opening line, the error and the closing line,
    and leaves the world as it was. *)
Theorem main_without_credentials {W} (ccxt_new : dict -> ccxt_bitget W)
    (ACCOUNTS : json) (s : state W) (e : exn) :
  fst (get_bitget_api_credentials ACCOUNTS (printed MsgStarting s)) = Raise e ->
  main ccxt_new ACCOUNTS s
  = (Ok tt,
     {| world := world s;
        trace := trace s ++ [EPrint MsgStarting; EPrint (MsgError (str e));
                             EPrint MsgCompleted] |}).
Proof.
  intros Hcred.
  pose proof (credentials_state ACCOUNTS (printed MsgStarting s)) as Hst.
  destruct (get_bitget_api_credentials ACCOUNTS (printed MsgStarting s))
    as [r s1] eqn:Hrun.
  cbn [fst snd] in *. subst r s1.
  unfold main. cbv zeta. unfold bind at 1. rewrite print_eq.
  unfold bind at 1, try_except, bind at 1. rewrite Hrun.
  rewrite !print_eq. unfold printed. cbn [world trace].
  repeat (rewrite <- app_assoc; cbn [app]). reflexivity.
Qed.

Lemma main_without_credentials_witness :
  fst (get_bitget_api_credentials (JDict []) (printed MsgStarting start))
  = Raise (Exception "Failed to load API credentials: Invalid API credentials for bitget1 in secret.py")
  /\ main flat_account (JDict []) start
     = (Ok tt,
        {| world := 0%nat;
           trace := [EPrint MsgStarting;
                     EPrint (MsgError "Failed to load API credentials: Invalid API credentials for bitget1 in secret.py");
                     EPrint MsgCompleted] |}).
Proof.
  split; [reflexivity|].
  exact (main_without_credentials flat_account (JDict []) start _ eq_refl).
Defined.

Lemma load_markets_only {W} (self : BitgetExchange W) :
  emits only_load_markets (load_markets self).
Proof. emits_program ltac:(exact I). Qed.

(** X8: when the market metadata cannot be loaded, nothing downstream
    runs: the client is called for [load_markets] (once, or again after a
    rate limit) and for nothing else, and the run ends with the error
    report and the closing line. *)
Theorem acquisition_failure_stops_run {W} (ccxt_new : dict -> ccxt_bitget W)
    (ACCOUNTS : json) (s0 s2 : state W) (api_setup : dict) (e : exn) :
  let s1 := printed MsgStarting s0 in
  let mgr := BitgetExchange_init ccxt_new api_setup "USDT-FUTURES" in
  get_bitget_api_credentials ACCOUNTS s1 = (Ok api_setup, s1) ->
  load_markets mgr s1 = (Raise e, s2) ->
  main ccxt_new ACCOUNTS s0
  = (Ok tt,
     {| world := world s2;
        trace := trace s2 ++ [EPrint (MsgError (str e)); EPrint MsgCompleted] |})
  /\ exists t,
       trace s2 = trace s1 ++ ECall load_markets_req :: t
       /\ Forall only_load_markets t.
Proof.
  intros s1 mgr Hcred Hload. split.
  - unfold main. cbv zeta. unfold bind at 1. rewrite print_eq. fold s1.
    unfold bind at 1, try_except at 1, bind at 1.
    rewrite Hcred. fold mgr. unfold async_with, bind at 1.
    unfold aenter, bind at 1. rewrite Hload.
    rewrite !print_eq. unfold printed. cbn [world trace].
    repeat (rewrite <- app_assoc; cbn [app]). reflexivity.
  - destruct (load_markets_only mgr s1) as (t & Ht & HP).
    assert (Hfirst : exists u,
               trace (snd (load_markets mgr s1))
               = trace s1 ++ ECall load_markets_req :: u).
    { unfold load_markets. apply retry_async_first_event.
      - unfold MAX_RETRIES. lia.
      - emits_program ltac:(exact I).
      - apply call_bind_first_event. intros v. apply emits_ret. }
    destruct Hfirst as (u & Hu). rewrite Hload in Ht, Hu. cbn [snd] in Ht, Hu.
    exists u. split; [exact Hu|].
    rewrite Hu in Ht. apply app_inv_head in Ht. subst t.
    inversion HP; assumption.
Qed.

Lemma acquisition_failure_stops_run_witness :
  let s1 := printed MsgStarting start in
  let api := [("apiKey", JStr "key"); ("secret", JStr "secret");
              ("password", JStr "pass")] in
  let e := operation_failed (Exception "bitget GET markets: connection reset") in
  let s2 := {| world := 1%nat;
               trace := [EPrint MsgStarting; ECall load_markets_req] |} in
  get_bitget_api_credentials valid_accounts s1 = (Ok api, s1) /\
  load_markets (BitgetExchange_init markets_down api "USDT-FUTURES") s1
  = (Raise e, s2) /\
  main markets_down valid_accounts start
  = (Ok tt,
     {| world := 1%nat;
        trace := trace s2 ++ [EPrint (MsgError (str e)); EPrint MsgCompleted] |}).
Proof.
  intros s1 api e s2. split; [reflexivity|]. split; [reflexivity|].
  exact (proj1 (acquisition_failure_stops_run markets_down valid_accounts
                  start s2 api e eq_refl eq_refl)).
Defined.

(** ** The closing loop *)

(** The closing loop never raises and skips no position: it gives every
    position of the list its turn, in the order of the list. *)
Lemma closing_loop_turns {W} (exchange : BitgetExchange W)
    (ps : list position) (s : state W) :
  exists s',
    for_each ps (close_one_position exchange) s = (Ok tt, s')
    /\ closing_turns exchange ps s s'.
Proof.
  revert s. induction ps as [|p ps IH]; intros s.
  - exists s. split; reflexivity.
  - destruct (close_one_position_turn exchange p s) as (s1 & Hrun & Hturn).
    destruct (IH s1) as (s' & Hrest & Hturns).
    exists s'. cbn [for_each closing_turns]. unfold bind. rewrite Hrun.
    split; [exact Hrest|]. exists s1. split; assumption.
Qed.

(** ** The cancel loops *)

Lemma outcome_ids_app (t u : list event) :
  outcome_ids (t ++ u) = outcome_ids t ++ outcome_ids u.
Proof. unfold outcome_ids. rewrite prints_app. apply flat_map_app. Qed.

Lemma outcome_ids_quiet (t : list event) :
  Forall no_outcome t -> outcome_ids t = [].
Proof.
  induction 1 as [|ev t Hev _ IH]; [reflexivity|].
  change (ev :: t) with ([ev] ++ t). rewrite outcome_ids_app, IH, app_nil_r.
  destruct ev; try reflexivity. unfold outcome_ids. cbn. rewrite app_nil_r.
  exact Hev.
Qed.

Section CancelItems.

Context {W : Type}.
Variable cancel : json -> json -> M W (option unit).
Variable done : json -> json -> message.
Variable failed : json -> string -> message.
Hypothesis cancel_quiet : forall symbol order_id, emits no_outcome (cancel symbol order_id).
Hypothesis done_id : forall order_id symbol, outcome_id (done order_id symbol) = [order_id].
Hypothesis failed_id : forall order_id err, outcome_id (failed order_id err) = [order_id].

Lemma cancel_item_outcome (order symbol order_id : json) (s : state W) :
  py_getitem order "symbol" = Ok symbol ->
  py_getitem order "orderId" = Ok order_id ->
  exists s' t,
    cancel_item cancel done failed order s = (Ok tt, s')
    /\ trace s' = trace s ++ t
    /\ outcome_ids t = [order_id].
Proof.
  intros Hs Hi. unfold cancel_item. rewrite Hs, Hi. cbn [lift].
  unfold bind at 1, ret at 1. unfold bind at 1, ret at 1.
  unfold try_except, bind.
  destruct (cancel_quiet symbol order_id s) as (t & Ht & Hq).
  destruct (cancel symbol order_id s) as [[o|e] s1]; cbn [snd] in Ht;
    rewrite print_eq; eexists; eexists; (split; [reflexivity|]);
    unfold printed; cbn [trace]; rewrite Ht, <- app_assoc;
    (split; [reflexivity|]);
    rewrite outcome_ids_app, (outcome_ids_quiet t Hq); unfold outcome_ids;
    cbn; rewrite app_nil_r; auto.
Qed.

Lemma cancel_items_isolated (items : list json) (s : state W) :
  Forall has_symbol_and_id items ->
  exists s' t,
    for_each items (cancel_item cancel done failed) s = (Ok tt, s')
    /\ trace s' = trace s ++ t
    /\ Forall2 (fun order order_id => py_getitem order "orderId" = Ok order_id)
               items (outcome_ids t).
Proof.
  intros Hall. revert s. induction Hall as [|order items Hk _ IH]; intros s.
  - exists s, []. cbn [for_each]. rewrite app_nil_r.
    split; [reflexivity|]. split; [reflexivity | constructor].
  - destruct Hk as (symbol & order_id & Hs & Hi).
    destruct (cancel_item_outcome order symbol order_id s Hs Hi)
      as (s1 & t & Hrun & Ht & Hid).
    destruct (IH s1) as (s' & u & Hrest & Hu & Hids).
    exists s', (t ++ u). cbn [for_each]. unfold bind. rewrite Hrun.
    split; [exact Hrest|]. split; [rewrite Hu, Ht, app_assoc; reflexivity|].
    rewrite outcome_ids_app, Hid. constructor; assumption.
Qed.

Lemma cancel_item_turn (order : json) (s : state W) :
  has_symbol_and_id order ->
  exists s', cancel_item cancel done failed order s = (Ok tt, s')
             /\ cancel_turn cancel done failed order s s'.
Proof.
  intros (symbol & order_id & Hs & Hi). unfold cancel_item, cancel_turn.
  rewrite Hs, Hi. cbn [lift]. unfold bind at 1, ret at 1.
  unfold bind at 1, ret at 1. unfold try_except, bind.
  destruct (cancel symbol order_id s) as [r s1] eqn:Hrun.
  exists (printed (match r with
                   | Ok _ => done order_id symbol
                   | Raise e => failed order_id (str e)
                   end) s1).
  split.
  - destruct r as [o|e]; rewrite print_eq; reflexivity.
  - exists symbol, order_id, r, s1. auto.
Qed.

Lemma cancel_items_turns (items : list json) (s : state W) :
  Forall has_symbol_and_id items ->
  exists s', for_each items (cancel_item cancel done failed) s = (Ok tt, s')
             /\ cancel_turns cancel done failed items s s'.
Proof.
  intros Hall. revert s. induction Hall as [|order items Hk _ IH]; intros s.
  - exists s. split; reflexivity.
  - destruct (cancel_item_turn order s Hk) as (s1 & Hrun & Hturn).
    destruct (IH s1) as (s' & Hrest & Hturns).
    exists s'. cbn [for_each cancel_turns]. unfold bind. rewrite Hrun.
    split; [exact Hrest|]. exists s1. split; assumption.
Qed.

Lemma cancel_items_abort (order : json) (rest : list json) (e : exn)
    (s : state W) :
  key_lookup_fails order e ->
  for_each (order :: rest) (cancel_item cancel done failed) s = (Raise e, s).
Proof.
  intros [Hs | (symbol & Hs & Hi)]; cbn [for_each]; unfold bind at 1, cancel_item.
  - rewrite Hs. reflexivity.
  - rewrite Hs, Hi. reflexivity.
Qed.

End CancelItems.

Section CancelLoops.

Context {W : Type}.
Variable exchange : BitgetExchange W.

Lemma cancel_trigger_order_quiet (symbol order_id : json) :
  emits no_outcome (cancel_trigger_order exchange symbol order_id).
Proof. emits_program ltac:(first [exact I | reflexivity]). Qed.

Lemma cancel_limit_order_quiet (symbol order_id : json) :
  emits no_outcome (cancel_limit_order exchange symbol order_id).
Proof. emits_program ltac:(first [exact I | reflexivity]). Qed.

(** The loop results of [cancel_items_isolated] and [cancel_items_turns]
    together. *)
Lemma cancel_loop_run (cancel : json -> json -> M W (option unit))
    (done : json -> json -> message) (failed : json -> string -> message)
    (items : list json) (s : state W) :
  (forall symbol order_id, emits no_outcome (cancel symbol order_id)) ->
  (forall order_id symbol, outcome_id (done order_id symbol) = [order_id]) ->
  (forall order_id err, outcome_id (failed order_id err) = [order_id]) ->
  Forall has_symbol_and_id items ->
  exists s' t,
    for_each items (cancel_item cancel done failed) s = (Ok tt, s')
    /\ cancel_turns cancel done failed items s s'
    /\ trace s' = trace s ++ t
    /\ Forall2 (fun order order_id => py_getitem order "orderId" = Ok order_id)
               items (outcome_ids t).
Proof.
  intros Hq Hd Hf Hall.
  destruct (cancel_items_isolated cancel done failed Hq Hd Hf items s Hall)
    as (s' & t & Hrun & Ht & Hids).
  destruct (cancel_items_turns cancel done failed items s Hall)
    as (s'' & Hrun' & Hturns).
  rewrite Hrun in Hrun'. injection Hrun' as <-.
  exists s', t. auto.
Qed.

(** X10: in each of the three cancel loops a failing cancel never blocks
    the others.  Over orders that all carry a symbol and an order id, and
    whatever the client answers and whichever [Exception] it raises, the
    loop runs to its end and gives every order its turn, in the order of
    the list: the cancel method runs on the order's symbol and id, and the
    one outcome line printed for the order names its id and reports the
    result of that very cancel, cancelled when it returned and the error's
    text when it raised. *)
Theorem cancel_loops_isolated (items : list json) (s : state W) :
  Forall has_symbol_and_id items ->
  (exists s' t,
     for_each items (cancel_one_trigger_order exchange) s = (Ok tt, s')
     /\ cancel_turns (cancel_trigger_order exchange)
          MsgCanceledTrigger MsgErrorCancelTrigger items s s'
     /\ trace s' = trace s ++ t
     /\ Forall2 (fun order order_id => py_getitem order "orderId" = Ok order_id)
                items (outcome_ids t))
  /\ (exists s' t,
        for_each items (cancel_one_tpsl_order exchange) s = (Ok tt, s')
        /\ cancel_turns (cancel_trigger_order exchange)
             MsgCanceledTpsl MsgErrorCancelTpsl items s s'
        /\ trace s' = trace s ++ t
        /\ Forall2 (fun order order_id => py_getitem order "orderId" = Ok order_id)
                   items (outcome_ids t))
  /\ (exists s' t,
        for_each items (cancel_one_limit_order exchange) s = (Ok tt, s')
        /\ cancel_turns (cancel_limit_order exchange)
             MsgCanceledLimit MsgErrorCancelLimit items s s'
        /\ trace s' = trace s ++ t
        /\ Forall2 (fun order order_id => py_getitem order "orderId" = Ok order_id)
                   items (outcome_ids t)).
Proof.
  intros Hall. split; [|split].
  - exact (cancel_loop_run (cancel_trigger_order exchange)
             MsgCanceledTrigger MsgErrorCancelTrigger items s
             cancel_trigger_order_quiet (fun _ _ => eq_refl) (fun _ _ => eq_refl)
             Hall).
  - exact (cancel_loop_run (cancel_trigger_order exchange)
             MsgCanceledTpsl MsgErrorCancelTpsl items s
             cancel_trigger_order_quiet (fun _ _ => eq_refl) (fun _ _ => eq_refl)
             Hall).
  - exact (cancel_loop_run (cancel_limit_order exchange)
             MsgCanceledLimit MsgErrorCancelLimit items s
             cancel_limit_order_quiet (fun _ _ => eq_refl) (fun _ _ => eq_refl)
             Hall).
Qed.

(** X11: the two keys of an order are read before the [try] of the loop
    body, so an order that misses ["symbol"] or ["orderId"] is not
    isolated: in each of the three loops the lookup error leaves the loop
    at that order, nothing is printed or sent for it, and the orders after
    it are not processed. *)
Theorem cancel_loops_abort_on_missing_key (order : json) (rest : list json)
    (e : exn) (s : state W) :
  key_lookup_fails order e ->
  for_each (order :: rest) (cancel_one_trigger_order exchange) s = (Raise e, s)
  /\ for_each (order :: rest) (cancel_one_tpsl_order exchange) s = (Raise e, s)
  /\ for_each (order :: rest) (cancel_one_limit_order exchange) s = (Raise e, s).
Proof.
  intros Hk. split; [|split].
  - exact (cancel_items_abort (cancel_trigger_order exchange)
             MsgCanceledTrigger MsgErrorCancelTrigger order rest e s Hk).
  - exact (cancel_items_abort (cancel_trigger_order exchange)
             MsgCanceledTpsl MsgErrorCancelTpsl order rest e s Hk).
  - exact (cancel_items_abort (cancel_limit_order exchange)
             MsgCanceledLimit MsgErrorCancelLimit order rest e s Hk).
Qed.

End CancelLoops.

Lemma cancel_loops_isolated_witness :
  Forall has_symbol_and_id [tpsl_order; limit_order] /\
  exists s' t,
    for_each [tpsl_order; limit_order]
      (cancel_one_limit_order (usdt_futures flat_account)) start = (Ok tt, s')
    /\ cancel_turns (cancel_limit_order (usdt_futures flat_account))
         MsgCanceledLimit MsgErrorCancelLimit [tpsl_order; limit_order] start s'
    /\ trace s' = trace start ++ t
    /\ Forall2 (fun order order_id => py_getitem order "orderId" = Ok order_id)
               [tpsl_order; limit_order] (outcome_ids t).
Proof.
  assert (H : Forall has_symbol_and_id [tpsl_order; limit_order]).
  { repeat constructor; eexists _, _; split; reflexivity. }
  split; [exact H|].
  exact (proj2 (proj2 (cancel_loops_isolated (usdt_futures flat_account)
                         [tpsl_order; limit_order] start H))).
Defined.

Lemma cancel_loops_abort_on_missing_key_witness :
  key_lookup_fails (JDict [("symbol", JStr "BTCUSDT")]) (KeyError "orderId") /\
  for_each [JDict [("symbol", JStr "BTCUSDT")]; tpsl_order]
    (cancel_one_tpsl_order (usdt_futures flat_account)) start
  = (Raise (KeyError "orderId"), start).
Proof.
  assert (H : key_lookup_fails (JDict [("symbol", JStr "BTCUSDT")])
                (KeyError "orderId")).
  { right. exists (JStr "BTCUSDT"). split; reflexivity. }
  split; [exact H|].
  exact (proj1 (proj2 (cancel_loops_abort_on_missing_key
                         (usdt_futures flat_account)
                         (JDict [("symbol", JStr "BTCUSDT")]) [tpsl_order]
                         (KeyError "orderId") start H))).
Defined.

Lemma format_symbol_error (symbol : json) (e : exn) :
  _format_symbol symbol = Raise e -> is_rate_limit e = false.
Proof.
  unfold _format_symbol. destruct symbol; cbn [py_in];
    repeat match goal with
           | |- context [if ?b then _ else _] => destruct b
           | |- context [match ?x with Some _ => _ | None => _ end] => destruct x
           end;
    intros H; try discriminate; injection H as <-; reflexivity.
Qed.

Section CancelEdges.

Context {W : Type}.
Variable exchange : BitgetExchange W.

Lemma cancel_trigger_order_unformattable (symbol order_id : json) (e : exn)
    (s : state W) :
  _format_symbol symbol = Raise e ->
  cancel_trigger_order exchange symbol order_id s = (Raise (operation_failed e), s).
Proof.
  intros He. unfold cancel_trigger_order.
  apply retry_async_other_error.
  - unfold MAX_RETRIES. lia.
  - rewrite He. reflexivity.
  - exact (format_symbol_error symbol e He).
Qed.

Lemma cancel_limit_order_unformattable (symbol order_id : json) (e : exn)
    (s : state W) :
  _format_symbol symbol = Raise e ->
  cancel_limit_order exchange symbol order_id s = (Raise (operation_failed e), s).
Proof.
  intros He. unfold cancel_limit_order.
  apply retry_async_other_error.
  - unfold MAX_RETRIES. lia.
  - rewrite He. reflexivity.
  - exact (format_symbol_error symbol e He).
Qed.

(** X12: an order whose symbol cannot be formatted (a [null], a number) is
    isolated, unlike an order that misses a key: in each loop no cancel is
    sent for it, the error raised inside the decorated method is wrapped,
    caught by the loop body and printed with the order's id, and the loop
    goes on. *)
Theorem unformattable_symbol_isolated (order symbol order_id : json) (e : exn)
    (s : state W) :
  py_getitem order "symbol" = Ok symbol ->
  py_getitem order "orderId" = Ok order_id ->
  _format_symbol symbol = Raise e ->
  let err := ("BitgetExchange operation failed: " ++ str e)%string in
  cancel_one_trigger_order exchange order s
  = (Ok tt, printed (MsgErrorCancelTrigger order_id err) s)
  /\ cancel_one_tpsl_order exchange order s
     = (Ok tt, printed (MsgErrorCancelTpsl order_id err) s)
  /\ cancel_one_limit_order exchange order s
     = (Ok tt, printed (MsgErrorCancelLimit order_id err) s).
Proof.
  intros Hs Hi He err.
  unfold cancel_one_trigger_order, cancel_one_tpsl_order, cancel_one_limit_order.
  rewrite Hs, Hi. cbn [lift]. unfold bind, ret, try_except.
  rewrite (cancel_trigger_order_unformattable symbol order_id e s He).
  rewrite (cancel_limit_order_unformattable symbol order_id e s He).
  repeat split.
Qed.

(** X13: the final verification only looks.  Every client call it makes is
    one of the three queries (positions, pending plan orders, pending
    orders); it closes no position and cancels no order. *)
Theorem verification_read_only :
  emits only_fetches (final_verification exchange).
Proof. emits_program ltac:(exact I). Qed.

Lemma step1_position_stage :
  emits position_stage (step1_close_positions exchange).
Proof. emits_program ltac:(exact I). Qed.

Lemma after_step1_no_position_close :
  emits no_position_close
    (step2_cancel_trigger_orders exchange ;;
     step3_cancel_tpsl_orders exchange ;;
     step4_cancel_limit_orders exchange ;;
     final_verification exchange).
Proof. emits_program ltac:(exact I). Qed.

(** X14: positions are closed before any order is touched.  The trace of
    the block under [async with] splits in two: a first part whose only
    client calls are the query of the positions and the closes, and a
    second part, with every order query, every cancel and the whole
    verification, in which no position is closed. *)
Theorem positions_closed_first (s : state W) :
  exists t1 t2,
    trace (snd (main_body exchange s)) = trace s ++ t1 ++ t2
    /\ Forall position_stage t1
    /\ Forall no_position_close t2.
Proof.
  unfold main_body, bind at 1.
  destruct (step1_position_stage s) as (t1 & Ht1 & H1).
  destruct (step1_close_positions exchange s) as [[[]|e] s1]; cbn [snd] in *.
  - destruct (after_step1_no_position_close s1) as (t2 & Ht2 & H2).
    exists t1, t2. rewrite Ht2, Ht1, app_assoc. auto.
  - exists t1, []. rewrite app_nil_r. auto.
Qed.

(** X15: limit orders are cancelled through [cancel_limit_order] alone and
    trigger orders through [cancel_trigger_order] alone.  Every client
    call of the limit-order loop is a call of the order cancel endpoint,
    every client call of the trigger-order loop is a call of the
    plan-order cancel endpoint, and for a limit order with a symbol that
    formats to [fs] the loop body starts with the cancel of that symbol and
    order id, sent with the product type and the margin coin. *)
Theorem cancel_routing (items : list json) :
  emits cancels_by_order (for_each items (cancel_one_limit_order exchange))
  /\ emits cancels_by_plan (for_each items (cancel_one_trigger_order exchange))
  /\ (forall order symbol order_id fs s,
        py_getitem order "symbol" = Ok symbol ->
        py_getitem order "orderId" = Ok order_id ->
        _format_symbol symbol = Ok fs ->
        exists t,
          trace (snd (cancel_one_limit_order exchange order s))
          = trace s
            ++ ECall (cancel_order_req
                        [("productType", JStr (product_type exchange));
                         ("marginCoin", JStr (margin_coin exchange));
                         ("symbol", fs); ("orderId", order_id)]) :: t).
Proof.
  split; [|split].
  - emits_program ltac:(exact I).
  - emits_program ltac:(exact I).
  - intros order symbol order_id fs s Hsym Hid Hfs.
    unfold cancel_one_limit_order. rewrite Hsym, Hid. cbn [lift].
    unfold bind at 1, ret at 1. unfold bind at 1, ret at 1.
    apply try_except_first_event; [|intros e; apply emits_emit; exact I].
    apply bind_first_event; [|intros _; apply emits_emit; exact I].
    unfold cancel_limit_order. rewrite Hfs. cbn [lift].
    apply retry_async_first_event.
    + unfold MAX_RETRIES. lia.
    + emits_program ltac:(exact I).
    + apply call_bind_first_event. intros v. apply emits_ret.
Qed.

End CancelEdges.

Lemma unformattable_symbol_isolated_witness :
  py_getitem null_symbol_order "symbol" = Ok JNull /\
  py_getitem null_symbol_order "orderId" = Ok (JStr "T9") /\
  exists e,
    _format_symbol JNull = Raise e /\
    cancel_one_trigger_order (usdt_futures flat_account) null_symbol_order start
    = (Ok tt,
       printed (MsgErrorCancelTrigger (JStr "T9")
                  ("BitgetExchange operation failed: " ++ str e)%string)
         start).
Proof.
  split; [reflexivity|]. split; [reflexivity|].
  exists (TypeError "argument of type 'NoneType' is not iterable").
  split; [reflexivity|].
  exact (proj1 (unformattable_symbol_isolated (usdt_futures flat_account)
                  null_symbol_order JNull (JStr "T9")
                  (TypeError "argument of type 'NoneType' is not iterable") start
                  eq_refl eq_refl eq_refl)).
Defined.

Lemma cancel_routing_witness :
  py_getitem limit_order "symbol" = Ok (JStr "ETHUSDT") /\
  py_getitem limit_order "orderId" = Ok (JStr "L1") /\
  _format_symbol (JStr "ETHUSDT") = Ok (JStr "ETHUSDT") /\
  exists t,
    trace (snd (cancel_one_limit_order (usdt_futures flat_account)
                  limit_order start))
    = trace start
      ++ ECall (cancel_order_req
                  [("productType", JStr "USDT-FUTURES");
                   ("marginCoin", JStr "USDT");
                   ("symbol", JStr "ETHUSDT"); ("orderId", JStr "L1")]) :: t.
Proof.
  split; [reflexivity|]. split; [reflexivity|]. split; [reflexivity|].
  exact (proj2 (proj2 (cancel_routing (usdt_futures flat_account) [limit_order]))
           limit_order (JStr "ETHUSDT") (JStr "L1") (JStr "ETHUSDT") start
           eq_refl eq_refl eq_refl).
Defined.

(** ** The TP/SL fetch *)

Lemma py_in_error (key : string) (v : json) (e : exn) :
  py_in key v = Raise e -> is_rate_limit e = false.
Proof. destruct v; cbn; intros H; try discriminate; injection H as <-; reflexivity. Qed.

Section TpslFetch.

Context {W : Type}.
Variable self : BitgetExchange W.

(** X16: every query that the TP/SL fetch sends to the pending-plan-orders
    endpoint carries [planType = "profit_loss"]; the fetch makes no other
    client call, and called without a symbol it starts with that query,
    with the parameters [productType] and [planType] alone. *)
Theorem tpsl_fetch_plan_type (symbol : json) :
  emits (plan_type_is "profit_loss") (fetch_open_tpsl_orders self symbol)
  /\ forall s, exists t,
       trace (snd (fetch_open_tpsl_orders self JNull s))
       = trace s
         ++ ECall (orders_plan_pending_req
                     [("productType", JStr (product_type self));
                      ("planType", JStr "profit_loss")]) :: t.
Proof.
  split.
  - unfold fetch_open_tpsl_orders.
    apply emits_bind; [|intros o; apply emits_ret].
    apply emits_retry_async; [|intros; exact I|intros; exact I].
    apply emits_bind_lift. intros params Hp.
    apply emits_bind; [|intros response; apply entrusted_list_of_silent].
    apply emits_call. cbn [plan_type_is].
    rewrite (fetch_params_lookup _ _ _ "planType" Hp); reflexivity.
  - intros s. unfold fetch_open_tpsl_orders.
    cbn [fetch_params truthy lift].
    match goal with |- context [retry_async ?N ?D ?f] =>
      destruct (retry_async_first_event N D f
                  (ECall (orders_plan_pending_req
                            [("productType", JStr (product_type self));
                             ("planType", JStr "profit_loss")]))
                  ltac:(unfold MAX_RETRIES; lia)
                  ltac:(emits_program ltac:(exact I)) s) as (t & Ht)
    end.
    + apply call_bind_first_event. intros v. apply entrusted_list_of_silent.
    + exists t. unfold bind at 1.
      match goal with |- context [retry_async ?N ?D ?f s] =>
        destruct (retry_async N D f s) as [[o|e] s1]
      end; exact Ht.
Qed.

(** The TP/SL fetch when the endpoint answers [response]: one call, then
    what [entrusted_list_of] makes of the answer. *)
Lemma tpsl_fetch_answered (response : json) (w' : W) (s : state W) :
  let params := [("productType", JStr (product_type self));
                 ("planType", JStr "profit_loss")] in
  let s1 := {| world := w';
               trace := trace s ++ [ECall (orders_plan_pending_req params)] |} in
  private_mix_get_v2_mix_order_orders_plan_pending (_exchange self) params (world s)
  = (Ok response, w') ->
  (forall v, entrusted_list_of response s1 = (Ok v, s1) ->
             fetch_open_tpsl_orders self JNull s = (Ok v, s1))
  /\ (forall e, entrusted_list_of response s1 = (Raise e, s1) ->
                is_rate_limit e = false ->
                fetch_open_tpsl_orders self JNull s
                = (Raise (operation_failed e), s1)).
Proof.
  intros params s1 Hanswer. split.
  - intros v Hv. unfold fetch_open_tpsl_orders. unfold bind at 1.
    erewrite retry_async_success; [reflexivity | unfold MAX_RETRIES; lia |].
    cbn [fetch_params truthy lift]. unfold bind at 1, ret at 1.
    unfold bind at 1, call. fold params. rewrite Hanswer. exact Hv.
  - intros e He Hrl. unfold fetch_open_tpsl_orders. unfold bind at 1.
    erewrite retry_async_other_error;
      [reflexivity | unfold MAX_RETRIES; lia | | exact Hrl].
    cbn [fetch_params truthy lift]. unfold bind at 1, ret at 1.
    unfold bind at 1, call. fold params. rewrite Hanswer. exact He.
Qed.

(** X17: what the TP/SL fetch makes of an answer, after the one query and
    without a retry.  An answer without ["data"], or whose ["data"] has no
    ["entrustedList"], gives the empty list; otherwise the value under
    [response["data"]["entrustedList"]] is returned as it is, not filtered
    and possibly [None]; and an answer that is no container ([None], a
    number, a boolean) makes the fetch raise the wrapped error instead of
    returning an empty list as the limit-order fetch does. *)
Theorem tpsl_fetch_answer (response : json) (w' : W) (s : state W) :
  let params := [("productType", JStr (product_type self));
                 ("planType", JStr "profit_loss")] in
  let s1 := {| world := w';
               trace := trace s ++ [ECall (orders_plan_pending_req params)] |} in
  private_mix_get_v2_mix_order_orders_plan_pending (_exchange self) params (world s)
  = (Ok response, w') ->
  (forall d, response = JDict d -> lookup "data" d = None ->
             fetch_open_tpsl_orders self JNull s = (Ok (JList []), s1))
  /\ (forall d d', response = JDict d -> lookup "data" d = Some (JDict d') ->
                   lookup "entrustedList" d' = None ->
                   fetch_open_tpsl_orders self JNull s = (Ok (JList []), s1))
  /\ (forall d d' v, response = JDict d -> lookup "data" d = Some (JDict d') ->
                     lookup "entrustedList" d' = Some v ->
                     fetch_open_tpsl_orders self JNull s = (Ok v, s1))
  /\ (match response with
      | JNull | JBool _ | JInt _ | JFloat _ =>
          exists e, fetch_open_tpsl_orders self JNull s
                    = (Raise (operation_failed e), s1)
      | _ => True
      end).
Proof.
  intros params s1 Hanswer.
  destruct (tpsl_fetch_answered response w' s Hanswer) as [Hok Herr].
  fold params in Hok, Herr. fold s1 in Hok, Herr.
  split; [|split; [|split]].
  - intros d -> Hd. apply Hok.
    unfold entrusted_list_of, bind, lift. cbn [py_in]. rewrite Hd. reflexivity.
  - intros d d' -> Hd Hl. apply Hok.
    unfold entrusted_list_of, bind, lift. cbn [py_in py_getitem].
    rewrite Hd. cbn [ret py_in]. rewrite Hl. reflexivity.
  - intros d d' v -> Hd Hl. apply Hok.
    unfold entrusted_list_of, bind, lift. cbn [py_in py_getitem].
    rewrite Hd. cbn [ret py_in py_getitem]. rewrite Hl. reflexivity.
  - destruct response; try exact I;
      (eexists; apply Herr; [reflexivity | reflexivity]).
Qed.

End TpslFetch.

Lemma tpsl_fetch_answer_witness :
  let self := usdt_futures
                (scripted (answer tt) (answer (JDict [])) (answer [])
                   (fun _ _ => answer tt)
                   (fun _ => answer (JDict [("code", JStr "00000");
                                            ("data", JDict [("entrustedList", JNull)])]))
                   (answer (entrusted [])) (fun _ => answer JNull)
                   (fun _ => answer JNull)) in
  let params := [("productType", JStr "USDT-FUTURES");
                 ("planType", JStr "profit_loss")] in
  private_mix_get_v2_mix_order_orders_plan_pending (_exchange self) params 0%nat
  = (Ok (JDict [("code", JStr "00000");
                ("data", JDict [("entrustedList", JNull)])]), 1%nat) /\
  fetch_open_tpsl_orders self JNull start
  = (Ok JNull,
     {| world := 1%nat; trace := [ECall (orders_plan_pending_req params)] |}).
Proof.
  intros self params. split; [reflexivity|].
  exact (proj1 (proj2 (proj2 (tpsl_fetch_answer self _ 1%nat start eq_refl)))
           _ _ JNull eq_refl eq_refl eq_refl).
Defined.

(** ** Step 1 and the report on the orders *)

(** X9: step 1 closes every open position it was given and only fails with
    the fetch.  When the fetch returns nothing open the step prints that
    and closes nothing.  When it returns positions, then, whatever the
    client answers and whichever [Exception] it raises, the step runs to
    its end: it prints their number and gives every position its turn, in
    the order of the list.  In its turn a position gets its opening line
    and the attempt to close it, and the line printed last reports the
    result of that very attempt, so that a position that cannot be closed
    never blocks the ones after it. *)
Theorem step1_closes_every_position {W} (exchange : BitgetExchange W)
    (s s1 : state W) (o : option (list position)) :
  fetch_open_positions exchange (printed MsgFetchingPositions s) = (Ok o, s1) ->
  (truthy_positions o = false ->
   step1_close_positions exchange s = (Ok tt, printed MsgNoPositions s1))
  /\ (forall ps, o = Some ps -> ps <> [] ->
      exists s',
        step1_close_positions exchange s = (Ok tt, s')
        /\ closing_turns exchange ps
             (printed (MsgFoundPositions (List.length ps)) s1) s').
Proof.
  intros Hfetch. split.
  - intros Hno. unfold step1_close_positions. unfold bind at 1.
    rewrite print_eq. unfold bind at 1. rewrite Hfetch, Hno. reflexivity.
  - intros ps -> Hne. unfold step1_close_positions. unfold bind at 1.
    rewrite print_eq. unfold bind at 1. rewrite Hfetch.
    destruct ps as [|p ps]; [congruence|].
    cbn [truthy_positions negb len_positions iter_positions lift].
    unfold bind at 1, ret at 1. unfold bind at 1. rewrite print_eq.
    unfold bind at 1, ret at 1.
    apply closing_loop_turns.
Qed.

Lemma step1_closes_every_position_witness :
  let exchange := usdt_futures eth_stuck in
  let s1 := {| world := 1%nat;
               trace := [EPrint MsgFetchingPositions;
                         ECall (fetch_positions_req
                                  [("productType", JStr "USDT-FUTURES")])] |} in
  fetch_open_positions exchange (printed MsgFetchingPositions start)
  = (Ok (Some [btc_long; eth_short; sol_long]), s1)
  /\ exists s',
       step1_close_positions exchange start = (Ok tt, s')
       /\ closing_turns exchange [btc_long; eth_short; sol_long]
            (printed (MsgFoundPositions 3) s1) s'.
Proof.
  intros exchange s1. split; [reflexivity|].
  exact (proj2 (step1_closes_every_position exchange start s1 _ eq_refl)
           [btc_long; eth_short; sol_long] eq_refl ltac:(discriminate)).
Defined.

(** X18: the report on the orders.  Over three lists it prints, when one
    of them is not empty, the total and the three counts, and the one
    success line when all are empty.  But when some order is left and one
    of the three values is [None] (an endpoint that answered
    ["entrustedList": null]), taking its length raises before anything is
    printed, and the report is lost to the run's error handler. *)
Theorem report_orders_counts {W} (s : state W) :
  (forall la lb lc,
     report_orders (JList la) (JList lb) (JList lc) s
     = (Ok tt,
        {| world := world s;
           trace := trace s ++
             match la, lb, lc with
             | [], [], [] => [EPrint MsgAllOrdersCanceled]
             | _, _, _ =>
                 [EPrint (MsgOrdersStillOpen
                            (List.length la + List.length lb + List.length lc));
                  EPrint (MsgTriggerCount (List.length la));
                  EPrint (MsgTpslCount (List.length lb));
                  EPrint (MsgLimitCount (List.length lc))]
             end |}))
  /\ (forall a b c,
        a = JNull \/ b = JNull \/ c = JNull ->
        (truthy a || truthy b || truthy c)%bool = true ->
        exists e, report_orders a b c s = (Raise e, s)).
Proof.
  split.
  - intros la lb lc. unfold report_orders.
    destruct la, lb, lc; cbn [truthy orb py_len lift];
      unfold bind, ret, print, emit; cbn [world trace];
      repeat (rewrite <- app_assoc; cbn [app]); reflexivity.
  - intros a b c Hnull Htruthy. unfold report_orders. rewrite Htruthy.
    unfold bind, lift.
    destruct Hnull as [-> | [-> | ->]]; cbn [py_len];
      repeat match goal with
             | |- context [py_len ?x] => destruct (py_len x); unfold ret, raise
             end;
      eexists; reflexivity.
Qed.

(** ** The fetches for one symbol *)

Section FetchWithSymbol.

Context {W : Type}.
Variable self : BitgetExchange W.

Lemma limit_orders_try_first_call (params : dict) (s : state W) :
  exists t,
    trace (snd (limit_orders_try self params s))
    = trace s ++ ECall (orders_pending_req params) :: t.
Proof.
  unfold limit_orders_try. apply try_except_first_event.
  - apply call_bind_first_event. intros response.
    emits_program ltac:(exact I).
  - intros e. emits_program ltac:(exact I).
Qed.

(** X19: asked for one symbol, each of the three order fetches adds to its
    query the symbol as [_format_symbol] writes it and keeps its own two
    filters; asked with an empty symbol it sends the two filters alone, as
    it does without a symbol. *)
Theorem fetch_with_symbol (symbol fs : json) (s : state W) :
  truthy symbol = true ->
  _format_symbol symbol = Ok fs ->
  (exists t,
     trace (snd (fetch_open_trigger_orders self symbol s))
     = trace s ++ ECall (orders_plan_pending_req
                           [("productType", JStr (product_type self));
                            ("planType", JStr "normal_plan");
                            ("symbol", fs)]) :: t)
  /\ (exists t,
        trace (snd (fetch_open_tpsl_orders self symbol s))
        = trace s ++ ECall (orders_plan_pending_req
                              [("productType", JStr (product_type self));
                               ("planType", JStr "profit_loss");
                               ("symbol", fs)]) :: t)
  /\ (exists t,
        trace (snd (fetch_open_limit_orders self symbol s))
        = trace s ++ ECall (orders_pending_req
                              [("productType", JStr (product_type self));
                               ("status", JStr "live");
                               ("symbol", fs)]) :: t)
  /\ (exists t,
        trace (snd (fetch_open_limit_orders self (JStr "") s))
        = trace s ++ ECall (orders_pending_req
                              [("productType", JStr (product_type self));
                               ("status", JStr "live")]) :: t).
Proof.
  intros Htruthy Hfs.
  assert (Hret : forall (m : M W (option json)) ev,
             (exists t, trace (snd (m s)) = trace s ++ ev :: t) ->
             exists t, trace (snd (bind m (fun o => ret (or_None o)) s))
                       = trace s ++ ev :: t).
  { intros m ev Hm. apply bind_first_event; [exact Hm|].
    intros o. apply emits_ret. }
  split; [|split; [|split]].
  - unfold fetch_open_trigger_orders, fetch_params. rewrite Htruthy, Hfs.
    cbn [dict_set String.eqb Ascii.eqb Bool.eqb lift].
    apply Hret. apply retry_async_first_event.
    + unfold MAX_RETRIES. lia.
    + emits_program ltac:(exact I).
    + apply call_bind_first_event. intros v. apply entrusted_list_of_silent.
  - unfold fetch_open_tpsl_orders, fetch_params. rewrite Htruthy, Hfs.
    cbn [dict_set String.eqb Ascii.eqb Bool.eqb lift].
    apply Hret. apply retry_async_first_event.
    + unfold MAX_RETRIES. lia.
    + emits_program ltac:(exact I).
    + apply call_bind_first_event. intros v. apply entrusted_list_of_silent.
  - unfold fetch_open_limit_orders, fetch_params. rewrite Htruthy, Hfs.
    cbn [dict_set String.eqb Ascii.eqb Bool.eqb lift].
    apply Hret. apply retry_async_first_event.
    + unfold MAX_RETRIES. lia.
    + emits_program ltac:(exact I).
    + apply limit_orders_try_first_call.
  - unfold fetch_open_limit_orders, fetch_params.
    cbn [truthy String.eqb negb lift].
    apply Hret. apply retry_async_first_event.
    + unfold MAX_RETRIES. lia.
    + emits_program ltac:(exact I).
    + apply limit_orders_try_first_call.
Qed.

End FetchWithSymbol.

Lemma fetch_with_symbol_witness :
  truthy (JStr "BTC/USDT:USDT") = true /\
  _format_symbol (JStr "BTC/USDT:USDT") = Ok (JStr "BTCUSDT") /\
  exists t,
    trace (snd (fetch_open_tpsl_orders (usdt_futures flat_account)
                  (JStr "BTC/USDT:USDT") start))
    = trace start ++ ECall (orders_plan_pending_req
                              [("productType", JStr "USDT-FUTURES");
                               ("planType", JStr "profit_loss");
                               ("symbol", JStr "BTCUSDT")]) :: t.
Proof.
  split; [reflexivity|]. split; [reflexivity|].
  exact (proj1 (proj2 (fetch_with_symbol (usdt_futures flat_account)
                         (JStr "BTC/USDT:USDT") (JStr "BTCUSDT") start
                         eq_refl eq_refl))).
Defined.

(** ** The client's configuration *)

Lemma lookup_dict_set_same (d : dict) (k : string) (v : json) :
  lookup k (dict_set d k v) = Some v.
Proof.
  induction d as [|[k0 x] d IH]; simpl.
  - rewrite String.eqb_refl. reflexivity.
  - destruct (String.eqb k0 k) eqn:E; simpl; rewrite E; [reflexivity | exact IH].
Qed.

(** X20: whatever the credentials dict holds, the client is built from a
    dict in which [options] is [{"defaultType": "future"}],
    [enableRateLimit] is true and [rateLimit] is 100, an entry of the
    credentials under one of these keys being overwritten, and in which
    every other key is as in the credentials; and the margin coin is USDT
    for the product type "USDT-FUTURES" and USDC for any other. *)
Theorem client_configuration {W} (ccxt_new : dict -> ccxt_bitget W)
    (api_setup : dict) (product_type : string) :
  exists config,
    _exchange (BitgetExchange_init ccxt_new api_setup product_type)
    = ccxt_new config
    /\ lookup "options" config = Some (JDict [("defaultType", JStr "future")])
    /\ lookup "enableRateLimit" config = Some (JBool true)
    /\ lookup "rateLimit" config = Some (JInt 100)
    /\ (forall k,
          String.eqb "options" k = false ->
          String.eqb "enableRateLimit" k = false ->
          String.eqb "rateLimit" k = false ->
          lookup k config = lookup k api_setup)
    /\ margin_coin (BitgetExchange_init ccxt_new api_setup product_type)
       = (if String.eqb product_type "USDT-FUTURES" then "USDT" else "USDC")%string.
Proof.
  eexists. split; [reflexivity|]. unfold dict_update. cbn [fold_left fst snd].
  split; [|split; [|split; [|split]]].
  - rewrite lookup_dict_set_other by reflexivity.
    rewrite lookup_dict_set_other by reflexivity.
    apply lookup_dict_set_same.
  - rewrite lookup_dict_set_other by reflexivity.
    apply lookup_dict_set_same.
  - apply lookup_dict_set_same.
  - intros k H1 H2 H3.
    rewrite !lookup_dict_set_other by assumption. reflexivity.
  - reflexivity.
Qed.
